(** * Naming, ensure/rename workflows and result versioning

    A shallow embedding of the naming and versioning core of the planning
    application: [src/lib/naming.ts], [src/lib/data/projects.ts] (both
    revisions), [src/lib/data/scenarios.ts], [src/lib/data/results.ts],
    the React contexts that wrap them and [src/utils/resultVersioning.ts].

    JavaScript strings are sequences of UTF-16 code units, numbers are the
    integer-valued doubles, and the store is the supabase query builder
    interpreted over an in-memory database that enforces the uniqueness
    constraints of the migrations. *)

From Stdlib Require Import ZArith NArith Lia Bool String Ascii DecimalN.
From stdpp Require Import base tactics option list strings gmap sorting.

Set Default Proof Using "Type".

(* ================================================================== *)
(** ** JavaScript strings *)
(* ================================================================== *)

(** A string value is its sequence of UTF-16 code units. *)
Definition jsstring := list N.

(** String literals of the sources (all ASCII). *)
Definition js (s : string) : jsstring :=
  map N_of_ascii (list_ascii_of_string s).

(** [\d] of a RegExp without the [u] flag: the ten ASCII digits. *)
Definition is_digit (c : N) : bool := ((48 <=? c) && (c <=? 57))%N.

(** [\s]: WhiteSpace and LineTerminator of ECMA-262 (TAB, LF, VT, FF, CR,
    SP, NBSP, U+1680, U+2000..U+200A, U+2028, U+2029, U+202F, U+205F,
    U+3000, U+FEFF). *)
Definition is_space (c : N) : bool :=
  (((9 <=? c) && (c <=? 13)) || (c =? 32) || (c =? 160) || (c =? 5760)
   || ((8192 <=? c) && (c <=? 8202)) || (c =? 8232) || (c =? 8233)
   || (c =? 8239) || (c =? 8287) || (c =? 12288) || (c =? 65279))%N.

(** Characters that stand for themselves in a RegExp source: ASCII letters
    and digits.  Every label the sources pass as [base] ('Project',
    'Scenario', 'Result', 'GFA', 'DF', 'IO', 'Network', 'Transport') is
    made of them. *)
Definition is_alnum (c : N) : bool :=
  (((48 <=? c) && (c <=? 57)) || ((65 <=? c) && (c <=? 90))
   || ((97 <=? c) && (c <=? 122)))%N.

Definition regex_literal (base : jsstring) : bool := forallb is_alnum base.

(** Canonicalize of the [i] flag (no [u] flag): the code unit is upper-cased,
    except that a code unit of 128 or more never maps below 128.  Compared
    with an ASCII pattern character this is ASCII upper-casing. *)
Definition canonicalize (c : N) : N :=
  if ((97 <=? c) && (c <=? 122))%N then (c - 32)%N else c.

Definition ci_eqb (p c : N) : bool := (canonicalize p =? canonicalize c)%N.

(** [^base] with the [i] flag: consume a case-insensitive copy of [base]
    at the start of the input. *)
Fixpoint match_prefix_ci (pat s : jsstring) : option jsstring :=
  match pat, s with
  | [], _ => Some s
  | p :: pat', c :: s' =>
      if ci_eqb p c then match_prefix_ci pat' s' else None
  | _ :: _, [] => None
  end.

Fixpoint take_while (f : N -> bool) (s : jsstring) : jsstring :=
  match s with
  | c :: s' => if f c then c :: take_while f s' else []
  | [] => []
  end.

Fixpoint drop_while (f : N -> bool) (s : jsstring) : jsstring :=
  match s with
  | c :: s' => if f c then drop_while f s' else s
  | [] => []
  end.

(** [n.match(new RegExp(`^${base}\\s+(\\d+)$`, 'i'))], returning the capture
    [m[1]].  The greedy [\s+] takes every leading white space; no shorter
    choice can succeed since [\d] rejects white space, so no backtracking is
    involved. *)
Definition match_re (base n : jsstring) : option jsstring :=
  match match_prefix_ci base n with
  | None => None
  | Some rest =>
      match take_while is_space rest, drop_while is_space rest with
      | _ :: _, (_ :: _) as ds => if forallb is_digit ds then Some ds else None
      | _, _ => None
      end
  end.

(* ================================================================== *)
(** ** JavaScript numbers *)
(* ================================================================== *)

(** The numbers that occur: non-negative integers representable as doubles,
    [Infinity] (from [parseInt] of a very long digit string) and [NaN]. *)
Inductive number := Fin (n : N) | Infinity | NaN.

Definition number_eqb (a b : number) : bool :=
  match a, b with
  | Fin x, Fin y => (x =? y)%N
  | Infinity, Infinity => true
  | NaN, NaN => true          (* SameValueZero, as used by Set *)
  | _, _ => false
  end.

(** Round a mathematical integer to the nearest double, ties to even.
    Below 2^53 every integer is a double; above, 53 significant bits are
    kept; from 2^1024 - 2^970 on the result is [Infinity]. *)
Definition to_double (n : N) : number :=
  if (n <? 2 ^ 53)%N then Fin n
  else
    let e := (N.log2 n - 52)%N in
    let q := (n / 2 ^ e)%N in
    let r := (n mod 2 ^ e)%N in
    let half := (2 ^ (e - 1))%N in
    let q' := if (r <? half)%N then q
              else if (half <? r)%N then (q + 1)%N
              else if N.even q then q else (q + 1)%N in
    let v := (q' * 2 ^ e)%N in
    if (2 ^ 1024 <=? v)%N then Infinity else Fin v.

(** The mathematical integer written by a string of decimal digits. *)
Definition decimal_value (ds : jsstring) : N :=
  fold_left (fun acc c => (10 * acc + (c - 48))%N) ds 0%N.

(** [parseInt(s, 10)] on the strings it is applied to here: [s] is the
    capture of [(\d+)], so there is no white space or sign to strip.  The
    longest prefix of digits is read; without one the result is [NaN].
    (ECMA-262 lets an implementation zero the digits after the 20th before
    rounding; either way an integer below 2^53 is returned exactly and a
    larger one as a double of at least 2^53, which is all that is used.) *)
Definition parseInt (s : jsstring) : number :=
  match take_while is_digit s with
  | [] => NaN
  | ds => to_double (decimal_value ds)
  end.

(** [i++] *)
Definition incr (i : number) : number :=
  match i with
  | Fin n => to_double (n + 1)
  | other => other
  end.

Fixpoint uint_units (d : Decimal.uint) : jsstring :=
  match d with
  | Decimal.Nil => []
  | Decimal.D0 d => 48%N :: uint_units d
  | Decimal.D1 d => 49%N :: uint_units d
  | Decimal.D2 d => 50%N :: uint_units d
  | Decimal.D3 d => 51%N :: uint_units d
  | Decimal.D4 d => 52%N :: uint_units d
  | Decimal.D5 d => 53%N :: uint_units d
  | Decimal.D6 d => 54%N :: uint_units d
  | Decimal.D7 d => 55%N :: uint_units d
  | Decimal.D8 d => 56%N :: uint_units d
  | Decimal.D9 d => 57%N :: uint_units d
  end.

Definition to_decimal (n : N) : jsstring := uint_units (N.to_uint n).

(** Number::toString as used by template literals.  Integers below 10^21
    print as plain decimal digits; the loop counter never exceeds 2^53. *)
Definition number_to_string (i : number) : jsstring :=
  match i with
  | Fin n => to_decimal n
  | Infinity => js "Infinity"
  | NaN => js "NaN"
  end.

(** [Set<number>]: insertion-ordered, without duplicates. *)
Definition Set_has (s : list number) (x : number) : bool :=
  existsb (number_eqb x) s.

Definition Set_add (x : number) (s : list number) : list number :=
  if Set_has s x then s else s ++ [x].

Fixpoint jsstring_eqb (a b : jsstring) : bool :=
  match a, b with
  | [], [] => true
  | x :: a', y :: b' => (x =? y)%N && jsstring_eqb a' b'
  | _, _ => false
  end.

(* ================================================================== *)
(** ** Values, rows and the query builder *)
(* ================================================================== *)

(** JSON payloads ([input_data], [metrics], the local result history). *)
#[warnings="-register-all"] Inductive json :=
| JNull
| JBool (b : bool)
| JNum (n : Z)
| JStr (s : jsstring)
| JArr (items : list json)
| JObj (fields : list (jsstring * json)).

(** A column value. *)
Inductive Value :=
| VNull
| VStr (s : jsstring)
| VNum (n : Z)
| VJson (j : json).

(** A row as PostgREST returns it: an object from column names to values. *)
Definition Row := list (string * Value).

Fixpoint get (c : string) (r : Row) : Value :=
  match r with
  | [] => VNull
  | (k, v) :: r' => if String.eqb k c then v else get c r'
  end.

Fixpoint set (c : string) (v : Value) (r : Row) : Row :=
  match r with
  | [] => [(c, v)]
  | (k, w) :: r' => if String.eqb k c then (k, v) :: r' else (k, w) :: set c v r'
  end.

Inductive Table := projects | scenarios | scenario_outputs.

Inductive Filter :=
| Eq (col : string) (v : Value)
| Neq (col : string) (v : Value).

Record Query := mkQuery {
  q_table : Table;
  q_columns : option (list string);          (* None is '*' *)
  q_filters : list Filter;
  q_order : option (string * bool);          (* column, ascending *)
  q_limit : option nat;
  q_range : option (Z * Z);
  q_single : bool
}.

(** The builder methods, as [Q.from], [Q.select], [Q.eq] and so on. *)
Module Q.
Definition from (t : Table) : Query := mkQuery t None [] None None None false.
Definition select_all (q : Query) : Query := q.
Definition select (cols : list string) (q : Query) : Query :=
  mkQuery (q_table q) (Some cols) (q_filters q) (q_order q) (q_limit q)
          (q_range q) (q_single q).
Definition eq (c : string) (v : Value) (q : Query) : Query :=
  mkQuery (q_table q) (q_columns q) (q_filters q ++ [Eq c v]) (q_order q)
          (q_limit q) (q_range q) (q_single q).
Definition neq (c : string) (v : Value) (q : Query) : Query :=
  mkQuery (q_table q) (q_columns q) (q_filters q ++ [Neq c v]) (q_order q)
          (q_limit q) (q_range q) (q_single q).
Definition order (c : string) (ascending : bool) (q : Query) : Query :=
  mkQuery (q_table q) (q_columns q) (q_filters q) (Some (c, ascending))
          (q_limit q) (q_range q) (q_single q).
Definition limit (n : nat) (q : Query) : Query :=
  mkQuery (q_table q) (q_columns q) (q_filters q) (q_order q) (Some n)
          (q_range q) (q_single q).
Definition range (a b : Z) (q : Query) : Query :=
  mkQuery (q_table q) (q_columns q) (q_filters q) (q_order q) (q_limit q)
          (Some (a, b)) (q_single q).
Definition single (q : Query) : Query :=
  mkQuery (q_table q) (q_columns q) (q_filters q) (q_order q) (q_limit q)
          (q_range q) true.
End Q.

Notation "q |> f" := (f q) (at level 45, left associativity, only parsing).

(** The requests the sources send. *)
Inductive Cmd :=
| Select (q : Query)
| Insert (t : Table) (row : Row) (returning : option (list string))
    (* .insert([row]).select(cols).single() *)
| Update (t : Table) (fields : Row) (filters : list Filter)
| Delete (t : Table) (filters : list Filter).

Record PgError := mkError { code : string }.

Inductive Data :=
| DNull
| DRow (r : Row)
| DRows (rs : list Row).

(** What awaiting a request yields: [{ data, error }]. *)
Record Response := mkResponse { data : Data; error : option PgError }.

(* ================================================================== *)
(** ** Programs over the store *)
(* ================================================================== *)

Inductive Exn :=
| ExPg (e : PgError)     (* throw createError *)
| TypeError.             (* a property of null, a method of a non-string *)

(** An async function: a tree of requests, ending in a returned value, a
    thrown exception, or the [while] loop of [nextAutoName] never exiting. *)
Inductive Prog (A : Type) : Type :=
| Ret (a : A)
| Throw (e : Exn)
| Spin
| Call (c : Cmd) (k : Response -> Prog A).
Arguments Ret {A} a.
Arguments Throw {A} e.
Arguments Spin {A}.
Arguments Call {A} c k.

Fixpoint bind {A B} (p : Prog A) (f : A -> Prog B) : Prog B :=
  match p with
  | Ret a => f a
  | Throw e => Throw e
  | Spin => Spin
  | Call c k => Call c (fun r => bind (k r) f)
  end.

(** [try { p } catch (error) { h error }] *)
Fixpoint try_catch {A} (p : Prog A) (h : Exn -> Prog A) : Prog A :=
  match p with
  | Ret a => Ret a
  | Throw e => h e
  | Spin => Spin
  | Call c k => Call c (fun r => try_catch (k r) h)
  end.

Notation "'let!' x ':=' p 'in' q" := (bind p (fun x => q))
  (at level 10, x name, p at level 100, q at level 200).

(** [await] of one request. *)
Definition await (c : Cmd) : Prog Response := Call c Ret.

Inductive Outcome (A : Type) : Type :=
| Returned (a : A)
| Thrown (e : Exn)
| Diverged.
Arguments Returned {A} a.
Arguments Thrown {A} e.
Arguments Diverged {A}.

(** Running a program against a store [h] with state [S]; the log lists the
    requests that were sent, in order, with their responses. *)
Fixpoint run {S A} (h : Cmd -> S -> Response * S) (p : Prog A) (s : S)
  : Outcome A * S * list (Cmd * Response) :=
  match p with
  | Ret a => (Returned a, s, [])
  | Throw e => (Thrown e, s, [])
  | Spin => (Diverged, s, [])
  | Call c k =>
      let '(r, s1) := h c s in
      let '(o, s2, log) := run h (k r) s1 in
      (o, s2, (c, r) :: log)
  end.

Definition is_insert (ev : Cmd * Response) : bool :=
  match fst ev with Insert _ _ _ => true | _ => false end.

Definition inserts (log : list (Cmd * Response)) : nat :=
  length (filter (fun ev => is_insert ev = true) log).

(* ================================================================== *)
(** ** The in-memory store *)
(* ================================================================== *)

(** Tables are lists of rows in insertion order.  The store enforces the
    primary keys, the UNIQUE constraints and the range of the INTEGER columns
    of the migrations.  It does not enforce the foreign key and the row-level
    policies of [scenario_outputs], which need the project of a result to be
    stored and to belong to the signed-in user: a statement about a result
    that is created carries them as a hypothesis ([may_create]).  NOT NULL
    is not enforced either: the rows are typed by hypothesis
    ([is_result_row]).  A JSONB column holds the value as it was written;
    Postgres keeps a normal form of it, with the keys of an object
    reordered, so no statement says what a JSON column other than the empty
    object reads back as.  Rows read without ORDER BY come in table order, and
    rows with equal sort keys keep it: one of the orders the database may
    choose. *)

(** SQL equality: text with text, numbers with numbers; NULL equals
    nothing. *)
Definition sql_eqb (a b : Value) : bool :=
  match a, b with
  | VStr x, VStr y => jsstring_eqb x y
  | VNum x, VNum y => (x =? y)%Z
  | _, _ => false
  end.

Definition filter_holds (f : Filter) (r : Row) : bool :=
  match f with
  | Eq c v => sql_eqb (get c r) v
  | Neq c v => match get c r with
               | VNull => false
               | x => negb (sql_eqb x v)
               end
  end.

Definition matches_all (fs : list Filter) (r : Row) : bool :=
  forallb (fun f => filter_holds f r) fs.

Fixpoint where_ (fs : list Filter) (rs : list Row) : list Row :=
  match rs with
  | [] => []
  | r :: rs' => if matches_all fs r then r :: where_ fs rs' else where_ fs rs'
  end.

(** Sort key of an ORDER BY column.  The sources order by [created_at],
    [updated_at] and [result_number] only, all NOT NULL and numeric here
    (a timestamp is the store's clock reading). *)
Definition order_key (c : string) (r : Row) : Z :=
  match get c r with
  | VNum n => n
  | _ => 0%Z
  end.

(** [r] may stand before [x]. *)
Definition before (c : string) (ascending : bool) (r x : Row) : bool :=
  if ascending then (order_key c r <=? order_key c x)%Z
  else (order_key c x <=? order_key c r)%Z.

Fixpoint insert_sorted (c : string) (asc : bool) (r : Row) (l : list Row)
  : list Row :=
  match l with
  | [] => [r]
  | x :: l' => if before c asc r x then r :: l
               else x :: insert_sorted c asc r l'
  end.

(** ORDER BY as a stable insertion sort: rows with equal keys keep their
    table order.  Postgres leaves the order of ties open, for every query
    anew; the model fixes one. *)
Fixpoint order_by (c : string) (asc : bool) (l : list Row) : list Row :=
  match l with
  | [] => []
  | r :: l' => insert_sorted c asc r (order_by c asc l')
  end.

Definition apply_order (o : option (string * bool)) (l : list Row) : list Row :=
  match o with
  | Some (c, asc) => order_by c asc l
  | None => l
  end.

(** [.range(a, b)]: rows [a] to [b] inclusive, OFFSET a LIMIT b - a + 1. *)
Definition apply_range (rg : option (Z * Z)) (l : list Row) : list Row :=
  match rg with
  | Some (a, b) => firstn (Z.to_nat (b - a + 1)) (skipn (Z.to_nat a) l)
  | None => l
  end.

Definition apply_limit (n : option nat) (l : list Row) : list Row :=
  match n with
  | Some k => firstn k l
  | None => l
  end.

Definition project (cols : option (list string)) (r : Row) : Row :=
  match cols with
  | Some cs => map (fun c => (c, get c r)) cs
  | None => r
  end.

Definition PGRST116 : PgError := mkError "PGRST116".  (* not exactly one row *)
Definition unique_violation : PgError := mkError "23505".
Definition numeric_value_out_of_range : PgError := mkError "22003".

(** [.single()]: the row when there is exactly one, otherwise no data and
    an error. *)
Definition as_single (rs : list Row) : Response :=
  match rs with
  | [r] => mkResponse (DRow r) None
  | _ => mkResponse DNull (Some PGRST116)
  end.

Definition eval_query (q : Query) (rows : list Row) : Response :=
  let rs := map (project (q_columns q))
              (apply_limit (q_limit q)
                 (apply_range (q_range q)
                    (apply_order (q_order q) (where_ (q_filters q) rows)))) in
  if q_single q then as_single rs else mkResponse (DRows rs) None.

Record DB := mkDB {
  tbl_projects : list Row;
  tbl_scenarios : list Row;
  tbl_outputs : list Row;
  next_id : N;        (* source of gen_random_uuid() *)
  clock : Z           (* now() *)
}.

Definition table (db : DB) (t : Table) : list Row :=
  match t with
  | projects => tbl_projects db
  | scenarios => tbl_scenarios db
  | scenario_outputs => tbl_outputs db
  end.

Definition with_table (db : DB) (t : Table) (rs : list Row) : DB :=
  match t with
  | projects => mkDB rs (tbl_scenarios db) (tbl_outputs db) (next_id db) (clock db)
  | scenarios => mkDB (tbl_projects db) rs (tbl_outputs db) (next_id db) (clock db)
  | scenario_outputs => mkDB (tbl_projects db) (tbl_scenarios db) rs (next_id db) (clock db)
  end.

(** The UNIQUE constraints of the migrations: [unique_project_name_per_owner],
    [unique_scenario_name_per_project_module],
    [unique_result_name_per_scenario], [unique_scenario_result]; and the
    primary key. *)
Definition unique_keys (t : Table) : list (list string) :=
  match t with
  | projects => [["id"]; ["user_id"; "name"]]
  | scenarios => [["id"]; ["project_id"; "module_type"; "name"]]
  | scenario_outputs =>
      [["id"]; ["scenario_id"; "name"]; ["scenario_id"; "result_number"]]
  end.

Definition same_key (key : list string) (r r' : Row) : bool :=
  forallb (fun c => sql_eqb (get c r) (get c r')) key.

(** Two rows clash: they agree on one of the keys. *)
Definition clash (t : Table) (r r' : Row) : bool :=
  existsb (fun key => same_key key r r') (unique_keys t).

(** [r] collides with a row of [rs]. *)
Definition collides (t : Table) (r : Row) (rs : list Row) : bool :=
  existsb (clash t r) rs.

(** The INTEGER columns of the migrations: [result_number INTEGER NOT NULL
    DEFAULT 1] and [version INTEGER DEFAULT 1]. *)
Definition integer_columns (t : Table) : list string :=
  match t with
  | scenario_outputs => ["result_number"; "version"]
  | _ => []
  end.

(** The range of INTEGER. *)
Definition int4 (n : Z) : bool := (-2147483648 <=? n)%Z && (n <=? 2147483647)%Z.

(** The numbers written to INTEGER columns are in range. *)
Definition fits (t : Table) (fields : Row) : bool :=
  forallb (fun c => match get c fields with
                    | VNum n => int4 n
                    | _ => true
                    end) (integer_columns t).

(** Column defaults filled in by the database on insert. *)
Definition uuid (n : N) : jsstring := js "id-" ++ to_decimal n.

Definition with_defaults (db : DB) (t : Table) (row : Row) : Row :=
  match t with
  | scenario_outputs =>
      ("id", VStr (uuid (next_id db))) :: row ++ [("created_at", VNum (clock db))]
  | _ =>
      ("id", VStr (uuid (next_id db))) :: row
        ++ [("created_at", VNum (clock db)); ("updated_at", VNum (clock db))]
  end.

Definition set_fields (fields : Row) (r : Row) : Row :=
  fold_left (fun acc kv => set (fst kv) (snd kv) acc) fields r.

(** The table satisfies its keys: no two rows clash. *)
Fixpoint keys_ok (t : Table) (rs : list Row) : bool :=
  match rs with
  | [] => true
  | r :: rs' => negb (collides t r rs') && keys_ok t rs'
  end.

(** The rows an UPDATE leaves, each marked when it was written. *)
Definition updated (fs : list Filter) (fields : Row) (rs : list Row)
  : list (bool * Row) :=
  map (fun r => if matches_all fs r then (true, set_fields fields r) else (false, r)) rs.

(** No written row clashes with another row. *)
Fixpoint writes_ok (t : Table) (l : list (bool * Row)) : bool :=
  match l with
  | [] => true
  | (w, r) :: l' =>
      negb (existsb (fun x => (w || fst x) && clash t r (snd x)) l') && writes_ok t l'
  end.

Fixpoint delete_where (fs : list Filter) (rs : list Row) : list Row :=
  match rs with
  | [] => []
  | r :: rs' => if matches_all fs r then delete_where fs rs'
                else r :: delete_where fs rs'
  end.

(** One request against the database.  Reads do not change it; a write of
    a number outside the range of its INTEGER column fails with SQLSTATE
    22003, a write that violates a key with 23505, and a failed write
    changes nothing. *)
Definition db_exec (c : Cmd) (db : DB) : Response * DB :=
  match c with
  | Select q => (eval_query q (table db (q_table q)), db)
  | Insert t row returning =>
      let r := with_defaults db t row in
      if negb (fits t row) then
        (mkResponse DNull (Some numeric_value_out_of_range), db)
      else if collides t r (table db t) then
        (mkResponse DNull (Some unique_violation), db)
      else
        let db' := with_table db t (table db t ++ [r]) in
        (mkResponse (DRow (project returning r)) None,
         mkDB (tbl_projects db') (tbl_scenarios db') (tbl_outputs db')
              (next_id db + 1) (clock db + 1))
  | Update t fields fs =>
      let l := updated fs fields (table db t) in
      if negb (fits t fields) then
        (mkResponse DNull (Some numeric_value_out_of_range), db)
      else if writes_ok t l then (mkResponse DNull None, with_table db t (map snd l))
      else (mkResponse DNull (Some unique_violation), db)
  | Delete t fs => (mkResponse DNull None, with_table db t (delete_where fs (table db t)))
  end.

(** A second writer: before the [k]-th request of the program reaches the
    database, [others k] has been applied to it. *)
Definition racing (others : nat -> DB -> DB) (c : Cmd) (s : DB * nat)
  : Response * (DB * nat) :=
  let '(r, db') := db_exec c (others (snd s) (fst s)) in
  (r, (db', S (snd s))).

(* ================================================================== *)
(** ** src/lib/naming.ts *)
(* ================================================================== *)

(** The labels passed as [base]: the declared union 'Project' | 'Scenario' |
    'Result', and the module prefixes that [ensureProject] passes through
    [prefix as any].  All are ASCII letters, which stand for themselves in
    the RegExp source. *)
Inductive BaseLabel :=
| Project | Scenario | Result
| GFA | DF | IO | Network | Transport.

Definition label (base : BaseLabel) : jsstring :=
  match base with
  | Project => js "Project"
  | Scenario => js "Scenario"
  | Result => js "Result"
  | GFA => js "GFA"
  | DF => js "DF"
  | IO => js "IO"
  | Network => js "Network"
  | Transport => js "Transport"
  end.

(** The [forEach] that fills [used]. *)
Definition usedNumbers (base : jsstring) (names : list jsstring) : list number :=
  fold_left (fun used n =>
               match match_re base n with
               | Some m1 => Set_add (parseInt m1) used
               | None => used
               end) names [].

(** [while (used.has(i)) i++], at most [fuel] tests. *)
Fixpoint while_has (fuel : nat) (used : list number) (i : number)
  : option number :=
  match fuel with
  | O => None
  | S fuel' => if Set_has used i then while_has fuel' used (incr i) else Some i
  end.

(** [nextAutoName(listExisting, base)].  The loop is given one more test
    than there are names, which is one more than [used] can hold; when that
    is not enough the loop never ends ([while_has_spin_exact]). *)
Definition nextAutoName (listExisting : Prog (list jsstring)) (base : BaseLabel)
  : Prog jsstring :=
  let! names := listExisting in
  let used := usedNumbers (label base) names in
  match while_has (S (length names)) used (Fin 1) with
  | Some i => Ret (label base ++ js " " ++ number_to_string i)
  | None => Spin
  end.

(** [generateNameSuggestions(baseName, count = 3)] *)
Fixpoint suggestions_from (baseName : jsstring) (i : N) (n : nat)
  : list jsstring :=
  match n with
  | O => []
  | S n' => (baseName ++ js " (" ++ to_decimal i ++ js ")")
              :: suggestions_from baseName (i + 1) n'
  end.

Definition generateNameSuggestions (baseName : jsstring) (count : option nat)
  : list jsstring :=
  suggestions_from baseName 2 (default 3%nat count).

(* ================================================================== *)
(** ** Helpers shared by the data modules *)
(* ================================================================== *)

(** JavaScript truthiness of [data]: [null] is falsy, an object or an array
    is truthy. *)
Definition truthy (d : Data) : bool :=
  match d with
  | DNull => false
  | _ => true
  end.

Definition no_error (r : Response) : bool :=
  match error r with
  | None => true
  | Some _ => false
  end.

Fixpoint strings_of (vs : list Value) : option (list jsstring) :=
  match vs with
  | [] => Some []
  | VStr s :: vs' => match strings_of vs' with
                     | Some l => Some (s :: l)
                     | None => None
                     end
  | _ :: _ => None
  end.

(** [data?.map(r => r.name) || []], handed to [nextAutoName]; a name that is
    not a string has no [match] method and an object has no [map], which
    throws a TypeError. *)
Definition names_of (d : Data) : Prog (list jsstring) :=
  match d with
  | DNull => Ret []
  | DRows rs => match strings_of (map (get "name") rs) with
                | Some names => Ret names
                | None => Throw TypeError
                end
  | DRow _ => Throw TypeError
  end.

Definition is_unique_violation (e : PgError) : bool :=
  String.eqb (code e) "23505".

Inductive ToolType := gfa | forecasting | network | inventory | transportation.

Definition tool_name (t : ToolType) : jsstring :=
  match t with
  | gfa => js "gfa"
  | forecasting => js "forecasting"
  | network => js "network"
  | inventory => js "inventory"
  | transportation => js "transportation"
  end.

Inductive ModuleType := m_forecasting | m_gfa | m_inventory | m_network.

Definition module_name (m : ModuleType) : jsstring :=
  match m with
  | m_forecasting => js "forecasting"
  | m_gfa => js "gfa"
  | m_inventory => js "inventory"
  | m_network => js "network"
  end.

Definition empty_object : Value := VJson (JObj []).

(* ================================================================== *)
(** ** src/lib/data/projects.ts, current revision *)
(* ================================================================== *)

(** [getModulePrefix]; the [default] branch is unreachable for a
    [ToolType]. *)
Definition getModulePrefix (toolType : ToolType) : BaseLabel :=
  match toolType with
  | gfa => GFA
  | forecasting => DF
  | inventory => IO
  | network => Network
  | transportation => Transport
  end.

Definition first_project (userId : jsstring) (toolType : ToolType) : Query :=
  Q.from projects |> Q.select_all
    |> Q.eq "user_id" (VStr userId) |> Q.eq "tool_type" (VStr (tool_name toolType))
    |> Q.limit 1 |> Q.single.

Definition new_project (userId name : jsstring) (toolType : ToolType) : Row :=
  [("user_id", VStr userId); ("name", VStr name);
   ("tool_type", VStr (tool_name toolType)); ("description", VNull);
   ("input_data", empty_object); ("results_data", empty_object);
   ("size_mb", VNum 0)].

(** [ensureProject(userId, toolType)]: reuse the first project of the tool
    type, else create one; after a lost race fetch again. *)
Definition ensureProject (userId : jsstring) (toolType : ToolType) : Prog Data :=
  try_catch
    (let! r := await (Select (first_project userId toolType)) in
     if truthy (data r) && no_error r then Ret (data r)
     else
       let prefix := getModulePrefix toolType in
       let! name :=
         nextAutoName
           (let! l := await (Select (Q.from projects |> Q.select ["name"]
                                       |> Q.eq "user_id" (VStr userId)
                                       |> Q.eq "tool_type" (VStr (tool_name toolType)))) in
            names_of (data l))
           prefix in
       let! created := await (Insert projects (new_project userId name toolType) None) in
       match error created with
       | Some createError =>
           if is_unique_violation createError then
             let! existingAfterRace := await (Select (first_project userId toolType)) in
             if truthy (data existingAfterRace) then Ret (data existingAfterRace)
             else Throw (ExPg createError)
           else Throw (ExPg createError)
       | None => Ret (data created)
       end)
    (fun _ => Ret DNull).

Record RenameOutcome := mkRename { success : bool; error_message : option jsstring }.

Definition project_exists_message (newName : jsstring) : jsstring :=
  js "A project named '" ++ newName
    ++ js "' already exists. Please choose a different name.".

(** The check for another project of the user with that name. *)
Definition project_name_taken (id newName userId : jsstring) : Query :=
  Q.from projects |> Q.select ["id"]
    |> Q.eq "user_id" (VStr userId) |> Q.eq "name" (VStr newName)
    |> Q.neq "id" (VStr id) |> Q.single.

(** [.update({ name: newName }).eq('id', id).eq('user_id', userId)] *)
Definition update_project_name (id newName userId : jsstring) : Cmd :=
  Update projects [("name", VStr newName)]
         [Eq "id" (VStr id); Eq "user_id" (VStr userId)].

(** [renameProject(id, newName, userId)] *)
Definition renameProject (id newName userId : jsstring) : Prog RenameOutcome :=
  try_catch
    (let! r := await (Select (project_name_taken id newName userId)) in
     if truthy (data r) then
       Ret (mkRename false (Some (project_exists_message newName)))
     else
       let! u := await (update_project_name id newName userId) in
       match error u with
       | Some e =>
           if is_unique_violation e then
             Ret (mkRename false (Some (project_exists_message newName)))
           else Throw (ExPg e)
       | None => Ret (mkRename true None)
       end)
    (fun _ => Ret (mkRename false (Some (js "Failed to rename project")))).

(** Paging options: [limit] and [offset] are non-negative integers. *)
Definition page (offset limit : nat) (q : Query) : Query :=
  q |> Q.range (Z.of_nat offset) (Z.of_nat offset + Z.of_nat limit - 1).

(** [listProjects(userId, limit = 20, offset = 0)] *)
Definition listProjects (userId : jsstring) (limit offset : option nat)
  : Prog Data :=
  try_catch
    (let! r := await (Select (Q.from projects |> Q.select_all
                                |> Q.eq "user_id" (VStr userId)
                                |> Q.order "updated_at" false
                                |> page (default 0%nat offset) (default 20%nat limit))) in
     match error r with
     | Some e => Throw (ExPg e)
     | None => Ret (data r)
     end)
    (fun _ => Ret (DRows [])).

(* ================================================================== *)
(** ** src/lib/data/projects.ts, earlier revision *)
(* ================================================================== *)

Definition latest_project (userId : jsstring) (toolType : ToolType) : Query :=
  Q.from projects |> Q.select_all
    |> Q.eq "user_id" (VStr userId) |> Q.eq "tool_type" (VStr (tool_name toolType))
    |> Q.order "updated_at" false |> Q.limit 1 |> Q.single.

Definition project_names (userId : jsstring) : Prog (list jsstring) :=
  let! l := await (Select (Q.from projects |> Q.select ["name"]
                             |> Q.eq "user_id" (VStr userId))) in
  names_of (data l).

(** The first [ensureProject]: reuse the most recently updated project,
    else create 'Project N'; after a lost race insert again under the next
    name. *)
Definition ensureProject_v1 (userId : jsstring) (toolType : ToolType) : Prog Data :=
  try_catch
    (let! r := await (Select (latest_project userId toolType)) in
     if truthy (data r) && no_error r then Ret (data r)
     else
       let! name := nextAutoName (project_names userId) Project in
       let! created := await (Insert projects (new_project userId name toolType) None) in
       match error created with
       | Some createError =>
           if is_unique_violation createError then
             let! retryName := nextAutoName (project_names userId) Project in
             let! retried := await (Insert projects (new_project userId retryName toolType) None) in
             match error retried with
             | Some retryError => Throw (ExPg retryError)
             | None => Ret (data retried)
             end
           else Throw (ExPg createError)
       | None => Ret (data created)
       end)
    (fun _ => Ret DNull).

(* ================================================================== *)
(** ** src/lib/data/scenarios.ts *)
(* ================================================================== *)

Definition latest_scenario (projectId : jsstring) (moduleType : ModuleType) : Query :=
  Q.from scenarios |> Q.select_all
    |> Q.eq "project_id" (VStr projectId)
    |> Q.eq "module_type" (VStr (module_name moduleType))
    |> Q.order "updated_at" false |> Q.limit 1 |> Q.single.

Definition scenario_names (projectId : jsstring) (moduleType : ModuleType)
  : Prog (list jsstring) :=
  let! l := await (Select (Q.from scenarios |> Q.select ["name"]
                             |> Q.eq "project_id" (VStr projectId)
                             |> Q.eq "module_type" (VStr (module_name moduleType)))) in
  names_of (data l).

Definition new_scenario (projectId userId : jsstring) (moduleType : ModuleType)
    (name : jsstring) : Row :=
  [("project_id", VStr projectId); ("user_id", VStr userId);
   ("module_type", VStr (module_name moduleType)); ("name", VStr name);
   ("description", VNull); ("status", VStr (js "pending"))].

(** [ensureScenario(projectId, userId, moduleType)] *)
Definition ensureScenario (projectId userId : jsstring) (moduleType : ModuleType)
  : Prog Data :=
  try_catch
    (let! r := await (Select (latest_scenario projectId moduleType)) in
     if truthy (data r) && no_error r then Ret (data r)
     else
       let! name := nextAutoName (scenario_names projectId moduleType) Scenario in
       let! created :=
         await (Insert scenarios (new_scenario projectId userId moduleType name) None) in
       match error created with
       | Some createError =>
           if is_unique_violation createError then
             let! retryName :=
               nextAutoName (scenario_names projectId moduleType) Scenario in
             let! retried :=
               await (Insert scenarios
                        (new_scenario projectId userId moduleType retryName) None) in
             match error retried with
             | Some retryError => Throw (ExPg retryError)
             | None => Ret (data retried)
             end
           else Throw (ExPg createError)
       | None => Ret (data created)
       end)
    (fun _ => Ret DNull).

Definition scenario_exists_message (newName : jsstring) : jsstring :=
  js "A scenario named '" ++ newName
    ++ js "' already exists in this module. Please choose a different name.".

(** The check for another scenario of the project and module with that
    name. *)
Definition scenario_name_taken (id newName projectId : jsstring)
    (moduleType : ModuleType) : Query :=
  Q.from scenarios |> Q.select ["id"]
    |> Q.eq "project_id" (VStr projectId)
    |> Q.eq "module_type" (VStr (module_name moduleType))
    |> Q.eq "name" (VStr newName)
    |> Q.neq "id" (VStr id) |> Q.single.

(** [.update({ name: newName }).eq('id', id)] *)
Definition update_scenario_name (id newName : jsstring) : Cmd :=
  Update scenarios [("name", VStr newName)] [Eq "id" (VStr id)].

(** [renameScenario(id, newName, projectId, moduleType)] *)
Definition renameScenario (id newName projectId : jsstring) (moduleType : ModuleType)
  : Prog RenameOutcome :=
  try_catch
    (let! r := await (Select (scenario_name_taken id newName projectId moduleType)) in
     if truthy (data r) then
       Ret (mkRename false (Some (scenario_exists_message newName)))
     else
       let! u := await (update_scenario_name id newName) in
       match error u with
       | Some e =>
           if is_unique_violation e then
             Ret (mkRename false (Some (scenario_exists_message newName)))
           else Throw (ExPg e)
       | None => Ret (mkRename true None)
       end)
    (fun _ => Ret (mkRename false (Some (js "Failed to rename scenario")))).

(* ================================================================== *)
(** ** src/lib/data/results.ts *)
(* ================================================================== *)

Record ResultParams := mkParams {
  projectId : jsstring;
  scenarioId : jsstring;
  moduleType : jsstring;
  metrics : json;
  payload : json
}.

Definition top_result (scenario : jsstring) : Query :=
  Q.from scenario_outputs |> Q.select ["result_number"; "name"]
    |> Q.eq "scenario_id" (VStr scenario)
    |> Q.order "result_number" false |> Q.limit 1.

(** [existingResults[0].result_number + 1].  The column is INTEGER NOT NULL,
    so the store returns a number, of less than 2^31 in size, and the sum
    is exact.  For the other values [+] coerces: null counts as 0 and text
    is concatenated with '1'.  (A JSON object or array is not what a scalar
    column returns; it is sent on as null.) *)
Definition plus_one (v : Value) : Value :=
  match v with
  | VNum n => VNum (n + 1)
  | VNull => VNum 1
  | VStr s => VStr (s ++ js "1")
  | VJson _ => VNull
  end.

(** [existingResults && existingResults.length > 0
      ? existingResults[0].result_number + 1 : 1] *)
Definition nextResultNumber (existingResults : Data) : Value :=
  match existingResults with
  | DRows (top :: _) => plus_one (get "result_number" top)
  | _ => VNum 1
  end.

Definition result_names (scenario : jsstring) : Prog (list jsstring) :=
  let! l := await (Select (Q.from scenario_outputs |> Q.select ["name"]
                             |> Q.eq "scenario_id" (VStr scenario))) in
  names_of (data l).

Definition new_result (params : ResultParams) (name : jsstring) (number : Value)
  : Row :=
  [("project_id", VStr (projectId params));
   ("scenario_id", VStr (scenarioId params));
   ("module_type", VStr (moduleType params));
   ("name", VStr name);
   ("result_number", number);
   ("metrics", VJson (metrics params));
   ("output_data", VJson (payload params));
   ("version", VNum 1)].

Definition result_handle : option (list string) :=
  Some ["id"; "name"; "created_at"].

(** [createResult(params)] *)
Definition createResult (params : ResultParams) : Prog Data :=
  try_catch
    (let! existing := await (Select (top_result (scenarioId params))) in
     let number := nextResultNumber (data existing) in
     let! name := nextAutoName (result_names (scenarioId params)) Result in
     let! created :=
       await (Insert scenario_outputs (new_result params name number) result_handle) in
     match error created with
     | Some createError =>
         if is_unique_violation createError then
           let! retryName :=
             nextAutoName (result_names (scenarioId params)) Result in
           let! retried :=
             await (Insert scenario_outputs (new_result params retryName number)
                      result_handle) in
           match error retried with
           | Some retryError => Throw (ExPg retryError)
           | None => Ret (data retried)
           end
         else Throw (ExPg createError)
     | None => Ret (data created)
     end)
    (fun _ => Ret DNull).

Record ListOptions := mkOptions { opt_limit : option nat; opt_offset : option nat }.

(** [listResults(scenarioId, options = {})] with [limit = 10, offset = 0] *)
Definition listResults (scenario : jsstring) (options : ListOptions) : Prog Data :=
  let limit := default 10%nat (opt_limit options) in
  let offset := default 0%nat (opt_offset options) in
  try_catch
    (let! r := await (Select (Q.from scenario_outputs |> Q.select_all
                                |> Q.eq "scenario_id" (VStr scenario)
                                |> Q.order "created_at" false
                                |> page offset limit)) in
     match error r with
     | Some e => Throw (ExPg e)
     | None => Ret (data r)
     end)
    (fun _ => Ret (DRows [])).

(** [getResult(id)] *)
Definition getResult (id : jsstring) : Prog Data :=
  try_catch
    (let! r := await (Select (Q.from scenario_outputs |> Q.select_all
                                |> Q.eq "id" (VStr id) |> Q.single)) in
     match error r with
     | Some e => Throw (ExPg e)
     | None => Ret (data r)
     end)
    (fun _ => Ret DNull).

Definition result_exists_message (newName : jsstring) : jsstring :=
  js "A result named '" ++ newName
    ++ js "' already exists in this scenario. Please choose a different name.".

(** The check for another result of the scenario with that name. *)
Definition result_name_taken (id newName scenario : jsstring) : Query :=
  Q.from scenario_outputs |> Q.select ["id"]
    |> Q.eq "scenario_id" (VStr scenario) |> Q.eq "name" (VStr newName)
    |> Q.neq "id" (VStr id) |> Q.single.

(** [.update({ name: newName }).eq('id', id)] *)
Definition update_result_name (id newName : jsstring) : Cmd :=
  Update scenario_outputs [("name", VStr newName)] [Eq "id" (VStr id)].

(** [renameResult(id, newName, scenarioId)] *)
Definition renameResult (id newName scenario : jsstring) : Prog RenameOutcome :=
  try_catch
    (let! r := await (Select (result_name_taken id newName scenario)) in
     if truthy (data r) then
       Ret (mkRename false (Some (result_exists_message newName)))
     else
       let! u := await (update_result_name id newName) in
       match error u with
       | Some e =>
           if is_unique_violation e then
             Ret (mkRename false (Some (result_exists_message newName)))
           else Throw (ExPg e)
       | None => Ret (mkRename true None)
       end)
    (fun _ => Ret (mkRename false (Some (js "Failed to rename result")))).

(* ================================================================== *)
(** ** The React contexts: ScenarioContext and ProjectContext *)
(* ================================================================== *)

Record User := mkUser { user_id : jsstring }.

(** State held by [ScenarioProvider]. *)
Record ScenarioState := mkScenarioState {
  scenarios_ : list Row;
  currentScenario : Data
}.

(** [===] on the values compared here (ids). *)
Definition strict_eqb (a b : Value) : bool :=
  match a, b with
  | VNull, VNull => true
  | VStr x, VStr y => jsstring_eqb x y
  | VNum x, VNum y => (x =? y)%Z
  | _, _ => false
  end.

(** [ensureScenario] of the context. *)
Definition ctx_ensureScenario (user : option User) (st : ScenarioState)
    (project : jsstring) (module : ModuleType) : Prog (Data * ScenarioState) :=
  match user with
  | None => Ret (DNull, st)                        (* if (!user) return null *)
  | Some u =>
      let! scenario := ensureScenario project (user_id u) module in
      match scenario with
      | DRow s =>
          let known := existsb (fun x => strict_eqb (get "id" x) (get "id" s))
                               (scenarios_ st) in
          Ret (scenario,
               mkScenarioState (if known then scenarios_ st else s :: scenarios_ st)
                               scenario)
      | _ => Ret (scenario, st)
      end
  end.

(** State held by [ProjectProvider]. *)
Record ProjectState := mkProjectState {
  projects_ : list Row;
  loading : bool
}.

(** [fetchProjects] *)
Definition fetchProjects (user : option User) (st : ProjectState)
  : Prog ProjectState :=
  match user with
  | None => Ret (mkProjectState [] false)
  | Some _ =>
      let! r := await (Select (Q.from projects |> Q.select_all
                                 |> Q.order "created_at" false)) in
      match data r, error r with
      | DRows rs, None => Ret (mkProjectState rs false)
      | _, _ => Ret (mkProjectState (projects_ st) false)
      end
  end.

(** [ensureProject] of the context. *)
Definition ctx_ensureProject (user : option User) (st : ProjectState)
    (toolType : ToolType) : Prog (Data * ProjectState) :=
  match user with
  | None => Ret (DNull, st)                        (* if (!user) return null *)
  | Some u =>
      let! project := ensureProject (user_id u) toolType in
      if truthy project then
        let! st' := fetchProjects user st in
        Ret (project, st')
      else Ret (project, st)
  end.

(* ================================================================== *)
(** ** src/utils/resultVersioning.ts: the local result history *)
(* ================================================================== *)

(** A string kept in [localStorage]: either the JSON text of a value, which
    [JSON.parse] maps back to that value, or a text that [JSON.parse]
    rejects with a SyntaxError (the empty string among them). *)
Inductive item :=
| Json (j : json)
| Text (s : jsstring).

Abbreviation storage := (gmap jsstring item).

Definition results_key (scenario : jsstring) : jsstring :=
  js "scenario_results_" ++ scenario.

(** Own property of a parsed object; with a repeated key the last one
    counts. *)
Definition field (k : jsstring) (fields : list (jsstring * json)) : option json :=
  fold_left (fun found kv => if jsstring_eqb (fst kv) k then Some (snd kv) else found)
            fields None.

(** Truthiness of a JSON value. *)
Definition json_truthy (j : json) : bool :=
  match j with
  | JNull => false
  | JBool b => b
  | JNum n => negb (n =? 0)%Z
  | JStr s => match s with [] => false | _ => true end
  | JArr _ => true
  | JObj _ => true
  end.

(** What [getScenarioResults] hands back: an array, or whatever truthy value
    sat under [results]. *)
Inductive history :=
| Entries (l : list json)
| NotArray (j : json).

(** [parsed.results || []]; reading a property of [null] throws, which the
    [catch] turns into []. *)
Definition results_of (parsed : json) : history :=
  match parsed with
  | JNull => Entries []
  | JObj fields =>
      match field (js "results") fields with
      | Some (JArr l) => Entries l
      | Some j => if json_truthy j then NotArray j else Entries []
      | None => Entries []
      end
  | _ => Entries []
  end.

(** The parsed value has a [results] property of its own. *)
Definition has_results (parsed : json) : bool :=
  match parsed with
  | JObj fields => match field (js "results") fields with
                   | Some _ => true
                   | None => false
                   end
  | _ => false
  end.

(** [getScenarioResults(scenarioId)] *)
Definition getScenarioResults (ls : storage) (scenario : jsstring) : history :=
  match ls !! results_key scenario with
  | None => Entries []                     (* getItem gave null *)
  | Some (Text _) => Entries []            (* '' is falsy; otherwise catch *)
  | Some (Json parsed) => results_of parsed
  end.

Definition versioned_result (resultNumber : nat) (timestamp : jsstring) (d : json)
  : json :=
  JObj [(js "resultNumber", JNum (Z.of_nat resultNumber));
        (js "timestamp", JStr timestamp);
        (js "data", d)].

Definition result_history (scenario : jsstring) (results : list json) : json :=
  JObj [(js "scenarioId", JStr scenario); (js "results", JArr results)].

(** The surrogates of UTF-16. *)
Definition is_high_surrogate (c : N) : bool := (55296 <=? c)%N && (c <=? 56319)%N.
Definition is_low_surrogate (c : N) : bool := (56320 <=? c)%N && (c <=? 57343)%N.

(** The iterator of a string: one string per code point, the two code units
    of a surrogate pair together. *)
Fixpoint code_points (s : jsstring) : list jsstring :=
  match s with
  | [] => []
  | c :: s' =>
      match s' with
      | d :: s'' => if is_high_surrogate c && is_low_surrogate d
                    then [c; d] :: code_points s''
                    else [c] :: code_points s'
      | [] => [[c]]
      end
  end.

(** [[...existing]]: an array spreads to its elements, a string to its code
    points; anything else is not iterable (TypeError). *)
Definition spread (h : history) : option (list json) :=
  match h with
  | Entries l => Some l
  | NotArray (JStr s) => Some (map JStr (code_points s))
  | NotArray _ => None
  end.

(** [existing.length] where it is read and used: the number of elements of
    an array, of code units of a string.  (For the other values the spread
    throws and the number is not used.) *)
Definition history_length (h : history) : nat :=
  match h with
  | Entries l => length l
  | NotArray (JStr s) => length s
  | NotArray _ => 0
  end.

(** [addScenarioResult(scenarioId, resultData)], with [now] the reading of
    [new Date().toISOString()].  [None] is the TypeError of spreading a value
    that is not iterable. *)
Definition addScenarioResult (ls : storage) (scenario : jsstring)
    (resultData : json) (now : jsstring) : option (nat * storage) :=
  let existing := getScenarioResults ls scenario in
  let resultNumber := (history_length existing + 1)%nat in
  match spread existing with
  | Some l =>
      let newResult := versioned_result resultNumber now resultData in
      let updated := result_history scenario (l ++ [newResult]) in
      Some (resultNumber, <[results_key scenario := Json updated]> ls)
  | None => None
  end.

Inductive latest :=
| Null
| Undefined
| Found (j : json).

(** [String(n)] for an integer, of less than 10^21 in size. *)
Definition int_to_string (n : Z) : jsstring :=
  (if (n <? 0)%Z then js "-" else []) ++ to_decimal (Z.abs_N n).

(** [results[key]] on a parsed object: its own property, or undefined. *)
Definition own_property (key : jsstring) (fields : list (jsstring * json)) : latest :=
  match field key fields with
  | Some v => Found v
  | None => Undefined
  end.

(** [getLatestResult(scenarioId)].  For a string the index picks a code
    unit.  For an object that sits under [results], [length] is a property
    like any other, and [results[results.length - 1]] is the own property
    whose key is that number written out: [length - 1] for a number, -1
    for null and false, 0 for true, NaN when there is no [length] or it is an
    object.  (A [length] that is text or an array goes through
    StringToNumber, which is not modelled: undefined stands for it.)  A
    number or a boolean under [results] has no properties. *)
Definition getLatestResult (ls : storage) (scenario : jsstring) : latest :=
  match getScenarioResults ls scenario with
  | Entries l => match last l with
                 | None => Null                  (* results.length === 0 *)
                 | Some x => Found x             (* results[results.length - 1] *)
                 end
  | NotArray (JStr s) => match last s with
                         | None => Null
                         | Some c => Found (JStr [c])
                         end
  | NotArray (JObj fields) =>
      match field (js "length") fields with
      | Some (JNum 0) => Null
      | Some (JNum n) => own_property (int_to_string (n - 1)) fields
      | Some JNull | Some (JBool false) => own_property (js "-1") fields
      | Some (JBool true) => own_property (js "0") fields
      | Some (JObj _) | None => own_property (js "NaN") fields
      | Some (JStr _) | Some (JArr _) => Undefined
      end
  | NotArray _ => Undefined
  end.

(** [clearScenarioResults(scenarioId)] *)
Definition clearScenarioResults (ls : storage) (scenario : jsstring) : storage :=
  delete (results_key scenario) ls.

(** A call of the module by a page. *)
Inductive call :=
| AddResult (scenario : jsstring) (resultData : json) (now : jsstring)
| ClearResults (scenario : jsstring).

Definition do_call (ls : storage) (c : call) : storage :=
  match c with
  | AddResult s d now => match addScenarioResult ls s d now with
                         | Some (_, ls') => ls'
                         | None => ls
                         end
  | ClearResults s => clearScenarioResults ls s
  end.

Definition do_calls (ls : storage) (cs : list call) : storage :=
  fold_left do_call cs ls.

(* ================================================================== *)
(** ** src/lib/data/scenarios.ts: listing the scenarios *)
(* ================================================================== *)

(** [listScenarios(projectId, moduleType, limit = 20, offset = 0)] *)
Definition listScenarios (projectId : jsstring) (moduleType : ModuleType)
    (limit offset : option nat) : Prog Data :=
  try_catch
    (let! r := await (Select (Q.from scenarios |> Q.select_all
                                |> Q.eq "project_id" (VStr projectId)
                                |> Q.eq "module_type" (VStr (module_name moduleType))
                                |> Q.order "updated_at" false
                                |> page (default 0%nat offset) (default 20%nat limit))) in
     match error r with
     | Some e => Throw (ExPg e)
     | None => Ret (data r)
     end)
    (fun _ => Ret (DRows [])).

(* ================================================================== *)
(** ** The React contexts: reads of results, renaming a project *)
(* ================================================================== *)

(** The reads of [ScenarioProvider].  They test [!error && data] and have no
    [try]; a property that is missing reads as null here. *)

Definition latest_output (scenario : jsstring) : Query :=
  Q.from scenario_outputs |> Q.select ["output_data"; "result_number"]
    |> Q.eq "scenario_id" (VStr scenario)
    |> Q.order "result_number" false |> Q.limit 1 |> Q.single.

(** [loadScenarioOutput(scenarioId)] *)
Definition loadScenarioOutput (scenario : jsstring) : Prog Value :=
  let! r := await (Select (latest_output scenario)) in
  match error r, data r with
  | None, DRow d => Ret (get "output_data" d)
  | _, _ => Ret VNull
  end.

(** [loadAllScenarioOutputs(scenarioId)] *)
Definition loadAllScenarioOutputs (scenario : jsstring) : Prog Data :=
  let! r := await (Select (Q.from scenario_outputs |> Q.select_all
                             |> Q.eq "scenario_id" (VStr scenario)
                             |> Q.order "result_number" true)) in
  if no_error r && truthy (data r) then Ret (data r) else Ret (DRows []).

Definition output_by_version (scenario : jsstring) (resultNumber : Z) : Query :=
  Q.from scenario_outputs |> Q.select ["output_data"]
    |> Q.eq "scenario_id" (VStr scenario)
    |> Q.eq "result_number" (VNum resultNumber) |> Q.single.

(** [loadScenarioOutputByVersion(scenarioId, resultNumber)] *)
Definition loadScenarioOutputByVersion (scenario : jsstring) (resultNumber : Z)
  : Prog Value :=
  let! r := await (Select (output_by_version scenario resultNumber)) in
  match error r, data r with
  | None, DRow d => Ret (get "output_data" d)
  | _, _ => Ret VNull
  end.

(** [renameProject] of the context. *)
Definition ctx_renameProject (user : option User) (st : ProjectState)
    (id newName : jsstring) : Prog (RenameOutcome * ProjectState) :=
  match user with
  | None => Ret (mkRename false (Some (js "Not authenticated")), st)
  | Some u =>
      let! result := renameProject id newName (user_id u) in
      if success result then
        let! st' := fetchProjects user st in
        Ret (result, st')
      else Ret (result, st)
  end.

(* ================================================================== *)
(** ** src/components/ResultsNavigator.tsx: renaming a result *)
(* ================================================================== *)

(** [String.prototype.trim]: the white space and line terminators at both
    ends are removed (the code units of [\s]). *)
Definition trim (s : jsstring) : jsstring :=
  rev (drop_while is_space (rev (drop_while is_space s))).

(** [Array.prototype.join] *)
Fixpoint join (sep : jsstring) (l : list jsstring) : jsstring :=
  match l with
  | [] => []
  | x :: l' => match l' with
               | [] => x
               | _ :: _ => x ++ sep ++ join sep l'
               end
  end.

(** What the handler shows. *)
Inductive Toast :=
| toast_error (message : jsstring) (description : option jsstring)
| toast_success (message : jsstring).

(** The editing state of the component. *)
Record EditState := mkEdit { editingId : option jsstring; editName : jsstring }.

Definition quote : jsstring := [34%N].

(** [handleRename(resultId)]: the state it leaves, the toasts it shows, and
    whether [onResultRenamed] was asked for. *)
Definition handleRename (st : EditState) (scenarioId resultId : jsstring)
  : Prog (EditState * list Toast * bool) :=
  match trim (editName st) with
  | [] => Ret (st, [toast_error (js "Result name cannot be empty") None], false)
  | name =>
      let! result := renameResult resultId name scenarioId in
      if success result then
        Ret (mkEdit None (editName st),
             [toast_success (js "Renamed to " ++ quote ++ editName st ++ quote)], true)
      else
        let suggestions := generateNameSuggestions name (Some 3%nat) in
        Ret (st,
             [toast_error (match error_message result with
                           | Some (c :: e) => c :: e
                           | _ => js "Failed to rename"
                           end)
                          (Some (js "Try: " ++ join (js ", ") suggestions))],
             false)
  end.

(* ================================================================== *)
(** ** Vocabulary of the statements *)
(* ================================================================== *)

(** The language of [^base\s+(\d+)$] under the [i] flag: a copy of [base] up
    to case, then white space, then the digits [ds], each of the two
    non-empty. *)
Definition in_pattern (base name ds : jsstring) : Prop :=
  exists b ws,
    name = b ++ ws ++ ds
    /\ Forall2 (fun p c => canonicalize p = canonicalize c) base b
    /\ ws <> [] /\ Forall (fun c => is_space c = true) ws
    /\ ds <> [] /\ Forall (fun c => is_digit c = true) ds.

(** One step of the [forEach] of [nextAutoName]. *)
Definition add_name (base : jsstring) (used : list number) (n : jsstring)
  : list number :=
  match match_re base n with
  | Some m1 => Set_add (parseInt m1) used
  | None => used
  end.

(** [k] is taken: some existing name is in the pattern with digits that
    write the integer [k]. *)
Definition taken (base : jsstring) (names : list jsstring) (k : N) : Prop :=
  exists n ds, In n names /\ in_pattern base n ds /\ decimal_value ds = k.

(** The results of a scenario, most recent first. *)
Definition results_desc (db : DB) (scenario : jsstring) : list Row :=
  order_by "created_at" false
    (where_ [Eq "scenario_id" (VStr scenario)] (tbl_outputs db)).

(** What follows a finished run. *)
Definition then_run {St A B} (r : Outcome A * St * list (Cmd * Response))
    (k : A -> St -> Outcome B * St * list (Cmd * Response))
  : Outcome B * St * list (Cmd * Response) :=
  match r with
  | (Returned a, s1, l1) => let '(o, s2, l2) := k a s1 in (o, s2, l1 ++ l2)
  | (Thrown e, s1, l1) => (Thrown e, s1, l1)
  | (Diverged, s1, l1) => (Diverged, s1, l1)
  end.

(** What a handler makes of a finished run. *)
Definition caught_run {St A} (r : Outcome A * St * list (Cmd * Response))
    (k : Exn -> St -> Outcome A * St * list (Cmd * Response))
  : Outcome A * St * list (Cmd * Response) :=
  match r with
  | (Thrown e, s1, l1) => let '(o, s2, l2) := k e s1 in (o, s2, l1 ++ l2)
  | other => other
  end.

Definition name_of (r : Row) : option jsstring :=
  match get "name" r with
  | VStr s => Some s
  | _ => None
  end.

Definition names_in (rs : list Row) : list jsstring := omap name_of rs.

Definition has_name (r : Row) : bool :=
  match get "name" r with
  | VStr _ => true
  | _ => false
  end.

Definition scenario_results (db : DB) (scenario : jsstring) : list Row :=
  where_ [Eq "scenario_id" (VStr scenario)] (tbl_outputs db).

(** The creation times of the results of the scenario are pairwise
    distinct: [created_at] is the time of the insert, and the sources insert
    one result at a time. *)
Definition distinct_times (db : DB) (scenario : jsstring) : Prop :=
  NoDup (map (order_key "created_at") (scenario_results db scenario)).

(** [listed] lists the results of the scenario, each once, most recent
    first: what a correct answer to the unpaged query of [listResults] is,
    whatever the database does with equal times. *)
Definition most_recent_first (db : DB) (scenario : jsstring) (listed : list Row) : Prop :=
  listed ≡ₚ scenario_results db scenario
  /\ StronglySorted
       (fun a b => (order_key "created_at" b <= order_key "created_at" a)%Z) listed.

Definition result_number_of (r : Row) : Z := order_key "result_number" r.

Definition result_numbers (db : DB) (scenario : jsstring) : list Z :=
  map result_number_of (scenario_results db scenario).

(** [m] is the largest member of [l]. *)
Definition is_max (m : Z) (l : list Z) : Prop :=
  In m l /\ forall x, In x l -> (x <= m)%Z.

(** Maximum plus one, or 1 when there is none. *)
Definition max_plus_one (l : list Z) (n : Z) : Prop :=
  (l = [] /\ n = 1%Z) \/ (exists m, is_max m l /\ n = (m + 1)%Z).

(** Rows whose [result_number] is a number and whose [name] is text, as
    the NOT NULL columns of the schema give them.  The range of the INTEGER
    column is a hypothesis of its own, [numbers_leave_room]. *)
Definition is_result_row (r : Row) : bool :=
  match get "result_number" r with
  | VNum _ => has_name r
  | _ => false
  end.

(** Every number of the scenario is an INTEGER below the largest one, so
    that the next number fits the column. *)
Definition numbers_leave_room (db : DB) (scenario : jsstring) : Prop :=
  forall k, In k (result_numbers db scenario) -> (-2147483648 <= k < 2147483647)%Z.

(** The project is stored and belongs to the user. *)
Definition owns_project (db : DB) (userId projectId : jsstring) : Prop :=
  exists p, In p (tbl_projects db)
            /\ get "id" p = VStr projectId /\ get "user_id" p = VStr userId.

(** What the foreign key of [scenario_outputs.project_id] and the row-level
    policies of [scenario_outputs] ask of [createResult(params)] called by
    the signed-in user [userId]: the project of the new result is stored and
    is the user's (the insert is let through), and so is the project of
    every result of the scenario (the reads see them all). *)
Definition may_create (db : DB) (userId : jsstring) (params : ResultParams) : Prop :=
  owns_project db userId (projectId params)
  /\ forall r, In r (scenario_results db (scenarioId params)) ->
               exists pid, get "project_id" r = VStr pid /\ owns_project db userId pid.

(** The database a program leaves. *)
Definition exec {A} (p : Prog A) (db : DB) : DB := snd (fst (run db_exec p db)).

Definition empty_db : DB := mkDB [] [] [] 0 0.

(** A client deletes a row: [.from(t).delete().eq('id', id)]. *)
Definition delete_row (t : Table) (id : jsstring) (db : DB) : DB :=
  snd (db_exec (Delete t [Eq "id" (VStr id)]) db).

Definition run1 : ResultParams :=
  mkParams (js "p1") (js "s1") (js "forecasting") (JObj []) (JObj []).

(** The store of the worked inputs: the user 'u1' has the project 'p1' with
    the forecasting scenario 's1'; no result is stored. *)
Definition one_project : DB :=
  mkDB [("id", VStr (js "p1")) :: new_project (js "u1") (js "DF 1") forecasting
          ++ [("created_at", VNum 0); ("updated_at", VNum 0)]]
       [("id", VStr (js "s1"))
          :: new_scenario (js "p1") (js "u1") m_forecasting (js "Scenario 1")
          ++ [("created_at", VNum 0); ("updated_at", VNum 0)]]
       [] 0 0.

(** Three results created one after the other for the scenario 's1'. *)
Definition three_results : DB :=
  exec (createResult run1)
       (exec (createResult run1) (exec (createResult run1) one_project)).

(** The scenario 's1' with one result, which carries the largest INTEGER. *)
Definition last_number : DB :=
  mkDB (tbl_projects one_project) (tbl_scenarios one_project)
       [with_defaults one_project scenario_outputs
          (new_result run1 (js "Result 1") (VNum 2147483647))] 1 1.

(** Id, name and number of every stored result. *)
Definition results_view (db : DB) : list (Value * Value * Value) :=
  map (fun r => (get "id" r, get "name" r, get "result_number" r)) (tbl_outputs db).

(** A second client whose insert of 'Result 1' (number 1) lands just before
    the third request of the program, its own insert. *)
Definition rival_result (k : nat) (db : DB) : DB :=
  match k with
  | 2%nat => snd (db_exec (Insert scenario_outputs
                             (new_result run1 (js "Result 1") (VNum 1))
                             result_handle) db)
  | _ => db
  end.

(** A second client creating 'Scenario 1' in the same project and module. *)
Definition rival_scenario (k : nat) (db : DB) : DB :=
  match k with
  | 2%nat => snd (db_exec (Insert scenarios
                             (new_scenario (js "p1") (js "u1") m_gfa (js "Scenario 1"))
                             None) db)
  | _ => db
  end.

(** A second client creating the project the program is about to create. *)
Definition rival_project (name : jsstring) (k : nat) (db : DB) : DB :=
  match k with
  | 2%nat => snd (db_exec (Insert projects (new_project (js "u1") name gfa) None) db)
  | _ => db
  end.

(** What was inserted, in order: name, number, and the error of the
    response. *)
Definition insert_attempts (log : list (Cmd * Response))
  : list (Value * Value * option PgError) :=
  omap (fun ev => match fst ev with
                  | Insert _ row _ =>
                      Some (get "name" row, get "result_number" row, error (snd ev))
                  | _ => None
                  end) log.

Definition returned_name (o : Outcome Data) : Value :=
  match o with
  | Returned (DRow r) => get "name" r
  | _ => VNull
  end.

(** The shape the three rename functions share. *)
Definition rename_with (pre : Query) (upd : Cmd) (msg failure : jsstring)
  : Prog RenameOutcome :=
  try_catch
    (let! r := await (Select pre) in
     if truthy (data r) then Ret (mkRename false (Some msg))
     else
       let! u := await upd in
       match error u with
       | Some e =>
           if is_unique_violation e then Ret (mkRename false (Some msg))
           else Throw (ExPg e)
       | None => Ret (mkRename true None)
       end)
    (fun _ => Ret (mkRename false (Some failure))).

(** What a rename returns, by the answers of the store. *)
Definition rename_answer (msg failure : jsstring) (r2 : Response) : RenameOutcome :=
  match error r2 with
  | Some e => if is_unique_violation e then mkRename false (Some msg)
              else mkRename false (Some failure)
  | None => mkRename true None
  end.

(** A scope: the columns that, with [name], make up the unique key, and the
    values the caller passes for them. *)
Definition scope_filters (sc : list (string * jsstring)) : list Filter :=
  map (fun kv => Eq (fst kv) (VStr (snd kv))) sc.

Definition name_check (sc : list (string * jsstring)) (id newName : jsstring)
  : list Filter :=
  scope_filters sc ++ [Eq "name" (VStr newName); Neq "id" (VStr id)].

Definition name_key (sc : list (string * jsstring)) : list string :=
  map fst sc ++ ["name"].

(** The row lies in the scope. *)
Definition in_scope (sc : list (string * jsstring)) (r : Row) : Prop :=
  Forall (fun kv => get (fst kv) r = VStr (snd kv)) sc.

(** Another entity of the scope, with another id, holds the name: the rename
    fails with the message and the store is as before. *)
Definition refuses_taken_name (db : DB) (t : Table) (sc : list (string * jsstring))
    (rename : Prog RenameOutcome) (id newName msg : jsstring) : Prop :=
  forall other oid,
    In other (table db t) -> in_scope sc other ->
    get "name" other = VStr newName -> get "id" other = VStr oid -> oid <> id ->
    fst (run db_exec rename db) = (Returned (mkRename false (Some msg)), db).

(** The entity itself holds the name: the rename succeeds and the store is
    as before. *)
Definition accepts_own_name (db : DB) (t : Table) (sc : list (string * jsstring))
    (rename : Prog RenameOutcome) (id newName : jsstring) : Prop :=
  forall me,
    In me (table db t) -> in_scope sc me ->
    get "name" me = VStr newName -> get "id" me = VStr id ->
    fst (run db_exec rename db) = (Returned (mkRename true None), db).

(** On every store the rename returns (it never throws); when the check
    found nothing and the update is answered with SQLSTATE 23505, it returns
    the failure with the same message. *)
Definition converts_violation (rename : Prog RenameOutcome) (check : Query)
    (update : Cmd) (msg : jsstring) : Prop :=
  forall (St : Type) (h : Cmd -> St -> Response * St) (s : St),
    (exists o, fst (fst (run h rename s)) = Returned o)
    /\ (truthy (data (fst (h (Select check) s))) = false ->
        error (fst (h update (snd (h (Select check) s)))) = Some unique_violation ->
        fst (fst (run h rename s)) = Returned (mkRename false (Some msg))).

Definition project_scope (userId : jsstring) (toolType : ToolType) : list Filter :=
  [Eq "user_id" (VStr userId); Eq "tool_type" (VStr (tool_name toolType))].

(** The database after a successful insert of [row]. *)
Definition inserted (db : DB) (t : Table) (row : Row) : DB :=
  let db' := with_table db t (table db t ++ [row]) in
  mkDB (tbl_projects db') (tbl_scenarios db') (tbl_outputs db')
       (next_id db + 1) (clock db + 1).

(** Two calls in sequence on the database: the first returns; the second
    returns the same value and leaves the store as the first left it; a
    project returned by the first is stored, and the second call then sends
    no insert. *)
Definition idempotent_on (db : DB) (ensure : Prog Data) : Prop :=
  let '(first, db1, _) := run db_exec ensure db in
  let '(second, db2, log2) := run db_exec ensure db1 in
  (exists d, first = Returned d)
  /\ second = first /\ db2 = db1
  /\ forall p, first = Returned (DRow p) ->
               In p (tbl_projects db1) /\ inserts log2 = 0%nat.

(** Two projects of one user, created by [ensureProject] for two tools:
    'GFA 1' (id-0) and 'Network 1' (id-1). *)
Definition two_projects : DB :=
  exec (ensureProject (js "u1") network) (exec (ensureProject (js "u1") gfa) empty_db).

(** The next id the database hands out is not in use. *)
Definition fresh_id (db : DB) (t : Table) : bool :=
  forallb (fun r => negb (sql_eqb (get "id" r) (VStr (uuid (next_id db))))) (table db t).

(** *** Vocabulary of the further properties *)

(** The [k]-th suggestion, counted from 0. *)
Definition suggestion (baseName : jsstring) (k : nat) : jsstring :=
  baseName ++ js " (" ++ to_decimal (N.of_nat k + 2) ++ js ")".

(** Equality of strings up to the case of ASCII letters. *)
Definition same_up_to_case (a b : jsstring) : Prop :=
  Forall2 (fun p c => canonicalize p = canonicalize c) a b.

(** [a] may stand before [b] when rows are listed with the larger value of
    the column first. *)
Definition larger_first (c : string) (a b : Row) : Prop :=
  (order_key c b <= order_key c a)%Z.

Definition smaller_first (c : string) (a b : Row) : Prop :=
  (order_key c a <= order_key c b)%Z.

(** [rows] is the page [offset, offset + limit) of [all] listed with the
    larger value of the column first (rows with equal values in some
    order). *)
Definition page_of (c : string) (all rows : list Row) (limit offset : nat) : Prop :=
  exists listed,
    listed ≡ₚ all /\ StronglySorted (larger_first c) listed
    /\ rows = firstn limit (skipn offset listed).

Definition user_projects (db : DB) (userId : jsstring) : list Row :=
  where_ [Eq "user_id" (VStr userId)] (tbl_projects db).

Definition module_scenarios (db : DB) (projectId : jsstring) (moduleType : ModuleType)
  : list Row :=
  where_ [Eq "project_id" (VStr projectId);
          Eq "module_type" (VStr (module_name moduleType))] (tbl_scenarios db).

(** The function sends one read and returns what it yields, or [fallback]
    when the store answers with an error; it does not throw. *)
Definition answers_errors_with (p : Prog Data) (fallback : Data) : Prop :=
  exists q,
    forall (St : Type) (h : Cmd -> St -> Response * St) (s : St),
      run h p s
      = (Returned (match error (fst (h (Select q) s)) with
                   | Some _ => fallback
                   | None => data (fst (h (Select q) s))
                   end),
         snd (h (Select q) s), [(Select q, fst (h (Select q) s))]).

(** The scalar columns of a stored result.  (The JSONB columns [metrics]
    and [output_data] are kept by Postgres in a form of its own, with the
    keys of an object reordered: no statement says what they read back
    as.) *)
Definition result_scalars : list string :=
  ["id"; "project_id"; "scenario_id"; "module_type"; "name"; "result_number";
   "version"; "created_at"].

(** [i] is the smallest positive integer that no name of [names] takes. *)
Definition smallest_free (base : BaseLabel) (names : list jsstring) (i : N) : Prop :=
  (0 < i)%N /\ ~ taken (label base) names i
  /\ forall j, (0 < j < i)%N -> taken (label base) names j.

Definition tool_projects (db : DB) (userId : jsstring) (toolType : ToolType) : list Row :=
  where_ (project_scope userId toolType) (tbl_projects db).

(** No project of the user has the name. *)
Definition name_free (db : DB) (userId name : jsstring) : Prop :=
  forall r, In r (tbl_projects db) -> get "user_id" r = VStr userId ->
            get "name" r <> VStr name.

(** Two calls in sequence on the database return the same project.  It is
    stored; the first call has added no row but this one, if any; the second
    call leaves the store as the first left it and sends no insert. *)
Definition same_entity_twice (db : DB) (ensure : Prog Data) : Prop :=
  let '(first, db1, _) := run db_exec ensure db in
  let '(second, db2, log2) := run db_exec ensure db1 in
  exists p,
    first = Returned (DRow p) /\ second = Returned (DRow p)
    /\ In p (tbl_projects db1)
    /\ (tbl_projects db1 = tbl_projects db \/ tbl_projects db1 = tbl_projects db ++ [p])
    /\ db2 = db1 /\ inserts log2 = 0%nat.

(** A store the program reaches: the first network project of 'u1', made by
    [ensureProject], is renamed 'GFA 1' with [renameProject]. *)
Definition renamed_network : DB :=
  exec (renameProject (js "id-0") (js "GFA 1") (js "u1"))
       (exec (ensureProject (js "u1") network) empty_db).

(** [r] was updated no earlier than any row of [rs]. *)
Definition most_recent (r : Row) (rs : list Row) : Prop :=
  In r rs /\ forall x, In x rs -> (order_key "updated_at" x <= order_key "updated_at" r)%Z.


(** The columns of a stored scenario. *)
Definition scenario_columns : list string :=
  ["id"; "project_id"; "user_id"; "module_type"; "name"; "description"; "status";
   "created_at"; "updated_at"].

(** The columns of a stored project. *)
Definition project_columns : list string :=
  ["id"; "user_id"; "name"; "tool_type"; "description"; "input_data"; "results_data";
   "size_mb"; "created_at"; "updated_at"].

(** A store in which the user has one project, of the network tool, that
    was given the name 'GFA 1'. *)
Definition foreign_name : DB :=
  snd (db_exec (Insert projects (new_project (js "u1") (js "GFA 1") network) None) empty_db).

(** The table after the row with the id has been given the name. *)
Definition renamed (id newName : jsstring) (rs : list Row) : list Row :=
  map (fun r => if sql_eqb (get "id" r) (VStr id) then set "name" (VStr newName) r else r) rs.

(** The entity is stored in the scope and no other row of the scope holds
    the name: the rename succeeds and the store holds the renamed table. *)
Definition takes_free_name (db : DB) (t : Table) (sc : list (string * jsstring))
    (rename : Prog RenameOutcome) (id newName : jsstring) : Prop :=
  forall me,
    In me (table db t) -> in_scope sc me -> get "id" me = VStr id ->
    (forall x, In x (table db t) -> in_scope sc x -> get "name" x = VStr newName -> x = me) ->
    fst (run db_exec rename db)
    = (Returned (mkRename true None), with_table db t (renamed id newName (table db t))).

(** No stored row has the id: the store is left as it was, and the call
    still reports success unless the check finds the name in the scope. *)
Definition missing_id_outcome (db : DB) (t : Table) (sc : list (string * jsstring))
    (rename : Prog RenameOutcome) (newName msg : jsstring) : Prop :=
  exists o,
    fst (run db_exec rename db) = (Returned o, db)
    /\ (o = mkRename true None \/ o = mkRename false (Some msg))
    /\ ((forall x, In x (table db t) -> in_scope sc x -> get "name" x <> VStr newName) ->
        o = mkRename true None).

(** [a.id === b.id] *)
Definition same_id (a b : Row) : bool := strict_eqb (get "id" a) (get "id" b).

(** No two rows of the list have the same id. *)
Definition ids_distinct (l : list Row) : Prop :=
  ForallOrdPairs (fun a b => same_id a b = false) l.

(** The scenario a call is about. *)
Definition scenario_of (c : call) : jsstring :=
  match c with
  | AddResult s _ _ => s
  | ClearResults s => s
  end.

(** [entry.resultNumber] *)
Definition entry_number (entry : json) : option json :=
  match entry with
  | JObj fields => field (js "resultNumber") fields
  | _ => None
  end.

(** Every entry carries its position in the history, counted from 1. *)
Definition numbered (l : list json) : Prop :=
  forall k entry, l !! k = Some entry ->
                  entry_number entry = Some (JNum (Z.of_nat (k + 1))).

(** The string neither starts nor ends with white space. *)
Definition unpadded (s : jsstring) : Prop :=
  (forall c, head s = Some c -> is_space c = false)
  /\ (forall c, last s = Some c -> is_space c = false).

(** Every write of the log sets the name to [name] and nothing else. *)
Definition writes_only_name (name : jsstring) (log : list (Cmd * Response)) : Prop :=
  Forall (fun ev => match fst ev with
                    | Select _ => True
                    | Update _ fields _ => fields = [("name", VStr name)]
                    | _ => False
                    end) log.

(** Every stored id was handed out by the database. *)
Definition ids_below (db : DB) (t : Table) : Prop :=
  forall r, In r (table db t) ->
            exists k, (k < next_id db)%N /\ get "id" r = VStr (uuid k).

(** [n] calls of a program, one after the other. *)
Fixpoint repeated {A} (n : nat) (p : Prog A) (db : DB) : DB :=
  match n with
  | O => db
  | S n' => exec p (repeated n' p db)
  end.

(** Name and number of the [k]-th result created for a scenario. *)
Definition kth_result (k : nat) : Value * Value :=
  (VStr (label Result ++ js " " ++ to_decimal (N.of_nat k)), VNum (Z.of_nat k)).

Definition name_and_number (r : Row) : Value * Value :=
  (get "name" r, get "result_number" r).

(* ================================================================== *)
(** * Properties *)
(* ================================================================== *)

(** ** Character classes and the pattern *)

Ltac bool_arith :=
  repeat match goal with
         | H : _ && _ = true |- _ => apply andb_true_iff in H; destruct H
         | H : _ || _ = true |- _ => apply orb_true_iff in H; destruct H
         | H : (_ <=? _)%N = true |- _ => apply N.leb_le in H
         | H : (_ =? _)%N = true |- _ => apply N.eqb_eq in H
         | H : (_ <? _)%N = true |- _ => apply N.ltb_lt in H
         | H : (_ <=? _)%N = false |- _ => apply N.leb_gt in H
         | H : (_ <? _)%N = false |- _ => apply N.ltb_ge in H
         | H : (_ =? _)%N = false |- _ => apply N.eqb_neq in H
         end.

Lemma digit_not_space c : is_digit c = true -> is_space c = false.
Proof.
  unfold is_digit, is_space. intros H. bool_arith.
  repeat (apply orb_false_iff; split);
    first [ apply N.eqb_neq; lia
          | apply andb_false_iff; first [ left; apply N.leb_gt; lia
                                        | right; apply N.leb_gt; lia ] ].
Qed.

Lemma match_prefix_ci_spec pat s rest :
  match_prefix_ci pat s = Some rest <->
  exists b, s = b ++ rest
            /\ Forall2 (fun p c => canonicalize p = canonicalize c) pat b.
Proof.
  revert s. induction pat as [|p pat IH]; intros s; simpl.
  - split.
    + intros [= ->]. exists []. split; [reflexivity | constructor].
    + intros (b & -> & Hb). inversion Hb. reflexivity.
  - destruct s as [|c s].
    + split; [discriminate|].
      intros (b & Hs & Hb). inversion Hb; subst. discriminate.
    + unfold ci_eqb. destruct (N.eqb_spec (canonicalize p) (canonicalize c)) as [E|E].
      * rewrite IH. split.
        -- intros (b & -> & Hb). exists (c :: b). split; [reflexivity|].
           constructor; assumption.
        -- intros (b & Hs & Hb). inversion Hb as [|? c' ? b' Hc Hb']; subst.
           injection Hs as -> ->. exists b'. split; [reflexivity | assumption].
      * split; [discriminate|].
        intros (b & Hs & Hb). inversion Hb as [|? c' ? b' Hc Hb']; subst.
        injection Hs as -> ->. contradiction.
Qed.

Lemma take_drop_while f s : take_while f s ++ drop_while f s = s.
Proof.
  induction s as [|c s IH]; simpl; [reflexivity|].
  destruct (f c); simpl; [f_equal; exact IH | reflexivity].
Qed.

Lemma take_while_all f s : Forall (fun c => f c = true) (take_while f s).
Proof.
  induction s as [|c s IH]; simpl; [constructor|].
  destruct (f c) eqn:E; constructor; assumption.
Qed.

Lemma span_stops f ws d ds :
  Forall (fun c => f c = true) ws -> f d = false ->
  take_while f (ws ++ d :: ds) = ws /\ drop_while f (ws ++ d :: ds) = d :: ds.
Proof.
  intros Hws Hd. induction Hws as [|c ws Hc _ IH]; simpl.
  - rewrite Hd. split; reflexivity.
  - rewrite Hc. destruct IH as [-> ->]. split; reflexivity.
Qed.

Lemma drop_while_head f s d ds : drop_while f s = d :: ds -> f d = false.
Proof.
  induction s as [|c s IH]; simpl; [discriminate|].
  destruct (f c) eqn:E; [exact IH|]. intros [= -> _]. exact E.
Qed.

Lemma forallb_Forall_true {A} (f : A -> bool) l :
  forallb f l = true <-> Forall (fun x => f x = true) l.
Proof.
  induction l as [|x l IH]; simpl.
  - split; [constructor | reflexivity].
  - rewrite andb_true_iff, IH. split.
    + intros [? ?]. constructor; assumption.
    + intros H. inversion H; subst. split; assumption.
Qed.

(** The matcher accepts exactly the language of the pattern and returns its
    digits. *)
Lemma match_re_spec base name ds :
  match_re base name = Some ds <-> in_pattern base name ds.
Proof.
  unfold match_re, in_pattern. split.
  - destruct (match_prefix_ci base name) as [rest|] eqn:Hp; [|discriminate].
    apply match_prefix_ci_spec in Hp. destruct Hp as (b & -> & Hb).
    pose proof (take_drop_while is_space rest) as Hsplit.
    pose proof (take_while_all is_space rest) as Hws.
    destruct (take_while is_space rest) as [|w ws]; [discriminate|].
    destruct (drop_while is_space rest) as [|d ds'] eqn:Hd; [discriminate|].
    destruct (forallb is_digit (d :: ds')) eqn:Hdig; [|discriminate].
    intros [= <-]. exists b, (w :: ws). rewrite Hsplit.
    repeat split; try assumption; try discriminate.
    apply forallb_Forall_true. exact Hdig.
  - intros (b & ws & -> & Hb & Hne & Hws & Hdne & Hds).
    assert (Hp : match_prefix_ci base (b ++ ws ++ ds) = Some (ws ++ ds)).
    { apply match_prefix_ci_spec. exists b. split; [reflexivity | assumption]. }
    rewrite Hp. destruct ds as [|d ds]; [contradiction|].
    assert (Hd : is_space d = false).
    { apply digit_not_space. inversion Hds; assumption. }
    destruct (span_stops is_space ws d ds Hws Hd) as [-> ->].
    destruct ws as [|w ws]; [contradiction|].
    apply forallb_Forall_true in Hds. rewrite Hds. reflexivity.
Qed.

(** ** Doubles *)

Lemma to_double_small n : (n < 2 ^ 53)%N -> to_double n = Fin n.
Proof.
  intros H. unfold to_double. apply N.ltb_lt in H. rewrite H. reflexivity.
Qed.

(** Rounding never takes an integer from 2^53 on below 2^53. *)
Lemma to_double_large n m :
  (2 ^ 53 <= n)%N -> to_double n = Fin m -> (2 ^ 53 <= m)%N.
Proof.
  intros Hn. unfold to_double.
  destruct (N.ltb_spec n (2 ^ 53)) as [Hlt|_]; [lia|].
  set (e := (N.log2 n - 52)%N).
  set (q := (n / 2 ^ e)%N).
  set (q' := if (n mod 2 ^ e <? 2 ^ (e - 1))%N then q
             else if (2 ^ (e - 1) <? n mod 2 ^ e)%N then (q + 1)%N
                  else if N.even q then q else (q + 1)%N).
  destruct (2 ^ 1024 <=? q' * 2 ^ e)%N; [discriminate|].
  intros [= <-].
  assert (Hpos : (0 < n)%N) by lia.
  assert (Hlog : (53 <= N.log2 n)%N).
  { apply N.log2_le_pow2; assumption. }
  assert (He : (N.log2 n = 52 + e)%N) by (unfold e; lia).
  assert (Hq : (2 ^ 52 <= q)%N).
  { unfold q. apply N.div_le_lower_bound.
    - apply N.pow_nonzero. lia.
    - rewrite <- N.pow_add_r, N.add_comm, <- He.
      apply (N.log2_spec n Hpos). }
  assert (Hq' : (q <= q')%N).
  { unfold q'. repeat match goal with |- context [if ?b then _ else _] => destruct b end; lia. }
  assert (He1 : (1 <= e)%N) by lia.
  assert (H2e : (2 ^ 1 <= 2 ^ e)%N) by (apply N.pow_le_mono_r; lia).
  change (2 ^ 53)%N with (2 ^ 52 * 2 ^ 1)%N.
  apply N.mul_le_mono; lia.
Qed.

Lemma incr_small i : (i + 1 < 2 ^ 53)%N -> incr (Fin i) = Fin (i + 1).
Proof. intros H. simpl. apply to_double_small. exact H. Qed.

Lemma number_eqb_eq a b : number_eqb a b = true <-> a = b.
Proof.
  destruct a, b; simpl; try (split; [discriminate | intros [=]]); try tauto.
  rewrite N.eqb_eq. split; [intros ->; reflexivity | intros [= ->]; reflexivity].
Qed.

Lemma Set_has_In s x : Set_has s x = true <-> In x s.
Proof.
  unfold Set_has. rewrite existsb_exists. split.
  - intros (y & Hy & E). apply number_eqb_eq in E. subst. exact Hy.
  - intros H. exists x. split; [exact H | apply number_eqb_eq; reflexivity].
Qed.

Lemma Set_add_In x y s : In y (Set_add x s) <-> y = x \/ In y s.
Proof.
  unfold Set_add. destruct (Set_has s x) eqn:E.
  - apply Set_has_In in E. split; [tauto|]. intros [->|H]; assumption.
  - rewrite in_app_iff. simpl. split; [intros [H|[H|[]]] | intros [H|H]]; auto.
Qed.

Lemma Set_add_length x s : (length (Set_add x s) <= S (length s))%nat.
Proof.
  unfold Set_add. destruct (Set_has s x); [lia|].
  rewrite length_app. simpl. lia.
Qed.

Lemma Set_add_NoDup x s : NoDup s -> NoDup (Set_add x s).
Proof.
  intros H. unfold Set_add. destruct (Set_has s x) eqn:E; [exact H|].
  apply NoDup_app. split; [exact H|]. split.
  - intros y Hy Hx. apply list_elem_of_In in Hy. apply list_elem_of_In in Hx.
    destruct Hx as [<-|[]]. apply Set_has_In in Hy. congruence.
  - apply NoDup_singleton.
Qed.

(** ** Decimal digits *)

Lemma label_literal base : regex_literal (label base) = true.
Proof. destruct base; reflexivity. Qed.

Lemma uint_units_digits d : Forall (fun c => is_digit c = true) (uint_units d).
Proof. induction d; simpl; constructor; try reflexivity; assumption. Qed.

Lemma decimal_acc d : forall acc,
  fold_left (fun a c => (10 * a + (c - 48))%N) (uint_units d) (N.pos acc)
  = N.pos (Pos.of_uint_acc d acc).
Proof.
  induction d; intros acc; cbn [uint_units fold_left Pos.of_uint_acc];
    [reflexivity | rewrite <- IHd; f_equal; lia ..].
Qed.

Lemma decimal_of_uint d : decimal_value (uint_units d) = N.of_uint d.
Proof.
  unfold decimal_value, N.of_uint.
  induction d; cbn [uint_units fold_left Pos.of_uint];
    [reflexivity | exact IHd | rewrite <- decimal_acc; f_equal ..].
Qed.

(** Printing an integer and reading the digits back gives the integer. *)
Lemma decimal_value_to_decimal n : decimal_value (to_decimal n) = n.
Proof. unfold to_decimal. rewrite decimal_of_uint. apply DecimalN.Unsigned.of_to. Qed.

Lemma to_decimal_nonempty n : to_decimal n <> [].
Proof.
  unfold to_decimal. intros E.
  assert (Hnil : N.to_uint n = Decimal.Nil).
  { destruct (N.to_uint n); simpl in E; try discriminate. reflexivity. }
  pose proof (DecimalN.Unsigned.of_to n) as H. rewrite Hnil in H. simpl in H.
  subst n. discriminate Hnil.
Qed.

(** ** The set of used numbers *)

Lemma usedNumbers_fold base names :
  usedNumbers base names = fold_left (add_name base) names [].
Proof. reflexivity. Qed.

Lemma fold_add_name_In base names acc x :
  In x (fold_left (add_name base) names acc) <->
  In x acc \/ exists n ds, In n names /\ match_re base n = Some ds /\ parseInt ds = x.
Proof.
  revert acc. induction names as [|n names IH]; intros acc; simpl.
  - split; [tauto|]. intros [H|(n & ds & [] & _)]. exact H.
  - rewrite IH. unfold add_name at 1.
    destruct (match_re base n) as [m1|] eqn:E.
    + rewrite Set_add_In. split.
      * intros [[->|H]|(n' & ds & Hn' & Hm & Hp)]; [right|left|right]; eauto 7.
      * intros [H|(n' & ds & [<-|Hn'] & Hm & Hp)]; eauto 7.
        left. left. rewrite E in Hm. injection Hm as ->. symmetry. exact Hp.
    + split.
      * intros [H|(n' & ds & Hn' & Hm & Hp)]; eauto 7.
      * intros [H|(n' & ds & [<-|Hn'] & Hm & Hp)]; eauto 7. congruence.
Qed.

Lemma usedNumbers_In base names x :
  In x (usedNumbers base names) <->
  exists n ds, In n names /\ match_re base n = Some ds /\ parseInt ds = x.
Proof.
  rewrite usedNumbers_fold, fold_add_name_In. simpl. tauto.
Qed.

Lemma fold_add_name_length base names acc :
  (length (fold_left (add_name base) names acc) <= length acc + length names)%nat.
Proof.
  revert acc. induction names as [|n names IH]; intros acc; simpl; [lia|].
  specialize (IH (add_name base acc n)).
  assert (length (add_name base acc n) <= S (length acc))%nat.
  { unfold add_name. destruct (match_re base n); [apply Set_add_length | lia]. }
  lia.
Qed.

Lemma usedNumbers_length base names :
  (length (usedNumbers base names) <= length names)%nat.
Proof. apply (fold_add_name_length base names []). Qed.

Lemma take_while_id f s :
  Forall (fun c => f c = true) s -> take_while f s = s.
Proof.
  induction 1 as [|c s Hc _ IH]; simpl; [reflexivity|].
  rewrite Hc, IH. reflexivity.
Qed.

Lemma parseInt_digits ds :
  ds <> [] -> Forall (fun c => is_digit c = true) ds ->
  parseInt ds = to_double (decimal_value ds).
Proof.
  intros Hne Hds. unfold parseInt. rewrite (take_while_id _ _ Hds).
  destruct ds; [contradiction | reflexivity].
Qed.

(** ** The loop of [nextAutoName] *)

(** Below 2^53 the set holds exactly the taken integers, whatever rounding
    [parseInt] applies to longer digit strings. *)
Lemma used_taken base names k :
  (k < 2 ^ 53)%N ->
  In (Fin k) (usedNumbers base names) <-> taken base names k.
Proof.
  intros Hk. rewrite usedNumbers_In. unfold taken. split.
  - intros (n & ds & Hn & Hm & Hp). exists n, ds.
    apply match_re_spec in Hm. split; [exact Hn|]. split; [exact Hm|].
    destruct Hm as (b & ws & _ & _ & _ & _ & Hne & Hds).
    rewrite (parseInt_digits ds Hne Hds) in Hp.
    destruct (N.lt_ge_cases (decimal_value ds) (2 ^ 53)) as [Hs|Hl].
    + rewrite (to_double_small _ Hs) in Hp. injection Hp as ->. reflexivity.
    + apply (to_double_large _ _ Hl) in Hp. lia.
  - intros (n & ds & Hn & Hm & Hv). exists n, ds.
    split; [exact Hn|]. split; [apply match_re_spec; exact Hm|].
    destruct Hm as (b & ws & _ & _ & _ & _ & Hne & Hds).
    rewrite (parseInt_digits ds Hne Hds), Hv. apply to_double_small. exact Hk.
Qed.

Lemma while_has_spec used fuel : forall i,
  (i + N.of_nat fuel < 2 ^ 53)%N ->
  match while_has fuel used (Fin i) with
  | Some r => exists m, r = Fin m /\ (i <= m)%N /\ ~ In (Fin m) used
                        /\ forall j, (i <= j < m)%N -> In (Fin j) used
  | None => forall j, (i <= j < i + N.of_nat fuel)%N -> In (Fin j) used
  end.
Proof.
  induction fuel as [|fuel IH]; intros i Hi.
  - simpl. intros j Hj. lia.
  - cbn [while_has]. destruct (Set_has used (Fin i)) eqn:E.
    + rewrite incr_small by lia.
      specialize (IH (i + 1)%N ltac:(lia)).
      apply Set_has_In in E.
      destruct (while_has fuel used (Fin (i + 1))) as [r|].
      * destruct IH as (m & -> & Hm & Hout & Hin). exists m.
        repeat split; [lia | exact Hout |].
        intros j Hj. destruct (N.eq_dec j i) as [->|]; [exact E|]. apply Hin. lia.
      * intros j Hj. destruct (N.eq_dec j i) as [->|]; [exact E|]. apply IH. lia.
    + exists i. repeat split; [lia | | intros j Hj; lia].
      intros H. apply Set_has_In in H. congruence.
Qed.

(** Once the loop exits, a larger bound on its tests gives the same
    result. *)
Lemma while_has_more_fuel used fuel : forall i r fuel',
  while_has fuel used i = Some r -> (fuel <= fuel')%nat ->
  while_has fuel' used i = Some r.
Proof.
  induction fuel as [|fuel IH]; intros i r fuel' H Hle; [discriminate|].
  destruct fuel' as [|fuel']; [lia|]. cbn [while_has] in *.
  destruct (Set_has used i); [|exact H]. apply IH; [exact H | lia].
Qed.

(** A set cannot hold more consecutive integers than it has elements. *)
Lemma consecutive_bound (used : list number) (F : nat) :
  (forall j, (1 <= j < 1 + N.of_nat F)%N -> In (Fin j) used) ->
  (F <= length used)%nat.
Proof.
  intros H.
  set (l := (fun k => Fin (N.of_nat k)) <$> seq 1 F).
  assert (Hl : length l = F) by (unfold l; rewrite length_fmap, length_seq; reflexivity).
  rewrite <- Hl. apply submseteq_length, NoDup_submseteq.
  - unfold l. apply NoDup_fmap_2; [|apply NoDup_seq].
    intros a b [= E]. lia.
  - intros x Hx. unfold l in Hx. apply list_elem_of_fmap in Hx.
    destruct Hx as (k & -> & Hk). apply elem_of_seq in Hk.
    apply list_elem_of_In. apply H. lia.
Qed.

(** The counter saturates at 2^53: 2^53 + 1 rounds back to 2^53. *)
Lemma incr_capped i :
  (i <= 2 ^ 53)%N -> incr (Fin i) = Fin (N.min (i + 1) (2 ^ 53)).
Proof.
  intros Hi. destruct (N.eq_dec i (2 ^ 53)%N) as [->|Hne]; [vm_compute; reflexivity|].
  rewrite N.min_l by lia.
  destruct (N.eq_dec (i + 1)%N (2 ^ 53)%N) as [E|Hne'];
    [cbn [incr]; rewrite E; vm_compute; reflexivity|].
  apply incr_small. lia.
Qed.

(** The loop runs out of tests exactly when every value it visited is in the
    set. *)
Lemma while_has_none used fuel : forall i,
  (i <= 2 ^ 53)%N ->
  while_has fuel used (Fin i) = None <->
  forall j, (i <= j < i + N.of_nat fuel)%N -> In (Fin (N.min j (2 ^ 53))) used.
Proof.
  induction fuel as [|fuel IH]; intros i Hi.
  - simpl. split; [intros _ j Hj; lia | reflexivity].
  - cbn [while_has]. rewrite incr_capped by exact Hi.
    destruct (Set_has used (Fin i)) eqn:E.
    + apply Set_has_In in E. rewrite IH by apply N.le_min_r. split.
      * intros H j Hj. destruct (N.eq_dec j i) as [->|Hne].
        { rewrite N.min_l by exact Hi. exact E. }
        destruct (N.eq_dec i (2 ^ 53)%N) as [->|Hcap].
        { rewrite N.min_r by lia. rewrite <- (N.min_id (2 ^ 53)%N).
          apply (H (2 ^ 53)%N). rewrite N.min_r by lia. lia. }
        apply H. rewrite N.min_l by lia. lia.
      * intros H j Hj. destruct (N.eq_dec i (2 ^ 53)%N) as [->|Hcap].
        { rewrite N.min_r in Hj by lia. rewrite N.min_r by lia.
          rewrite <- (N.min_id (2 ^ 53)%N). apply (H (2 ^ 53)%N). lia. }
        rewrite N.min_l in Hj by lia. apply H. lia.
    + split; [discriminate|]. intros H. exfalso.
      assert (In (Fin (N.min i (2 ^ 53))) used) as Hin by (apply H; lia).
      rewrite N.min_l in Hin by exact Hi. apply Set_has_In in Hin. congruence.
Qed.

(** The bound of one test more than there are names is exact: when the loop
    runs out of tests under it, it runs out under every bound, as the
    JavaScript loop then never ends. *)
Lemma while_has_spin_exact base names :
  while_has (S (length names)) (usedNumbers base names) (Fin 1) = None ->
  forall fuel, while_has fuel (usedNumbers base names) (Fin 1) = None.
Proof.
  intros Hnone fuel.
  assert (H1 : (1 <= 2 ^ 53)%N) by (vm_compute; discriminate).
  rewrite while_has_none in Hnone by exact H1.
  destruct (N.lt_ge_cases (N.of_nat (S (length names))) (2 ^ 53)%N) as [Hsmall|Hbig].
  - pose proof (usedNumbers_length base names) as Hused.
    assert (S (length names) <= length (usedNumbers base names))%nat; [|lia].
    apply consecutive_bound. intros j Hj.
    specialize (Hnone j Hj). rewrite N.min_l in Hnone by lia. exact Hnone.
  - apply while_has_none; [exact H1|]. intros j Hj.
    specialize (Hnone (N.min j (2 ^ 53))%N).
    rewrite (N.min_l (N.min j (2 ^ 53)) (2 ^ 53)) in Hnone by apply N.le_min_r.
    apply Hnone. destruct (N.min_spec j (2 ^ 53)%N) as [[Hlt ->]|[Hge ->]]; lia.
Qed.

(** With no more than 2^32 - 1 names, the length limit of an array, the loop
    exits at the smallest positive integer that is not taken. *)
Lemma while_has_smallest base names :
  (N.of_nat (length names) < 2 ^ 32)%N ->
  exists i, while_has (S (length names)) (usedNumbers base names) (Fin 1) = Some (Fin i)
            /\ (0 < i)%N /\ ~ taken base names i
            /\ forall j, (0 < j < i)%N -> taken base names j.
Proof.
  intros Hlen.
  assert (H53 : (2 ^ 32 + 2 < 2 ^ 53)%N) by (vm_compute; reflexivity).
  pose proof (while_has_spec (usedNumbers base names) (S (length names)) 1
                ltac:(lia)) as Hspec.
  pose proof (usedNumbers_length base names) as Hused.
  destruct (while_has (S (length names)) (usedNumbers base names) (Fin 1)) as [r|].
  - destruct Hspec as (m & -> & Hm & Hout & Hin).
    assert (Hmb : (m < 1 + N.of_nat (S (length names)))%N).
    { destruct (N.lt_ge_cases m (1 + N.of_nat (S (length names)))) as [?|Hge];
        [assumption|].
      assert (S (length names) <= length (usedNumbers base names))%nat; [|lia].
      apply consecutive_bound. intros j Hj. apply Hin. lia. }
    exists m. split; [reflexivity|]. split; [lia|]. split.
    + rewrite <- used_taken by lia. exact Hout.
    + intros j Hj. apply used_taken; [lia|]. apply Hin. lia.
  - assert (S (length names) <= length (usedNumbers base names))%nat; [|lia].
    apply consecutive_bound. exact Hspec.
Qed.

Lemma taken_without base l1 n l2 k :
  (forall ds, ~ in_pattern base n ds) ->
  taken base (l1 ++ n :: l2) k <-> taken base (l1 ++ l2) k.
Proof.
  intros Hn. unfold taken. split.
  - intros (x & ds & Hx & Hp & Hv). exists x, ds. split; [|tauto].
    apply in_app_iff in Hx. apply in_app_iff.
    destruct Hx as [Hx|[<-|Hx]]; [tauto | | tauto]. exfalso. exact (Hn ds Hp).
  - intros (x & ds & Hx & Hp & Hv). exists x, ds. split; [|tauto].
    apply in_app_iff in Hx. apply in_app_iff. simpl. tauto.
Qed.

Lemma smallest_unique (P Q : N -> Prop) i i' :
  (forall k, P k <-> Q k) ->
  ~ P i -> (forall j, (0 < j < i)%N -> P j) -> (0 < i)%N ->
  ~ Q i' -> (forall j, (0 < j < i')%N -> Q j) -> (0 < i')%N ->
  i = i'.
Proof.
  intros HPQ Hi Hlt Hpos Hi' Hlt' Hpos'.
  destruct (N.lt_trichotomy i i') as [H|[H|H]]; [|exact H|].
  - exfalso. apply Hi, HPQ, Hlt'. lia.
  - exfalso. apply Hi', HPQ, Hlt. lia.
Qed.

Lemma run_nextAutoName {St} (h : Cmd -> St -> Response * St) s names base i :
  while_has (S (length names)) (usedNumbers (label base) names) (Fin 1) = Some (Fin i) ->
  run h (nextAutoName (Ret names) base) s
  = (Returned (label base ++ js " " ++ to_decimal i), s, []).
Proof. intros H. unfold nextAutoName. cbn [bind]. rewrite H. reflexivity. Qed.

(** C1.  For every list of existing names (an array, so shorter than 2^32)
    and every base label, [nextAutoName] sends no request and returns
    "base i", where i is the smallest positive integer that no existing name
    takes through the pattern [^base\s+(k)$] read case-insensitively.  For
    the empty list that is "base 1", and a name outside the pattern can be
    removed without changing the result. *)
Theorem nextAutoName_smallest_missing :
  forall (St : Type) (h : Cmd -> St -> Response * St) (s : St)
         (names : list jsstring) (base : BaseLabel),
    (N.of_nat (length names) < 2 ^ 32)%N ->
    (exists i : N,
        run h (nextAutoName (Ret names) base) s
        = (Returned (label base ++ js " " ++ to_decimal i), s, [])
        /\ (0 < i)%N
        /\ ~ taken (label base) names i
        /\ forall j, (0 < j < i)%N -> taken (label base) names j)
    /\ run h (nextAutoName (Ret []) base) s
       = (Returned (label base ++ js " 1"), s, [])
    /\ forall l1 n l2,
        names = l1 ++ n :: l2 ->
        (forall ds, ~ in_pattern (label base) n ds) ->
        run h (nextAutoName (Ret (l1 ++ l2)) base) s
        = run h (nextAutoName (Ret names) base) s.
Proof.
  intros St h s names base Hlen. split; [|split].
  - destruct (while_has_smallest (label base) names Hlen) as (i & Hw & Hpos & Hout & Hin).
    exists i. split; [apply run_nextAutoName; exact Hw|]. tauto.
  - reflexivity.
  - intros l1 n l2 -> Hn.
    assert (Hlen' : (N.of_nat (length (l1 ++ l2)) < 2 ^ 32)%N).
    { rewrite length_app in *. simpl in Hlen. lia. }
    destruct (while_has_smallest (label base) _ Hlen) as (i & Hw & Hpos & Hout & Hin).
    destruct (while_has_smallest (label base) _ Hlen') as (i' & Hw' & Hpos' & Hout' & Hin').
    rewrite (run_nextAutoName h s _ base i Hw), (run_nextAutoName h s _ base i' Hw').
    assert (i = i') as ->; [|reflexivity].
    apply (smallest_unique (taken (label base) (l1 ++ n :: l2))
                           (taken (label base) (l1 ++ l2)) i i');
      try assumption.
    intros k. apply taken_without. exact Hn.
Qed.

(** ** Entry points without a user *)

Lemma run_call {St A} (h : Cmd -> St -> Response * St) c (k : Response -> Prog A) s :
  run h (Call c k) s
  = (fst (fst (run h (k (fst (h c s))) (snd (h c s)))),
     snd (fst (run h (k (fst (h c s))) (snd (h c s)))),
     (c, fst (h c s)) :: snd (run h (k (fst (h c s))) (snd (h c s)))).
Proof.
  cbn [run]. destruct (h c s) as [r s1]. cbn [fst snd].
  destruct (run h (k r) s1) as [[o s2] log]. reflexivity.
Qed.

(** C8.  Without a user identity the context's [ensureScenario] and
    [ensureProject] return null, send no request to the store and leave the
    store and the context state as they were; with a user the first request
    is the look-up of the existing entity. *)
Theorem unauthenticated_ensure_returns_null :
  forall (St : Type) (h : Cmd -> St -> Response * St) (s : St)
         (sst : ScenarioState) (pst : ProjectState)
         (project : jsstring) (module : ModuleType) (toolType : ToolType),
    run h (ctx_ensureScenario None sst project module) s = (Returned (DNull, sst), s, [])
    /\ run h (ctx_ensureProject None pst toolType) s = (Returned (DNull, pst), s, [])
    /\ (forall u, exists r log,
           snd (run h (ctx_ensureScenario (Some u) sst project module) s)
           = (Select (latest_scenario project module), r) :: log)
    /\ (forall u, exists r log,
           snd (run h (ctx_ensureProject (Some u) pst toolType) s)
           = (Select (first_project (user_id u) toolType), r) :: log).
Proof.
  intros St h s sst pst project module toolType.
  split; [reflexivity|]. split; [reflexivity|]. split; intros u.
  - unfold ctx_ensureScenario, ensureScenario, await. cbn [bind try_catch].
    rewrite run_call. cbn [snd]. eauto.
  - unfold ctx_ensureProject, ensureProject, await. cbn [bind try_catch].
    rewrite run_call. cbn [snd]. eauto.
Qed.

(** ** The local result history *)

Lemma results_key_inj a b : results_key a = results_key b -> a = b.
Proof. unfold results_key. apply app_inv_head. Qed.

Lemma field_results_history scenario l :
  results_of (result_history scenario l) = Entries l.
Proof. reflexivity. Qed.

Lemma getScenarioResults_insert (ls : storage) scenario l s :
  getScenarioResults (<[results_key scenario := Json (result_history scenario l)]> ls) s
  = if decide (s = scenario) then Entries l else getScenarioResults ls s.
Proof.
  unfold getScenarioResults. destruct (decide (s = scenario)) as [->|Hne].
  - rewrite lookup_insert_eq. reflexivity.
  - rewrite lookup_insert_ne; [reflexivity|].
    intros E. apply results_key_inj in E. congruence.
Qed.

Lemma getScenarioResults_delete (ls : storage) scenario s :
  getScenarioResults (clearScenarioResults ls scenario) s
  = if decide (s = scenario) then Entries [] else getScenarioResults ls s.
Proof.
  unfold getScenarioResults, clearScenarioResults.
  destruct (decide (s = scenario)) as [->|Hne].
  - rewrite lookup_delete_eq. reflexivity.
  - rewrite lookup_delete_ne; [reflexivity|].
    intros E. apply results_key_inj in E. congruence.
Qed.

Lemma addScenarioResult_entries (ls : storage) scenario d now l :
  getScenarioResults ls scenario = Entries l ->
  addScenarioResult ls scenario d now
  = Some ((length l + 1)%nat,
          <[results_key scenario :=
              Json (result_history scenario
                      (l ++ [versioned_result (length l + 1) now d]))]> ls).
Proof. intros H. unfold addScenarioResult. rewrite H. reflexivity. Qed.

Lemma getLatestResult_entries (ls : storage) scenario l :
  getScenarioResults ls scenario = Entries l ->
  getLatestResult ls scenario = match last l with
                                | Some x => Found x
                                | None => Null
                                end.
Proof.
  intros H. unfold getLatestResult. rewrite H. destruct (last l); reflexivity.
Qed.




(** C10.  [getScenarioResults] is total (nothing escapes its try/catch).
    When the entry is absent, is not JSON text, or parses to a value without
    a [results] property, it returns the empty list and [getLatestResult]
    returns null. *)
Theorem getScenarioResults_defaults :
  forall (ls : storage) (scenario : jsstring),
    (ls !! results_key scenario = None
     \/ (exists s, ls !! results_key scenario = Some (Text s))
     \/ (exists parsed, ls !! results_key scenario = Some (Json parsed)
                        /\ has_results parsed = false)) ->
    getScenarioResults ls scenario = Entries []
    /\ getLatestResult ls scenario = Null.
Proof.
  intros ls scenario H.
  assert (E : getScenarioResults ls scenario = Entries []).
  { unfold getScenarioResults.
    destruct H as [->|[[s ->]|(parsed & -> & Hp)]]; [reflexivity..|].
    destruct parsed; try reflexivity. simpl in *.
    destruct (field (js "results") fields); [discriminate | reflexivity]. }
  split; [exact E|]. rewrite (getLatestResult_entries _ _ _ E). reflexivity.
Qed.

(** ** Filtering, ordering and paging *)

Lemma where_In fs rs r : In r (where_ fs rs) <-> In r rs /\ matches_all fs r = true.
Proof.
  induction rs as [|x rs IH]; simpl; [tauto|].
  destruct (matches_all fs x) eqn:E; simpl; rewrite IH; split.
  - intros [<-|[? ?]]; tauto.
  - intros [[<-|?] ?]; tauto.
  - tauto.
  - intros [[<-|?] ?]; [congruence | tauto].
Qed.

Lemma where_NoDup fs rs : NoDup rs -> NoDup (where_ fs rs).
Proof.
  induction 1 as [|x rs Hx Hnd IH]; simpl; [constructor|].
  destruct (matches_all fs x); [|exact IH].
  constructor; [|exact IH].
  intros Hin. apply list_elem_of_In, where_In in Hin.
  apply Hx, list_elem_of_In. tauto.
Qed.

Lemma insert_sorted_perm c asc r l : insert_sorted c asc r l ≡ₚ r :: l.
Proof.
  induction l as [|x l IH]; simpl; [reflexivity|].
  destruct (before c asc r x); [reflexivity|].
  rewrite IH. apply Permutation_swap.
Qed.

Lemma order_by_perm c asc l : order_by c asc l ≡ₚ l.
Proof.
  induction l as [|r l IH]; simpl; [reflexivity|].
  rewrite insert_sorted_perm, IH. reflexivity.
Qed.

Lemma before_total c asc r x : before c asc r x = false -> before c asc x r = true.
Proof. unfold before. destruct asc; intros H; apply Z.leb_gt in H; apply Z.leb_le; lia. Qed.

Lemma before_trans c asc x y z :
  before c asc x y = true -> before c asc y z = true -> before c asc x z = true.
Proof.
  unfold before. destruct asc; intros H1 H2;
    apply Z.leb_le in H1; apply Z.leb_le in H2; apply Z.leb_le; lia.
Qed.

Lemma insert_sorted_sorted c asc r l :
  StronglySorted (fun a b => before c asc a b = true) l ->
  StronglySorted (fun a b => before c asc a b = true) (insert_sorted c asc r l).
Proof.
  induction 1 as [|x l Hl IH Hx]; simpl.
  - constructor; constructor.
  - destruct (before c asc r x) eqn:E.
    + constructor; [constructor; assumption|].
      constructor; [exact E|].
      eapply Forall_impl; [exact Hx|]. simpl. intros z Hz.
      eapply before_trans; eassumption.
    + constructor; [exact IH|].
      apply Forall_forall. intros z Hz.
      rewrite insert_sorted_perm in Hz. apply elem_of_cons in Hz.
      destruct Hz as [->|Hz].
      * apply before_total. exact E.
      * rewrite Forall_forall in Hx. apply Hx. exact Hz.
Qed.

Lemma order_by_sorted c asc l :
  StronglySorted (fun a b => before c asc a b = true) (order_by c asc l).
Proof.
  induction l as [|r l IH]; simpl; [constructor|].
  apply insert_sorted_sorted. exact IH.
Qed.

Lemma order_by_descending c l :
  StronglySorted (fun a b => (order_key c b <= order_key c a)%Z) (order_by c false l).
Proof.
  pose proof (order_by_sorted c false l) as Hs.
  induction Hs as [|x l' Hl IH Hx]; constructor; [exact IH|].
  eapply Forall_impl; [exact Hx|]. simpl. intros b Hb.
  unfold before in Hb. apply Z.leb_le in Hb. exact Hb.
Qed.

Lemma page_slice offset limit (l : list Row) :
  apply_range (Some (Z.of_nat offset, Z.of_nat offset + Z.of_nat limit - 1)%Z) l
  = firstn limit (skipn offset l).
Proof.
  unfold apply_range.
  replace (Z.to_nat (Z.of_nat offset + Z.of_nat limit - 1 - Z.of_nat offset + 1))
    with limit by lia.
  rewrite Nat2Z.id. reflexivity.
Qed.

Lemma map_project_all (l : list Row) : map (project None) l = l.
Proof. induction l as [|r l IH]; simpl; [|rewrite IH]; reflexivity. Qed.

Lemma run_listResults db scenario options :
  run db_exec (listResults scenario options) db
  = (Returned (DRows (firstn (default 10%nat (opt_limit options))
                        (skipn (default 0%nat (opt_offset options))
                           (results_desc db scenario)))),
     db,
     [(Select (Q.from scenario_outputs |> Q.select_all
                 |> Q.eq "scenario_id" (VStr scenario)
                 |> Q.order "created_at" false
                 |> page (default 0%nat (opt_offset options))
                         (default 10%nat (opt_limit options))),
       mkResponse (DRows (firstn (default 10%nat (opt_limit options))
                            (skipn (default 0%nat (opt_offset options))
                               (results_desc db scenario)))) None)]).
Proof.
  unfold listResults, await. cbn [bind try_catch]. rewrite run_call.
  cbn [db_exec fst snd]. unfold eval_query.
  cbn [Q.from Q.select_all Q.eq Q.order page Q.range q_table q_columns q_filters
       q_order q_limit q_range q_single table app apply_limit apply_order].
  rewrite map_project_all, page_slice. reflexivity.
Qed.

Lemma NoDup_map_inj {A B} (f : A -> B) (l : list A) x y :
  NoDup (map f l) -> In x l -> In y l -> f x = f y -> x = y.
Proof.
  induction l as [|a l IH]; [intros _ []|].
  cbn [map]. intros Hnd Hx Hy E. apply NoDup_cons in Hnd. destruct Hnd as [Ha Hnd].
  destruct Hx as [->|Hx], Hy as [->|Hy].
  - reflexivity.
  - exfalso. apply Ha. rewrite E. apply list_elem_of_In, in_map. exact Hy.
  - exfalso. apply Ha. rewrite <- E. apply list_elem_of_In, in_map. exact Hx.
  - apply IH; assumption.
Qed.

(** With distinct times there is one listing only. *)
Lemma most_recent_first_unique db scenario l l' :
  distinct_times db scenario ->
  most_recent_first db scenario l -> most_recent_first db scenario l' -> l = l'.
Proof.
  intros Hd [Hp Hs] [Hp' Hs'].
  eapply StronglySorted_unique_strong; [|exact Hs | exact Hs' |].
  - cbv beta. intros x y Hx Hy Hxy Hyx.
    apply (NoDup_map_inj (order_key "created_at") (scenario_results db scenario));
      [exact Hd | | | lia].
    + apply list_elem_of_In. rewrite <- Hp. exact Hx.
    + apply list_elem_of_In. rewrite <- Hp'. exact Hy.
  - rewrite Hp, Hp'. reflexivity.
Qed.

(** C7.  When the creation times of the scenario's results are distinct,
    there is exactly one listing of them in descending [created_at] order;
    [listResults] returns the slice [offset, offset + limit) of it and
    changes nothing; so, with no insert in between, the page at offset 0
    and the page at offset 10 (limit 10) are the first ten and the next ten
    of that one list, and share no result. *)
Theorem listResults_pages :
  forall (db : DB) (scenario : jsstring),
    distinct_times db scenario ->
    let all := results_desc db scenario in
    most_recent_first db scenario all
    /\ (forall listed, most_recent_first db scenario listed -> listed = all)
    /\ (forall limit offset,
          fst (run db_exec (listResults scenario (mkOptions limit offset)) db)
          = (Returned (DRows (firstn (default 10%nat limit)
                                (skipn (default 0%nat offset) all))), db))
    /\ exists page0 page1,
        let '(first, db1, _) :=
          run db_exec (listResults scenario (mkOptions (Some 10%nat) (Some 0%nat))) db in
        let '(second, db2, _) :=
          run db_exec (listResults scenario (mkOptions (Some 10%nat) (Some 10%nat))) db1 in
        first = Returned (DRows page0) /\ second = Returned (DRows page1)
        /\ db2 = db
        /\ page0 ++ page1 = firstn 20 all
        /\ forall r, In r page0 -> ~ In r page1.
Proof.
  intros db scenario Hd all.
  assert (Hall : most_recent_first db scenario all).
  { split; [apply order_by_perm | apply order_by_descending]. }
  assert (Hnd : NoDup all).
  { destruct Hall as [Hp _]. rewrite Hp. eapply NoDup_fmap_1. exact Hd. }
  split; [exact Hall|]. split; [|split].
  - intros listed Hl. apply (most_recent_first_unique db scenario); assumption.
  - intros limit offset. rewrite run_listResults. reflexivity.
  - exists (firstn 10 all), (firstn 10 (skipn 10 all)).
    rewrite run_listResults. rewrite run_listResults. cbn [opt_limit opt_offset default].
    fold all. rewrite skipn_O.
    split; [reflexivity|]. split; [reflexivity|]. split; [reflexivity|].
    assert (Hpages : firstn 10 all ++ firstn 10 (skipn 10 all) = firstn 20 all).
    { apply (take_take_drop all 10 10). }
    split; [exact Hpages|].
    intros r H0 H1.
    assert (Hnd20 : NoDup (firstn 10 all ++ firstn 10 (skipn 10 all))).
    { rewrite Hpages. rewrite <- (take_drop 20 all) in Hnd.
      apply NoDup_app in Hnd. tauto. }
    apply NoDup_app in Hnd20. destruct Hnd20 as (_ & Hdisj & _).
    apply (Hdisj r); apply list_elem_of_In; assumption.
Qed.

(** ** Running programs *)

Lemma run_bind {St A B} (h : Cmd -> St -> Response * St) (p : Prog A) (f : A -> Prog B) :
  forall s, run h (bind p f) s = then_run (run h p s) (fun a s1 => run h (f a) s1).
Proof.
  induction p as [a|e| |c k IH]; intros s; cbn [bind run then_run].
  - destruct (run h (f a) s) as [[o s2] l2]. reflexivity.
  - reflexivity.
  - reflexivity.
  - destruct (h c s) as [r s1]. rewrite IH.
    destruct (run h (k r) s1) as [[[a|e|] s2] l2]; cbn [then_run]; try reflexivity.
    destruct (run h (f a) s2) as [[o s3] l3]. reflexivity.
Qed.

Lemma run_try_catch {St A} (h : Cmd -> St -> Response * St) (p : Prog A)
    (hd : Exn -> Prog A) :
  forall s, run h (try_catch p hd) s
            = caught_run (run h p s) (fun e s1 => run h (hd e) s1).
Proof.
  induction p as [a|e| |c k IH]; intros s; cbn [try_catch run caught_run].
  - reflexivity.
  - destruct (run h (hd e) s) as [[o s2] l2]. reflexivity.
  - reflexivity.
  - destruct (h c s) as [r s1]. rewrite IH.
    destruct (run h (k r) s1) as [[[a|e|] s2] l2]; cbn [caught_run]; try reflexivity.
    destruct (run h (hd e) s2) as [[o s3] l3]. reflexivity.
Qed.

Lemma run_await {St} (h : Cmd -> St -> Response * St) c s :
  run h (await c) s = (Returned (fst (h c s)), snd (h c s), [(c, fst (h c s))]).
Proof. unfold await. cbn [run]. destruct (h c s). reflexivity. Qed.

Lemma db_exec_select db q :
  db_exec (Select q) db = (eval_query q (table db (q_table q)), db).
Proof. reflexivity. Qed.

Lemma db_exec_insert db t row returning :
  fits t row = true ->
  db_exec (Insert t row returning) db
  = if collides t (with_defaults db t row) (table db t)
    then (mkResponse DNull (Some unique_violation), db)
    else (mkResponse (DRow (project returning (with_defaults db t row))) None,
          inserted db t (with_defaults db t row)).
Proof. intros H. cbn [db_exec]. rewrite H. reflexivity. Qed.

Lemma fits_name t newName : fits t [("name", VStr newName)] = true.
Proof. destruct t; reflexivity. Qed.

Lemma db_exec_update db t fields fs :
  fits t fields = true ->
  db_exec (Update t fields fs) db
  = if writes_ok t (updated fs fields (table db t))
    then (mkResponse DNull None,
          with_table db t (map snd (updated fs fields (table db t))))
    else (mkResponse DNull (Some unique_violation), db).
Proof. intros H. cbn [db_exec]. rewrite H. reflexivity. Qed.

Lemma db_exec_out_of_range db t row returning :
  fits t row = false ->
  db_exec (Insert t row returning) db
  = (mkResponse DNull (Some numeric_value_out_of_range), db).
Proof. intros H. cbn [db_exec]. rewrite H. reflexivity. Qed.

(** ** Names read from the store *)

Lemma names_in_length rs : (length (names_in rs) <= length rs)%nat.
Proof.
  induction rs as [|r rs IH]; simpl; [lia|].
  unfold names_in in *. simpl. destruct (name_of r); simpl; lia.
Qed.

Lemma names_in_cons r rs :
  names_in (r :: rs) = match name_of r with
                       | Some s => s :: names_in rs
                       | None => names_in rs
                       end.
Proof. reflexivity. Qed.

Lemma get_project_name r : get "name" (project (Some ["name"]) r) = get "name" r.
Proof. reflexivity. Qed.

Lemma strings_of_names rs :
  forallb has_name rs = true ->
  strings_of (map (get "name") (map (project (Some ["name"])) rs)) = Some (names_in rs).
Proof.
  induction rs as [|r rs IH]; [reflexivity|].
  cbn [forallb]. intros H. apply andb_true_iff in H. destruct H as [Hr Hrs].
  rewrite names_in_cons. cbn [map]. rewrite get_project_name.
  unfold name_of. unfold has_name in Hr.
  destruct (get "name" r) eqn:E; try discriminate.
  cbn [strings_of]. rewrite (IH Hrs). reflexivity.
Qed.

Lemma where_length fs rs : (length (where_ fs rs) <= length rs)%nat.
Proof.
  induction rs as [|r rs IH]; simpl; [lia|].
  destruct (matches_all fs r); simpl; lia.
Qed.

Lemma where_forallb (f : Row -> bool) fs rs :
  forallb f rs = true -> forallb f (where_ fs rs) = true.
Proof.
  induction rs as [|r rs IH]; simpl; [reflexivity|].
  intros H. apply andb_true_iff in H. destruct H as [Hr Hrs].
  destruct (matches_all fs r); simpl; [rewrite Hr|]; auto.
Qed.

(** Listing the names of a scope and computing the next auto-name, on the
    database: one read, and the smallest free number. *)
Lemma run_nextAutoName_db db t fs base :
  forallb has_name (table db t) = true ->
  (N.of_nat (length (table db t)) < 2 ^ 32)%N ->
  let q := mkQuery t (Some ["name"]) fs None None None false in
  let names := names_in (where_ fs (table db t)) in
  exists i,
    run db_exec (nextAutoName (let! l := await (Select q) in names_of (data l)) base) db
    = (Returned (label base ++ js " " ++ to_decimal i), db,
       [(Select q, eval_query q (table db t))])
    /\ (0 < i)%N /\ ~ taken (label base) names i
    /\ forall j, (0 < j < i)%N -> taken (label base) names j.
Proof.
  intros Hnames Hlen q names.
  assert (Hlen' : (N.of_nat (length names) < 2 ^ 32)%N).
  { pose proof (names_in_length (where_ fs (table db t))).
    pose proof (where_length fs (table db t)). unfold names. lia. }
  destruct (while_has_smallest (label base) names Hlen') as (i & Hw & Hi).
  exists i. split; [|exact Hi].
  unfold nextAutoName. rewrite !run_bind, run_await. subst q.
  cbn [db_exec fst snd then_run q_table].
  unfold eval_query. cbn [q_single q_columns q_limit q_range q_order q_filters data
                          apply_limit apply_range apply_order names_of].
  rewrite strings_of_names by (apply where_forallb; exact Hnames).
  cbn [run]. fold names. cbn [then_run]. rewrite Hw. reflexivity.
Qed.

(** ** Keys *)

Lemma jsstring_eqb_eq a b : jsstring_eqb a b = true <-> a = b.
Proof.
  revert b. induction a as [|x a IH]; intros [|y b]; simpl;
    try (split; [discriminate | intros [=]]); [tauto|].
  rewrite andb_true_iff, N.eqb_eq, IH. split.
  - intros [-> ->]. reflexivity.
  - intros [= -> ->]. tauto.
Qed.

Lemma sql_eqb_eq a b : sql_eqb a b = true -> a = b.
Proof.
  destruct a, b; simpl; try discriminate.
  - intros H. apply jsstring_eqb_eq in H. congruence.
  - intros H. apply Z.eqb_eq in H. congruence.
Qed.

Lemma sql_eqb_sym a b : sql_eqb a b = sql_eqb b a.
Proof.
  destruct (sql_eqb a b) eqn:E.
  - pose proof (sql_eqb_eq _ _ E) as ->. symmetry. exact E.
  - destruct (sql_eqb b a) eqn:E'; [|reflexivity].
    pose proof (sql_eqb_eq _ _ E') as ->. congruence.
Qed.

Lemma sql_eqb_both a b v : sql_eqb a v = true -> sql_eqb b v = true -> sql_eqb a b = true.
Proof.
  intros Ha Hb. pose proof (sql_eqb_eq _ _ Ha) as ->.
  pose proof (sql_eqb_eq _ _ Hb) as ->. exact Ha.
Qed.

Lemma same_key_sym key r r' : same_key key r r' = same_key key r' r.
Proof.
  unfold same_key. induction key as [|c key IH]; simpl; [reflexivity|].
  rewrite IH, sql_eqb_sym. reflexivity.
Qed.

Lemma collides_false t r rs key r' :
  collides t r rs = false -> In key (unique_keys t) -> In r' rs ->
  same_key key r r' = false.
Proof.
  intros Hc Hk Hr'. destruct (same_key key r r') eqn:E; [|reflexivity].
  assert (collides t r rs = true); [|congruence].
  unfold collides. apply existsb_exists. exists r'. split; [exact Hr'|].
  unfold clash. apply existsb_exists. exists key. split; assumption.
Qed.

Lemma keys_ok_cons t r rs :
  keys_ok t (r :: rs) = true -> collides t r rs = false /\ keys_ok t rs = true.
Proof.
  simpl. intros H. apply andb_true_iff in H. destruct H as [H1 H2].
  apply negb_true_iff in H1. split; assumption.
Qed.

(** Under the constraints two stored rows that agree on a key are one row. *)
Lemma keys_ok_inj t rs key r r' :
  keys_ok t rs = true -> In key (unique_keys t) ->
  In r rs -> In r' rs -> same_key key r r' = true -> r = r'.
Proof.
  intros Hok Hk. induction rs as [|x rs IH]; intros Hr Hr' Hs; [destruct Hr|].
  apply keys_ok_cons in Hok. destruct Hok as [Hc Hok].
  destruct Hr as [->|Hr], Hr' as [->|Hr'].
  - reflexivity.
  - rewrite (collides_false _ _ _ _ _ Hc Hk Hr') in Hs. discriminate.
  - rewrite same_key_sym, (collides_false _ _ _ _ _ Hc Hk Hr) in Hs. discriminate.
  - apply IH; assumption.
Qed.

Lemma where_none fs rs :
  (forall r, In r rs -> matches_all fs r = false) -> where_ fs rs = [].
Proof.
  induction rs as [|x rs IH]; simpl; intros H; [reflexivity|].
  rewrite (H x) by tauto. apply IH. intros r Hr. apply H. tauto.
Qed.

(** A filter that pins a whole key selects at most one row. *)
Lemma where_single t rs key fs other :
  keys_ok t rs = true -> In key (unique_keys t) ->
  (forall r r', matches_all fs r = true -> matches_all fs r' = true ->
                same_key key r r' = true) ->
  In other rs -> matches_all fs other = true ->
  where_ fs rs = [other].
Proof.
  intros Hok Hk Hsame. induction rs as [|x rs IH]; intros Hin Hm; [destruct Hin|].
  apply keys_ok_cons in Hok. destruct Hok as [Hc Hok]. simpl.
  destruct (matches_all fs x) eqn:Ex.
  - assert (Hrest : forall r, In r rs -> matches_all fs r = false).
    { intros r Hr. destruct (matches_all fs r) eqn:Er; [|reflexivity].
      specialize (Hsame x r Ex Er).
      rewrite (collides_false _ _ _ _ _ Hc Hk Hr) in Hsame. discriminate. }
    rewrite (where_none _ _ Hrest). destruct Hin as [->|Hin]; [reflexivity|].
    rewrite (Hrest _ Hin) in Hm. discriminate.
  - destruct Hin as [->|Hin]; [congruence|]. apply IH; assumption.
Qed.

(** On a table that satisfies its keys every write passes the check. *)
Lemma keys_ok_writes_ok t l : keys_ok t (map snd l) = true -> writes_ok t l = true.
Proof.
  induction l as [|[w r] l IH]; [reflexivity|].
  cbn [map snd]. intros H. apply keys_ok_cons in H. destruct H as [Hc Hok].
  cbn [writes_ok]. rewrite (IH Hok), andb_true_r. apply negb_true_iff.
  apply not_true_is_false. intros Hex. apply existsb_exists in Hex.
  destruct Hex as (x & Hx & Hcl). apply andb_true_iff in Hcl. destruct Hcl as [_ Hcl].
  assert (collides t r (map snd l) = true); [|congruence].
  unfold collides. apply existsb_exists. exists (snd x). split; [|exact Hcl].
  apply in_map. exact Hx.
Qed.

Lemma set_same c v r : get c r = v -> v <> VNull -> set c v r = r.
Proof.
  induction r as [|[k w] r IH]; simpl; intros Hg Hv; [congruence|].
  destruct (String.eqb k c); [congruence|]. rewrite IH; auto.
Qed.

Lemma with_table_same db t : with_table db t (table db t) = db.
Proof. destruct db, t; reflexivity. Qed.

Lemma map_id_on {A} (f : A -> A) l : (forall x, In x l -> f x = x) -> map f l = l.
Proof.
  induction l as [|x l IH]; simpl; intros H; [reflexivity|].
  rewrite H, IH; auto.
Qed.

(** ** Result numbers *)

Lemma order_by_head c l r0 rest :
  order_by c false l = r0 :: rest ->
  In r0 l /\ is_max (order_key c r0) (map (order_key c) l).
Proof.
  intros E. pose proof (order_by_descending c l) as Hs.
  pose proof (order_by_perm c false l) as Hp. rewrite E in Hs, Hp.
  assert (Hin : forall x, In x l <-> x = r0 \/ In x rest).
  { intros x. rewrite <- !list_elem_of_In, <- Hp, elem_of_cons. tauto. }
  split; [apply Hin; tauto|]. split.
  - apply in_map. apply Hin. tauto.
  - intros k Hk. apply in_map_iff in Hk. destruct Hk as (x & <- & Hx).
    apply Hin in Hx. destruct Hx as [->|Hx]; [lia|].
    apply StronglySorted_inv in Hs. destruct Hs as [_ Hall].
    rewrite Forall_forall in Hall. apply Hall, list_elem_of_In, Hx.
Qed.

Lemma order_by_nil c asc l : order_by c asc l = [] -> l = [].
Proof.
  intros E. pose proof (order_by_perm c asc l) as Hp. rewrite E in Hp.
  symmetry in Hp. apply Permutation_nil_r in Hp. exact Hp.
Qed.

Lemma forallb_In {A} (f : A -> bool) l x : forallb f l = true -> In x l -> f x = true.
Proof. intros H Hx. rewrite forallb_forall in H. apply H. exact Hx. Qed.

Lemma is_result_row_name rs :
  forallb is_result_row rs = true -> forallb has_name rs = true.
Proof.
  induction rs as [|r rs IH]; simpl; [reflexivity|].
  intros H. apply andb_true_iff in H. destruct H as [Hr Hrs].
  rewrite (IH Hrs), andb_true_r. unfold is_result_row in Hr.
  destruct (get "result_number" r); try discriminate. exact Hr.
Qed.

(** The number [createResult] computes from its first read. *)
Lemma nextResultNumber_db db scenario :
  forallb is_result_row (tbl_outputs db) = true ->
  exists n,
    nextResultNumber (data (eval_query (top_result scenario) (tbl_outputs db))) = VNum n
    /\ max_plus_one (result_numbers db scenario) n.
Proof.
  intros Htyped. unfold eval_query, top_result.
  cbn [Q.from Q.select Q.eq Q.order Q.limit q_table q_columns q_filters q_order
       q_limit q_range q_single app apply_limit apply_range apply_order data].
  fold (scenario_results db scenario). unfold result_numbers.
  destruct (order_by "result_number" false (scenario_results db scenario))
    as [|r0 rest] eqn:E.
  - exists 1%Z. split; [reflexivity|]. left.
    apply order_by_nil in E. rewrite E. split; reflexivity.
  - destruct (order_by_head _ _ _ _ E) as [Hin Hmax].
    assert (Hr0 : is_result_row r0 = true).
    { apply (forallb_In _ (tbl_outputs db)); [exact Htyped|].
      unfold scenario_results in Hin. apply where_In in Hin. tauto. }
    unfold is_result_row in Hr0.
    destruct (get "result_number" r0) as [| |n|] eqn:En; try discriminate.
    exists (n + 1)%Z. split.
    + cbn [firstn map nextResultNumber project get String.eqb Ascii.eqb Bool.eqb].
      rewrite En. reflexivity.
    + right. exists n. split; [|reflexivity].
      replace n with (order_key "result_number" r0); [exact Hmax|].
      unfold order_key. rewrite En. reflexivity.
Qed.

(** The auto-name "base i" is itself in the pattern, with the digits of i. *)
Lemma auto_name_in_pattern base i :
  in_pattern base (base ++ js " " ++ to_decimal i) (to_decimal i).
Proof.
  exists base, (js " "). split; [reflexivity|]. split.
  - induction base; constructor; auto.
  - split; [discriminate|]. split; [repeat constructor|].
    split; [apply to_decimal_nonempty | apply uint_units_digits].
Qed.

Lemma auto_name_fresh base names i :
  ~ taken base names i -> ~ In (base ++ js " " ++ to_decimal i) names.
Proof.
  intros H Hin. apply H. exists (base ++ js " " ++ to_decimal i), (to_decimal i).
  split; [exact Hin|].
  split; [apply auto_name_in_pattern | apply decimal_value_to_decimal].
Qed.

Lemma names_in_In r s rs : In r rs -> get "name" r = VStr s -> In s (names_in rs).
Proof.
  intros Hin Hs. induction rs as [|x rs IH]; [destruct Hin|].
  rewrite names_in_cons. destruct Hin as [->|Hin].
  - unfold name_of. rewrite Hs. simpl. tauto.
  - destruct (name_of x); simpl; auto.
Qed.

Lemma new_result_gets db params name v :
  let row := with_defaults db scenario_outputs (new_result params name v) in
  get "id" row = VStr (uuid (next_id db))
  /\ get "scenario_id" row = VStr (scenarioId params)
  /\ get "name" row = VStr name
  /\ get "result_number" row = v.
Proof. repeat split; reflexivity. Qed.

(** A row with an unused id, an unused name and a number above all stored
    numbers of the scenario violates no key. *)
Lemma new_result_fits db params name n :
  fresh_id db scenario_outputs = true ->
  ~ In name (names_in (scenario_results db (scenarioId params))) ->
  (forall k, In k (result_numbers db (scenarioId params)) -> (k < n)%Z) ->
  collides scenario_outputs
           (with_defaults db scenario_outputs (new_result params name (VNum n)))
           (tbl_outputs db) = false.
Proof.
  intros Hid Hname Hnum. apply not_true_is_false. intros Hc.
  unfold collides in Hc. apply existsb_exists in Hc. destruct Hc as (r' & Hr' & Hcl).
  destruct (new_result_gets db params name (VNum n)) as (Gid & Gsid & Gname & Gnum).
  cbv zeta in *. unfold clash, same_key in Hcl. cbn [unique_keys existsb forallb] in Hcl.
  rewrite Gid, Gsid, Gname, Gnum in Hcl. rewrite !andb_true_r, orb_false_r in Hcl.
  apply orb_true_iff in Hcl. destruct Hcl as [Hk|Hcl].
  - unfold fresh_id in Hid. apply (forallb_In _ _ r') in Hid; [|exact Hr'].
    cbv beta in Hid. rewrite sql_eqb_sym, Hk in Hid. discriminate.
  - assert (Hin : forall x, sql_eqb (VStr (scenarioId params)) (get "scenario_id" r') && x = true ->
                            In r' (scenario_results db (scenarioId params)) /\ x = true).
    { intros x Hx. apply andb_true_iff in Hx. destruct Hx as [Hs Hx]. split; [|exact Hx].
      apply where_In. split; [exact Hr'|]. unfold matches_all. cbn [forallb filter_holds].
      rewrite sql_eqb_sym, Hs. reflexivity. }
    apply orb_true_iff in Hcl. destruct Hcl as [Hk|Hk]; apply Hin in Hk;
      destruct Hk as [Hscen Hk]; apply sql_eqb_eq in Hk.
    + apply Hname. apply (names_in_In r'); [exact Hscen | congruence].
    + assert (In n (result_numbers db (scenarioId params))) as Hn.
      { unfold result_numbers. apply in_map_iff. exists r'. split; [|exact Hscen].
        unfold result_number_of, order_key. rewrite <- Hk. reflexivity. }
      specialize (Hnum n Hn). lia.
Qed.

Lemma max_plus_one_above l n k : max_plus_one l n -> In k l -> (k < n)%Z.
Proof.
  intros [[-> _]|(m & [_ Hm] & ->)] Hk; [destruct Hk|].
  specialize (Hm k Hk). lia.
Qed.

Lemma max_plus_one_fits db scenario n :
  numbers_leave_room db scenario -> max_plus_one (result_numbers db scenario) n ->
  int4 n = true.
Proof.
  intros Hroom [[_ ->]|(m & [Hin _] & ->)]; [reflexivity|].
  specialize (Hroom m Hin). unfold int4. apply andb_true_iff.
  split; apply Z.leb_le; lia.
Qed.

Lemma new_result_in_range params name n :
  int4 n = true -> fits scenario_outputs (new_result params name (VNum n)) = true.
Proof. intros H. unfold fits. cbn. rewrite H. reflexivity. Qed.

(** With no other writer, a typed table of fewer than 2^32 rows, an unused
    next id and room in the INTEGER column, [createResult] succeeds: it
    stores one row, numbered maximum plus one, and returns its handle. *)
Lemma createResult_succeeds db params :
  forallb is_result_row (tbl_outputs db) = true ->
  (N.of_nat (length (tbl_outputs db)) < 2 ^ 32)%N ->
  fresh_id db scenario_outputs = true ->
  numbers_leave_room db (scenarioId params) ->
  exists n name,
    max_plus_one (result_numbers db (scenarioId params)) n
    /\ fst (run db_exec (createResult params) db)
       = (Returned (DRow (project result_handle
                            (with_defaults db scenario_outputs
                               (new_result params name (VNum n))))),
          inserted db scenario_outputs
                   (with_defaults db scenario_outputs (new_result params name (VNum n)))).
Proof.
  intros Htyped Hlen Hid Hroom.
  destruct (nextResultNumber_db db (scenarioId params) Htyped) as (n & Hn & Hmax).
  destruct (run_nextAutoName_db db scenario_outputs
              [Eq "scenario_id" (VStr (scenarioId params))] Result
              (is_result_row_name _ Htyped) Hlen) as (i & Hrun & _ & Hfree & _).
  exists n, (label Result ++ js " " ++ to_decimal i). split; [exact Hmax|].
  unfold createResult. rewrite run_try_catch, run_bind, run_await.
  change (db_exec (Select (top_result (scenarioId params))) db)
    with (eval_query (top_result (scenarioId params)) (tbl_outputs db), db).
  cbn [fst snd then_run]. rewrite Hn.
  rewrite run_bind.
  change (result_names (scenarioId params))
    with (let! l := await (Select (mkQuery scenario_outputs (Some ["name"])
                                     [Eq "scenario_id" (VStr (scenarioId params))]
                                     None None None false)) in
          names_of (data l)).
  rewrite Hrun. cbn [then_run]. rewrite run_bind, run_await.
  rewrite db_exec_insert
    by (apply new_result_in_range, (max_plus_one_fits db (scenarioId params)); assumption).
  change (table db scenario_outputs) with (tbl_outputs db).
  rewrite new_result_fits.
  - reflexivity.
  - exact Hid.
  - apply auto_name_fresh. exact Hfree.
  - intros k Hk. eapply max_plus_one_above; eassumption.
Qed.

(** C3, counterexample.  After results 1, 2, 3 the result numbered 3
    (id-2) is deleted; the next result (id-3) is numbered 3 again. *)
Lemma result_number_reused_after_deleting_latest :
  results_view three_results
  = [(VStr (js "id-0"), VStr (js "Result 1"), VNum 1);
     (VStr (js "id-1"), VStr (js "Result 2"), VNum 2);
     (VStr (js "id-2"), VStr (js "Result 3"), VNum 3)]
  /\ results_view (exec (createResult run1) (delete_row scenario_outputs (js "id-2") three_results))
     = [(VStr (js "id-0"), VStr (js "Result 1"), VNum 1);
        (VStr (js "id-1"), VStr (js "Result 2"), VNum 2);
        (VStr (js "id-3"), VStr (js "Result 3"), VNum 3)].
Proof. split; vm_compute; reflexivity. Qed.

(** C3, amended.  With no other writer, on a typed table with an unused
    next id, for a project of the signed-in user and a scenario whose
    numbers are INTEGERs below the largest one, [createResult] stores one
    row whose [result_number] is the maximum existing number of the scenario
    plus one, or 1 when the scenario has no result, and returns its handle;
    the number is larger than every number still stored, so a number is not
    reused while a result with that or a higher number remains.  After
    results 1, 2, 3 and the deletion of result 2, the next result is
    numbered 4 (and named 'Result 2'). *)
Theorem createResult_max_plus_one :
  forall (db : DB) (params : ResultParams) (userId : jsstring),
    forallb is_result_row (tbl_outputs db) = true ->
    (N.of_nat (length (tbl_outputs db)) < 2 ^ 32)%N ->
    fresh_id db scenario_outputs = true ->
    numbers_leave_room db (scenarioId params) ->
    may_create db userId params ->
    (exists n name,
        let row := with_defaults db scenario_outputs (new_result params name (VNum n)) in
        fst (run db_exec (createResult params) db)
        = (Returned (DRow (project result_handle row)), inserted db scenario_outputs row)
        /\ max_plus_one (result_numbers db (scenarioId params)) n
        /\ forall k, In k (result_numbers db (scenarioId params)) -> (k < n)%Z)
    /\ results_view (exec (createResult run1)
                         (delete_row scenario_outputs (js "id-1") three_results))
       = [(VStr (js "id-0"), VStr (js "Result 1"), VNum 1);
          (VStr (js "id-2"), VStr (js "Result 3"), VNum 3);
          (VStr (js "id-3"), VStr (js "Result 2"), VNum 4)].
Proof.
  intros db params userId Htyped Hlen Hid Hroom _. split.
  - destruct (createResult_succeeds db params Htyped Hlen Hid Hroom)
      as (n & name & Hmax & Hrun).
    exists n, name. cbv zeta. split; [exact Hrun|]. split; [exact Hmax|].
    intros k Hk. eapply max_plus_one_above; eassumption.
  - vm_compute. reflexivity.
Qed.

(** At the largest INTEGER the insert fails with 22003, which is not a
    unique violation: nothing is stored and null is returned. *)
Example createResult_at_largest_integer :
  result_numbers last_number (js "s1") = [2147483647%Z]
  /\ fst (run db_exec (createResult run1) last_number) = (Returned DNull, last_number).
Proof. split; vm_compute; reflexivity. Qed.

(** On any store the names are read with one request and nothing else is
    sent while the next auto-name is computed. *)
Lemma run_nextAutoName_any {St} (h : Cmd -> St -> Response * St) s q base :
  exists o,
    run h (nextAutoName (let! l := await (Select q) in names_of (data l)) base) s
    = (o, snd (h (Select q) s), [(Select q, fst (h (Select q) s))]).
Proof.
  unfold nextAutoName. rewrite !run_bind, run_await. cbn [then_run].
  unfold names_of. destruct (data (fst (h (Select q) s))) as [|r|rs].
  - cbn [run then_run]. destruct (while_has _ _ _); cbn [run app]; eauto.
  - cbn [run then_run app]. eauto.
  - destruct (strings_of (map (get "name") rs)) as [names|].
    + cbn [run then_run]. destruct (while_has _ _ _); cbn [run app]; eauto.
    + cbn [run then_run app]. eauto.
Qed.

(** On every store [createResult] reads the top number once, sends at most
    two inserts, both with the number computed from that one read, and
    returns null when the second insert is answered with an error. *)
Lemma createResult_one_stale_retry {St} (h : Cmd -> St -> Response * St) s params :
  let log := snd (run h (createResult params) s) in
  let n := nextResultNumber
             (data (fst (h (Select (top_result (scenarioId params))) s))) in
  (length (insert_attempts log) <= 2)%nat
  /\ Forall (fun a => snd (fst a) = n) (insert_attempts log)
  /\ (forall a b e, insert_attempts log = [a; b] -> snd b = Some e ->
                    fst (fst (run h (createResult params) s)) = Returned DNull).
Proof.
  cbv zeta. unfold createResult.
  rewrite run_try_catch, run_bind, run_await. cbn [then_run].
  set (s1 := snd (h (Select (top_result (scenarioId params))) s)).
  set (n := nextResultNumber
              (data (fst (h (Select (top_result (scenarioId params))) s)))).
  rewrite run_bind.
  change (result_names (scenarioId params))
    with (let! l := await (Select (mkQuery scenario_outputs (Some ["name"])
                                     [Eq "scenario_id" (VStr (scenarioId params))]
                                     None None None false)) in
          names_of (data l)).
  destruct (run_nextAutoName_any h s1 (mkQuery scenario_outputs (Some ["name"])
              [Eq "scenario_id" (VStr (scenarioId params))] None None None false) Result)
    as [o Ho].
  rewrite Ho. destruct o as [name|ex|]; cbn [then_run caught_run run app fst snd];
    try (cbn; split; [lia|]; split; [constructor | discriminate]).
  rewrite run_bind, run_await. cbn [then_run].
  match goal with
  | |- context [h (Insert ?t ?row ?ret) ?st] => set (r3 := h (Insert t row ret) st)
  end.
  destruct (error (fst r3)) as [e3|] eqn:E3;
    [destruct (is_unique_violation e3)|];
    cbn [then_run caught_run run app fst snd];
    try (cbn; rewrite ?E3; split; [lia|]; split;
         [repeat constructor | discriminate]).
  rewrite run_bind.
  destruct (run_nextAutoName_any h (snd r3) (mkQuery scenario_outputs (Some ["name"])
              [Eq "scenario_id" (VStr (scenarioId params))] None None None false) Result)
    as [o' Ho'].
  rewrite Ho'. destruct o' as [name'|ex'|]; cbn [then_run caught_run run app fst snd];
    try (cbn; rewrite ?E3; split; [lia|]; split;
         [repeat constructor | discriminate]).
  rewrite run_bind, run_await. cbn [then_run].
  match goal with
  | |- context [h (Insert ?t (new_result params name' ?k) ?ret) ?st] =>
      set (r5 := h (Insert t (new_result params name' k) ret) st)
  end.
  destruct (error (fst r5)) as [e5|] eqn:E5;
    cbn [then_run caught_run run app fst snd]; cbn; rewrite ?E3, ?E5;
    (split; [lia|]); (split; [repeat constructor|]).
  - reflexivity.
  - intros a b e [= <- <-]. discriminate.
Qed.

(** C4, at the failing input: the store is empty and a second client inserts
    'Result 1' with number 1 between the reads and the insert.  The first
    insert ('Result 1', 1) fails with 23505; the retry carries the fresh name
    'Result 2' but the number 1 computed before the race, although the
    maximum is now 1; it fails with 23505 as well and [createResult] returns
    null, having inserted nothing. *)
Theorem createResult_retry_keeps_stale_number :
  let '(outcome, final, log) :=
    run (racing rival_result) (createResult run1) (empty_db, 0%nat) in
  insert_attempts log
  = [(VStr (js "Result 1"), VNum 1, Some unique_violation);
     (VStr (js "Result 2"), VNum 1, Some unique_violation)]
  /\ outcome = Returned DNull
  /\ results_view (fst final) = [(VStr (js "id-0"), VStr (js "Result 1"), VNum 1)]
  /\ nextResultNumber (data (eval_query (top_result (js "s1")) (tbl_outputs (fst final))))
     = VNum 2.
Proof. vm_compute. repeat split; reflexivity. Qed.

Lemma falsy_null d : truthy d = false -> d = DNull.
Proof. destruct d; [reflexivity | discriminate..]. Qed.

(** On every store the current [ensureProject] sends at most one insert;
    when that insert is answered with SQLSTATE 23505, the last request is
    the look-up of the scope again, and what it yields is returned. *)
Lemma ensureProject_requeries {St} (h : Cmd -> St -> Response * St) s userId toolType :
  let log := snd (run h (ensureProject userId toolType) s) in
  (length (insert_attempts log) <= 1)%nat
  /\ forall name, insert_attempts log = [(name, VNull, Some unique_violation)] ->
       exists earlier again,
         log = earlier ++ [(Select (first_project userId toolType), again)]
         /\ fst (fst (run h (ensureProject userId toolType) s)) = Returned (data again).
Proof.
  cbv zeta. unfold ensureProject.
  rewrite run_try_catch, run_bind, run_await. cbn [then_run].
  set (r1 := h (Select (first_project userId toolType)) s).
  destruct (truthy (data (fst r1)) && no_error (fst r1));
    [cbn; split; [lia | discriminate]|].
  rewrite run_bind.
  change (Q.from projects |> Q.select ["name"] |> Q.eq "user_id" (VStr userId)
            |> Q.eq "tool_type" (VStr (tool_name toolType)))
    with (mkQuery projects (Some ["name"]) (project_scope userId toolType)
                  None None None false).
  destruct (run_nextAutoName_any h (snd r1)
              (mkQuery projects (Some ["name"]) (project_scope userId toolType)
                       None None None false) (getModulePrefix toolType)) as [o Ho].
  rewrite Ho. destruct o as [name|ex|]; cbn [then_run caught_run run app fst snd];
    try (cbn; split; [lia | discriminate]).
  rewrite run_bind, run_await. cbn [then_run].
  match goal with
  | |- context [h (Insert ?t ?row ?ret) ?st] => set (r3 := h (Insert t row ret) st)
  end.
  destruct (error (fst r3)) as [e3|] eqn:E3.
  2: { cbn [then_run caught_run run app fst snd]. cbn. rewrite E3.
       split; [lia|]. intros ? [=]. }
  destruct (is_unique_violation e3) eqn:Ev.
  2: { cbn [then_run caught_run run app fst snd]. cbn. rewrite E3.
       split; [lia|]. intros ? [= _ ->]. discriminate Ev. }
  rewrite run_bind, run_await. cbn [then_run].
  set (r4 := h (Select (first_project userId toolType)) (snd r3)).
  destruct (truthy (data (fst r4))) eqn:E4;
    cbn [then_run caught_run run app fst snd]; cbn; rewrite ?E3;
    (split; [lia|]); intros name' _.
  - eexists [_; _; _], (fst r4). split; reflexivity.
  - eexists [_; _; _], (fst r4). split; [reflexivity|].
    rewrite (falsy_null _ E4). reflexivity.
Qed.

(** On every store [ensureScenario] looks the scope up once, as its first
    request; whatever the insert is answered, no later request fetches the
    existing scenario. *)
Lemma ensureScenario_never_requeries {St} (h : Cmd -> St -> Response * St) s
    projectId userId moduleType :
  exists first rest,
    snd (run h (ensureScenario projectId userId moduleType) s)
    = (Select (latest_scenario projectId moduleType), first) :: rest
    /\ Forall (fun ev => forall q, fst ev = Select q -> q_columns q = Some ["name"]) rest.
Proof.
  unfold ensureScenario. rewrite run_try_catch, run_bind, run_await. cbn [then_run].
  set (r1 := h (Select (latest_scenario projectId moduleType)) s).
  exists (fst r1).
  destruct (truthy (data (fst r1)) && no_error (fst r1));
    [cbn; eexists; split; [reflexivity | constructor]|].
  rewrite run_bind.
  change (scenario_names projectId moduleType)
    with (let! l := await (Select (mkQuery scenarios (Some ["name"])
                                     [Eq "project_id" (VStr projectId);
                                      Eq "module_type" (VStr (module_name moduleType))]
                                     None None None false)) in
          names_of (data l)).
  destruct (run_nextAutoName_any h (snd r1)
              (mkQuery scenarios (Some ["name"])
                       [Eq "project_id" (VStr projectId);
                        Eq "module_type" (VStr (module_name moduleType))]
                       None None None false) Scenario) as [o Ho].
  rewrite Ho. destruct o as [name|ex|]; cbn [then_run caught_run run app fst snd];
    try (cbn; eexists; split; [reflexivity|];
         repeat constructor; intros q [= <-]; reflexivity).
  rewrite run_bind, run_await. cbn [then_run].
  match goal with
  | |- context [h (Insert ?t ?row ?ret) ?st] => set (r3 := h (Insert t row ret) st)
  end.
  destruct (error (fst r3)) as [e3|];
    [destruct (is_unique_violation e3)|];
    cbn [then_run caught_run run app fst snd];
    try (cbn; eexists; split; [reflexivity|];
         repeat constructor; intros q [=]; subst; reflexivity).
  rewrite run_bind.
  destruct (run_nextAutoName_any h (snd r3)
              (mkQuery scenarios (Some ["name"])
                       [Eq "project_id" (VStr projectId);
                        Eq "module_type" (VStr (module_name moduleType))]
                       None None None false) Scenario) as [o' Ho'].
  rewrite Ho'. destruct o' as [name'|ex'|]; cbn [then_run caught_run run app fst snd];
    try (cbn; eexists; split; [reflexivity|];
         repeat constructor; intros q [=]; subst; reflexivity).
  rewrite run_bind, run_await. cbn [then_run].
  match goal with
  | |- context [h (Insert ?t (new_scenario projectId userId moduleType name') ?ret) ?st] =>
      set (r5 := h (Insert t (new_scenario projectId userId moduleType name') ret) st)
  end.
  destruct (error (fst r5)); cbn [then_run caught_run run app fst snd];
    cbn; eexists; (split; [reflexivity|]);
    repeat constructor; intros q [=]; subst; reflexivity.
Qed.

(** C2, at the failing input: a second client creates the entity between the
    reads and the insert.  The current [ensureProject] sends one insert,
    fetches again and returns the rival's row.  [ensureScenario] and the
    earlier [ensureProject] send a second insert under the next name and
    return that new row, leaving two entities in the scope. *)
Theorem ensureScenario_inserts_again_after_race :
  (let '(outcome, final, log) :=
     run (racing rival_scenario) (ensureScenario (js "p1") (js "u1") m_gfa)
         (empty_db, 0%nat) in
   insert_attempts log
   = [(VStr (js "Scenario 1"), VNull, Some unique_violation);
      (VStr (js "Scenario 2"), VNull, None)]
   /\ returned_name outcome = VStr (js "Scenario 2")
   /\ map (get "name") (tbl_scenarios (fst final))
      = [VStr (js "Scenario 1"); VStr (js "Scenario 2")])
  /\ (let '(outcome, final, log) :=
        run (racing (rival_project (js "Project 1"))) (ensureProject_v1 (js "u1") gfa)
            (empty_db, 0%nat) in
      insert_attempts log
      = [(VStr (js "Project 1"), VNull, Some unique_violation);
         (VStr (js "Project 2"), VNull, None)]
      /\ returned_name outcome = VStr (js "Project 2")
      /\ map (get "name") (tbl_projects (fst final))
         = [VStr (js "Project 1"); VStr (js "Project 2")])
  /\ (let '(outcome, final, log) :=
        run (racing (rival_project (js "GFA 1"))) (ensureProject (js "u1") gfa)
            (empty_db, 0%nat) in
      insert_attempts log = [(VStr (js "GFA 1"), VNull, Some unique_violation)]
      /\ returned_name outcome = VStr (js "GFA 1")
      /\ map (get "name") (tbl_projects (fst final)) = [VStr (js "GFA 1")]).
Proof. vm_compute. repeat split; reflexivity. Qed.

(** ** Renaming *)

Lemma renameProject_shape id newName userId :
  renameProject id newName userId
  = rename_with (project_name_taken id newName userId)
                (update_project_name id newName userId)
                (project_exists_message newName) (js "Failed to rename project").
Proof. reflexivity. Qed.

Lemma renameScenario_shape id newName projectId moduleType :
  renameScenario id newName projectId moduleType
  = rename_with (scenario_name_taken id newName projectId moduleType)
                (update_scenario_name id newName)
                (scenario_exists_message newName) (js "Failed to rename scenario").
Proof. reflexivity. Qed.

Lemma renameResult_shape id newName scenario :
  renameResult id newName scenario
  = rename_with (result_name_taken id newName scenario)
                (update_result_name id newName)
                (result_exists_message newName) (js "Failed to rename result").
Proof. reflexivity. Qed.

(** On any store: a hit of the check ends the rename with the message and no
    update is sent; otherwise the update is sent and its answer decides. *)
Lemma run_rename_with {St} (h : Cmd -> St -> Response * St) pre upd msg failure s :
  run h (rename_with pre upd msg failure) s
  = if truthy (data (fst (h (Select pre) s))) then
      (Returned (mkRename false (Some msg)), snd (h (Select pre) s),
       [(Select pre, fst (h (Select pre) s))])
    else
      (Returned (rename_answer msg failure (fst (h upd (snd (h (Select pre) s))))),
       snd (h upd (snd (h (Select pre) s))),
       [(Select pre, fst (h (Select pre) s));
        (upd, fst (h upd (snd (h (Select pre) s))))]).
Proof.
  unfold rename_with. rewrite run_try_catch, run_bind, run_await.
  cbn [then_run]. destruct (truthy (data (fst (h (Select pre) s)))).
  - reflexivity.
  - rewrite run_bind, run_await. cbn [then_run]. unfold rename_answer.
    destruct (error (fst (h upd (snd (h (Select pre) s))))) as [e|]; [|reflexivity].
    destruct (is_unique_violation e); reflexivity.
Qed.

Lemma jsstring_eqb_refl a : jsstring_eqb a a = true.
Proof. apply jsstring_eqb_eq. reflexivity. Qed.

(** The check finds the one other row that holds the name. *)
Lemma check_finds t rs key fs other :
  keys_ok t rs = true -> In key (unique_keys t) ->
  (forall r r', matches_all fs r = true -> matches_all fs r' = true ->
                same_key key r r' = true) ->
  In other rs -> matches_all fs other = true ->
  truthy (data (eval_query (mkQuery t (Some ["id"]) fs None None None true) rs)) = true.
Proof.
  intros Hok Hk Hsame Hin Hm. unfold eval_query.
  cbn [q_single q_columns q_limit q_range q_order q_filters apply_limit apply_range
       apply_order].
  rewrite (where_single t rs key fs other Hok Hk Hsame Hin Hm). reflexivity.
Qed.

Lemma check_finds_nothing t rs fs :
  (forall r, In r rs -> matches_all fs r = false) ->
  truthy (data (eval_query (mkQuery t (Some ["id"]) fs None None None true) rs)) = false.
Proof.
  intros H. unfold eval_query.
  cbn [q_single q_columns q_limit q_range q_order q_filters apply_limit apply_range
       apply_order].
  rewrite (where_none _ _ H). reflexivity.
Qed.

(** Writing a row's own name back changes nothing and raises nothing. *)
Lemma update_own_name db t upd newName me :
  keys_ok t (table db t) = true ->
  get "name" me = VStr newName ->
  (forall r, In r (table db t) -> matches_all upd r = true -> r = me) ->
  db_exec (Update t [("name", VStr newName)] upd) db = (mkResponse DNull None, db).
Proof.
  intros Hok Hname Honly. rewrite db_exec_update by apply fits_name.
  assert (Hsame : map snd (updated upd [("name", VStr newName)] (table db t)) = table db t).
  { unfold updated. rewrite map_map. apply map_id_on.
    intros r Hr. destruct (matches_all upd r) eqn:E; [|reflexivity].
    rewrite (Honly r Hr E). cbn [set_fields fold_left fst snd].
    apply set_same; [exact Hname | discriminate]. }
  rewrite keys_ok_writes_ok by (rewrite Hsame; exact Hok).
  rewrite Hsame, with_table_same. reflexivity.
Qed.

Lemma matches_all_app fs fs' r :
  matches_all (fs ++ fs') r = matches_all fs r && matches_all fs' r.
Proof. unfold matches_all. apply forallb_app. Qed.

Lemma scope_filters_hold sc r :
  matches_all (scope_filters sc) r = true <-> in_scope sc r.
Proof.
  unfold in_scope. induction sc as [|[c v] sc IH]; simpl.
  - split; [constructor | reflexivity].
  - rewrite andb_true_iff. fold (matches_all (scope_filters sc) r). rewrite IH.
    split.
    + intros [H1 H2]. constructor; [|exact H2]. simpl.
      destruct (get c r); simpl in H1; try discriminate.
      apply jsstring_eqb_eq in H1. congruence.
    + intros H. inversion H as [|? ? H1 H2]; subst. simpl in H1.
      split; [|exact H2]. rewrite H1. apply jsstring_eqb_refl.
Qed.

Lemma name_check_holds sc id newName r :
  matches_all (name_check sc id newName) r = true <->
  in_scope sc r /\ get "name" r = VStr newName
  /\ get "id" r <> VNull /\ get "id" r <> VStr id.
Proof.
  unfold name_check. rewrite matches_all_app, andb_true_iff, scope_filters_hold.
  unfold matches_all. cbn [forallb filter_holds].
  rewrite andb_true_r, andb_true_iff. split.
  - intros (Hs & Hn & Hi). split; [exact Hs|]. split.
    + destruct (get "name" r); simpl in Hn; try discriminate.
      apply jsstring_eqb_eq in Hn. congruence.
    + destruct (get "id" r) as [|other| |]; simpl in Hi; try discriminate;
        (split; [discriminate|]); try discriminate.
      intros [= ->]. rewrite jsstring_eqb_refl in Hi. discriminate.
  - intros (Hs & Hn & Hnull & Hne). split; [exact Hs|]. rewrite Hn. split.
    + apply jsstring_eqb_refl.
    + destruct (get "id" r) as [|other| |]; simpl; try reflexivity; [congruence|].
      destruct (jsstring_eqb other id) eqn:E; [|reflexivity].
      apply jsstring_eqb_eq in E. congruence.
Qed.

Lemma in_scope_same_key sc r r' :
  in_scope sc r -> in_scope sc r' ->
  get "name" r = get "name" r' -> (exists n, get "name" r = VStr n) ->
  same_key (name_key sc) r r' = true.
Proof.
  intros Hr Hr' Hn [n Hname]. unfold same_key, name_key. rewrite forallb_app.
  apply andb_true_iff. split.
  - unfold in_scope in *. induction sc as [|[c v] sc IH]; [reflexivity|].
    inversion Hr as [|? ? H1 H2]; subst. inversion Hr' as [|? ? H1' H2']; subst.
    simpl in *. rewrite H1, H1'. simpl. rewrite jsstring_eqb_refl. apply IH; assumption.
  - simpl. rewrite <- Hn, Hname. simpl. rewrite jsstring_eqb_refl. reflexivity.
Qed.

Lemma name_check_pins sc id newName r r' :
  matches_all (name_check sc id newName) r = true ->
  matches_all (name_check sc id newName) r' = true ->
  same_key (name_key sc) r r' = true.
Proof.
  intros H H'. apply name_check_holds in H. apply name_check_holds in H'.
  destruct H as (Hs & Hn & _), H' as (Hs' & Hn' & _).
  apply in_scope_same_key; [assumption | assumption | congruence | eauto].
Qed.

(** Another row of the scope holds the name: the check is truthy. *)
Lemma name_taken t rs sc id newName other oid :
  keys_ok t rs = true -> In (name_key sc) (unique_keys t) ->
  In other rs -> in_scope sc other -> get "name" other = VStr newName ->
  get "id" other = VStr oid -> oid <> id ->
  truthy (data (eval_query (mkQuery t (Some ["id"]) (name_check sc id newName)
                              None None None true) rs)) = true.
Proof.
  intros Hok Hk Hin Hs Hn Hi Hne.
  apply (check_finds t rs (name_key sc) _ other Hok Hk); [| exact Hin |].
  - intros r r'. apply name_check_pins.
  - apply name_check_holds. rewrite Hi. repeat split; try assumption; congruence.
Qed.

(** The row itself holds the name: the check, which leaves it out, finds
    nothing. *)
Lemma name_own t rs sc id newName me :
  keys_ok t rs = true -> In (name_key sc) (unique_keys t) ->
  In me rs -> in_scope sc me -> get "name" me = VStr newName ->
  get "id" me = VStr id ->
  truthy (data (eval_query (mkQuery t (Some ["id"]) (name_check sc id newName)
                              None None None true) rs)) = false.
Proof.
  intros Hok Hk Hin Hs Hn Hi. apply check_finds_nothing. intros r Hr.
  destruct (matches_all (name_check sc id newName) r) eqn:E; [|reflexivity].
  apply name_check_holds in E. destruct E as (Hrs & Hrn & Hnull & Hne).
  assert (r = me) as ->.
  { apply (keys_ok_inj t rs (name_key sc)); try assumption.
    apply in_scope_same_key; [assumption | assumption | congruence | eauto]. }
  congruence.
Qed.

(** An update addressed by id reaches the row with that id only. *)
Lemma id_filter_only t rs id fs me :
  keys_ok t rs = true -> In ["id"] (unique_keys t) ->
  In me rs -> get "id" me = VStr id ->
  forall r, In r rs -> matches_all (Eq "id" (VStr id) :: fs) r = true -> r = me.
Proof.
  intros Hok Hk Hin Hi r Hr Hm. unfold matches_all in Hm. cbn [forallb filter_holds] in Hm.
  apply andb_true_iff in Hm. destruct Hm as [Hm _].
  apply (keys_ok_inj t rs ["id"]); try assumption.
  unfold same_key. cbn [forallb]. rewrite Hi, andb_true_r. exact Hm.
Qed.

Lemma id_key t : In ["id"] (unique_keys t).
Proof. destruct t; simpl; tauto. Qed.

Lemma rename_refused_db db t fs upd msg failure :
  truthy (data (eval_query (mkQuery t (Some ["id"]) fs None None None true)
                  (table db t))) = true ->
  fst (run db_exec (rename_with (mkQuery t (Some ["id"]) fs None None None true)
                      upd msg failure) db)
  = (Returned (mkRename false (Some msg)), db).
Proof.
  intros H. rewrite run_rename_with. cbn [db_exec fst snd q_table].
  rewrite H. reflexivity.
Qed.

Lemma rename_accepted_db db t fs upd msg failure :
  truthy (data (eval_query (mkQuery t (Some ["id"]) fs None None None true)
                  (table db t))) = false ->
  db_exec upd db = (mkResponse DNull None, db) ->
  fst (run db_exec (rename_with (mkQuery t (Some ["id"]) fs None None None true)
                      upd msg failure) db)
  = (Returned (mkRename true None), db).
Proof.
  intros H Hu. rewrite run_rename_with. cbn [db_exec fst snd q_table].
  rewrite H, Hu. reflexivity.
Qed.

Lemma rename_with_refuses db t sc upd msg failure id newName :
  keys_ok t (table db t) = true -> In (name_key sc) (unique_keys t) ->
  refuses_taken_name db t sc
    (rename_with (mkQuery t (Some ["id"]) (name_check sc id newName) None None None true)
                 upd msg failure) id newName msg.
Proof.
  intros Hok Hk other oid Hin Hs Hn Hi Hne. apply rename_refused_db.
  eapply name_taken; eassumption.
Qed.

Lemma rename_with_accepts db t sc fs msg failure id newName :
  keys_ok t (table db t) = true -> In (name_key sc) (unique_keys t) ->
  accepts_own_name db t sc
    (rename_with (mkQuery t (Some ["id"]) (name_check sc id newName) None None None true)
                 (Update t [("name", VStr newName)] (Eq "id" (VStr id) :: fs))
                 msg failure) id newName.
Proof.
  intros Hok Hk me Hin Hs Hn Hi. apply rename_accepted_db.
  - eapply name_own; eassumption.
  - apply (update_own_name db t _ newName me Hok Hn).
    apply (id_filter_only t _ id fs me Hok (id_key t) Hin Hi).
Qed.

Lemma rename_with_converts check update msg failure :
  converts_violation (rename_with check update msg failure) check update msg.
Proof.
  intros St h s. rewrite run_rename_with.
  destruct (truthy (data (fst (h (Select check) s)))); cbn [fst].
  - split; [eauto | discriminate].
  - split; [eauto|]. intros _ He. unfold rename_answer. rewrite He. reflexivity.
Qed.

(** C5.  On a store that satisfies its unique keys, for [renameProject],
    [renameScenario] and [renameResult]: if another entity of the scope
    (another id) has the requested name, the call returns the failure with
    the "already exists" message and the store is unchanged; renaming an
    entity to its own current name succeeds; and on any store, a 23505
    raised by the update itself is returned as the same message, no call
    ever throwing. *)
Theorem rename_name_conflict :
  forall (db : DB) (id newName userId projectId scenario : jsstring)
         (module : ModuleType),
    keys_ok projects (tbl_projects db) = true ->
    keys_ok scenarios (tbl_scenarios db) = true ->
    keys_ok scenario_outputs (tbl_outputs db) = true ->
    (refuses_taken_name db projects [("user_id", userId)]
       (renameProject id newName userId) id newName (project_exists_message newName)
     /\ refuses_taken_name db scenarios
          [("project_id", projectId); ("module_type", module_name module)]
          (renameScenario id newName projectId module) id newName
          (scenario_exists_message newName)
     /\ refuses_taken_name db scenario_outputs [("scenario_id", scenario)]
          (renameResult id newName scenario) id newName
          (result_exists_message newName))
    /\ (accepts_own_name db projects [("user_id", userId)]
          (renameProject id newName userId) id newName
        /\ accepts_own_name db scenarios
             [("project_id", projectId); ("module_type", module_name module)]
             (renameScenario id newName projectId module) id newName
        /\ accepts_own_name db scenario_outputs [("scenario_id", scenario)]
             (renameResult id newName scenario) id newName)
    /\ (converts_violation (renameProject id newName userId)
          (project_name_taken id newName userId)
          (update_project_name id newName userId) (project_exists_message newName)
        /\ converts_violation (renameScenario id newName projectId module)
             (scenario_name_taken id newName projectId module)
             (update_scenario_name id newName) (scenario_exists_message newName)
        /\ converts_violation (renameResult id newName scenario)
             (result_name_taken id newName scenario)
             (update_result_name id newName) (result_exists_message newName)).
Proof.
  intros db id newName userId projectId scenario module Hp Hs Hr.
  rewrite renameProject_shape, renameScenario_shape, renameResult_shape.
  split; [|split]; (split; [|split]).
  - apply (rename_with_refuses db projects [("user_id", userId)]); [exact Hp|].
    simpl. tauto.
  - apply (rename_with_refuses db scenarios
             [("project_id", projectId); ("module_type", module_name module)]);
      [exact Hs|]. simpl. tauto.
  - apply (rename_with_refuses db scenario_outputs [("scenario_id", scenario)]);
      [exact Hr|]. simpl. tauto.
  - apply (rename_with_accepts db projects [("user_id", userId)]
             [Eq "user_id" (VStr userId)]); [exact Hp|]. simpl. tauto.
  - apply (rename_with_accepts db scenarios
             [("project_id", projectId); ("module_type", module_name module)] []);
      [exact Hs|]. simpl. tauto.
  - apply (rename_with_accepts db scenario_outputs [("scenario_id", scenario)] []);
      [exact Hr|]. simpl. tauto.
  - apply rename_with_converts.
  - apply rename_with_converts.
  - apply rename_with_converts.
Qed.

(** ** ensureProject *)

Lemma eval_first_project userId toolType rows :
  eval_query (first_project userId toolType) rows
  = as_single (firstn 1 (where_ (project_scope userId toolType) rows)).
Proof.
  unfold eval_query, first_project.
  cbn [Q.from Q.select_all Q.eq Q.limit Q.single q_table q_columns q_filters q_order
       q_limit q_range q_single app apply_limit apply_range apply_order].
  rewrite map_project_all. reflexivity.
Qed.

Lemma eval_latest_project userId toolType rows :
  eval_query (latest_project userId toolType) rows
  = as_single (firstn 1 (order_by "updated_at" false
                           (where_ (project_scope userId toolType) rows))).
Proof.
  unfold eval_query, latest_project.
  cbn [Q.from Q.select_all Q.eq Q.order Q.limit Q.single q_table q_columns q_filters
       q_order q_limit q_range q_single app apply_limit apply_range apply_order].
  rewrite map_project_all. reflexivity.
Qed.

Lemma where_app fs l l' : where_ fs (l ++ l') = where_ fs l ++ where_ fs l'.
Proof.
  induction l as [|x l IH]; simpl; [reflexivity|].
  destruct (matches_all fs x); simpl; rewrite IH; reflexivity.
Qed.

Lemma new_project_in_scope db userId name toolType :
  matches_all (project_scope userId toolType)
              (with_defaults db projects (new_project userId name toolType)) = true.
Proof.
  unfold matches_all, project_scope. cbn. rewrite !jsstring_eqb_refl. reflexivity.
Qed.

Lemma scope_after_insert db userId name toolType :
  where_ (project_scope userId toolType) (tbl_projects db) = [] ->
  where_ (project_scope userId toolType)
         (tbl_projects (inserted db projects
                          (with_defaults db projects (new_project userId name toolType))))
  = [with_defaults db projects (new_project userId name toolType)].
Proof.
  intros H. cbn [inserted with_table table tbl_projects].
  rewrite where_app, H. cbn [where_ app].
  rewrite new_project_in_scope. reflexivity.
Qed.

(** A project of the scope exists: it is returned after one read. *)
Lemma ensureProject_found db userId toolType r rest :
  where_ (project_scope userId toolType) (tbl_projects db) = r :: rest ->
  run db_exec (ensureProject userId toolType) db
  = (Returned (DRow r), db,
     [(Select (first_project userId toolType), mkResponse (DRow r) None)]).
Proof.
  intros H. unfold ensureProject.
  rewrite run_try_catch, run_bind, run_await, db_exec_select.
  change (table db (q_table (first_project userId toolType))) with (tbl_projects db).
  rewrite eval_first_project, H. reflexivity.
Qed.

(** With no name in the scope the next auto-name is "base 1". *)
Lemma run_nextAutoName_none db t fs base :
  where_ fs (table db t) = [] ->
  run db_exec
      (nextAutoName
         (let! l := await (Select (mkQuery t (Some ["name"]) fs None None None false)) in
          names_of (data l)) base) db
  = (Returned (label base ++ js " 1"), db,
     [(Select (mkQuery t (Some ["name"]) fs None None None false),
       mkResponse (DRows []) None)]).
Proof.
  intros H. unfold nextAutoName. rewrite !run_bind, run_await, db_exec_select.
  unfold eval_query.
  cbn [q_table q_single q_columns q_limit q_range q_order q_filters apply_limit
       apply_range apply_order fst snd].
  rewrite H. reflexivity.
Qed.

(** Nothing in the scope: one project is created, unless its name collides
    with a project outside the scope, in which case nothing changes and null
    is returned. *)
Lemma ensureProject_not_found db userId toolType :
  where_ (project_scope userId toolType) (tbl_projects db) = [] ->
  let row := with_defaults db projects
               (new_project userId (label (getModulePrefix toolType) ++ js " 1") toolType) in
  exists log,
    run db_exec (ensureProject userId toolType) db
    = if collides projects row (tbl_projects db)
      then (Returned DNull, db, log)
      else (Returned (DRow row), inserted db projects row, log).
Proof.
  intros E row. unfold ensureProject.
  rewrite run_try_catch, run_bind, run_await, db_exec_select.
  change (table db (q_table (first_project userId toolType))) with (tbl_projects db).
  rewrite eval_first_project, E. cbn [firstn as_single fst snd then_run data truthy andb].
  rewrite run_bind.
  change (Q.from projects |> Q.select ["name"] |> Q.eq "user_id" (VStr userId)
            |> Q.eq "tool_type" (VStr (tool_name toolType)))
    with (mkQuery projects (Some ["name"]) (project_scope userId toolType)
                  None None None false).
  rewrite (run_nextAutoName_none db projects _ _ E).
  cbn [then_run]. rewrite run_bind, run_await, db_exec_insert by reflexivity.
  fold row. change (table db projects) with (tbl_projects db).
  destruct (collides projects row (tbl_projects db)).
  - cbn [fst snd then_run error].
    change (is_unique_violation unique_violation) with true. cbn iota.
    rewrite run_bind, run_await, db_exec_select.
    change (table db (q_table (first_project userId toolType))) with (tbl_projects db).
    rewrite eval_first_project, E.
    cbn [firstn as_single fst snd then_run data truthy run caught_run app]. eauto.
  - cbn [fst snd then_run error run caught_run app data project]. eauto.
Qed.

(** The run of [ensureProject] on a database. *)
Lemma ensureProject_idempotent_db db userId toolType :
  idempotent_on db (ensureProject userId toolType).
Proof.
  unfold idempotent_on.
  destruct (where_ (project_scope userId toolType) (tbl_projects db)) as [|r rest] eqn:E.
  - destruct (ensureProject_not_found db userId toolType E) as [log Hrun].
    cbv zeta in Hrun.
    destruct (collides projects _ (tbl_projects db)); rewrite Hrun.
    + rewrite Hrun. split; [eauto|]. split; [reflexivity|]. split; [reflexivity|].
      intros p [=].
    + rewrite (ensureProject_found _ userId toolType _ []
                 (scope_after_insert db userId _ toolType E)).
      split; [eauto|]. split; [reflexivity|]. split; [reflexivity|].
      intros p [= <-]. split; [|reflexivity].
      cbn [inserted with_table table tbl_projects]. apply in_app_iff. simpl. tauto.
  - rewrite (ensureProject_found db userId toolType r rest E).
    rewrite (ensureProject_found db userId toolType r rest E).
    split; [eauto|]. split; [reflexivity|]. split; [reflexivity|].
    intros p [= <-]. split; [|reflexivity].
    assert (In r (where_ (project_scope userId toolType) (tbl_projects db))) as Hin
        by (rewrite E; simpl; tauto).
    apply where_In in Hin. tauto.
Qed.

Lemma strings_of_length vs names : strings_of vs = Some names -> length names = length vs.
Proof.
  revert names. induction vs as [|v vs IH]; intros names; simpl.
  - intros [= <-]. reflexivity.
  - destruct v; try discriminate. destruct (strings_of vs) as [l|]; [|discriminate].
    intros [= <-]. simpl. rewrite (IH l); reflexivity.
Qed.

Lemma names_of_rows rs e :
  names_of (data (mkResponse (DRows rs) e))
  = match strings_of (map (get "name") rs) with
    | Some names => Ret names
    | None => Throw TypeError
    end.
Proof. reflexivity. Qed.

(** Reading the names of a scope and computing the next auto-name leaves the
    database alone; with fewer than 2^32 rows the loop exits. *)
Lemma nextAutoName_db_outcome db t fs base :
  (N.of_nat (length (table db t)) < 2 ^ 32)%N ->
  exists o log,
    run db_exec
        (nextAutoName
           (let! l := await (Select (mkQuery t (Some ["name"]) fs None None None false)) in
            names_of (data l)) base) db
    = (o, db, log)
    /\ ((exists name, o = Returned name) \/ (exists e, o = Thrown e)).
Proof.
  intros Hlen. unfold nextAutoName. rewrite !run_bind, run_await, db_exec_select.
  unfold eval_query.
  cbn [q_table q_single q_columns q_limit q_range q_order q_filters apply_limit
       apply_range apply_order fst snd].
  cbn [then_run]. rewrite names_of_rows.
  destruct (strings_of (map (get "name") (map (project (Some ["name"]))
                                            (where_ fs (table db t))))) as [names|] eqn:E.
  - assert (Hn : (N.of_nat (length names) < 2 ^ 32)%N).
    { apply strings_of_length in E. rewrite !length_map in E.
      pose proof (where_length fs (table db t)). lia. }
    destruct (while_has_smallest (label base) names Hn) as (i & Hw & _).
    cbn [run then_run]. rewrite Hw. cbn [run app]. eauto 7.
  - cbn [run then_run]. eauto 7.
Qed.

Lemma ensureProject_v1_found db userId toolType r rest :
  where_ (project_scope userId toolType) (tbl_projects db) = r :: rest ->
  exists r0 s,
    order_by "updated_at" false (where_ (project_scope userId toolType) (tbl_projects db))
    = r0 :: s
    /\ run db_exec (ensureProject_v1 userId toolType) db
       = (Returned (DRow r0), db,
          [(Select (latest_project userId toolType), mkResponse (DRow r0) None)]).
Proof.
  intros E.
  destruct (order_by "updated_at" false
              (where_ (project_scope userId toolType) (tbl_projects db)))
    as [|r0 s] eqn:Eo.
  - apply order_by_nil in Eo. congruence.
  - exists r0, s. split; [reflexivity|]. unfold ensureProject_v1.
    rewrite run_try_catch, run_bind, run_await, db_exec_select.
    change (table db (q_table (latest_project userId toolType))) with (tbl_projects db).
    rewrite eval_latest_project, Eo. reflexivity.
Qed.

(** Nothing in the scope: the earlier [ensureProject] creates one project,
    or changes nothing and returns null. *)
Lemma ensureProject_v1_not_found db userId toolType :
  where_ (project_scope userId toolType) (tbl_projects db) = [] ->
  (N.of_nat (length (tbl_projects db)) < 2 ^ 32)%N ->
  exists log,
    run db_exec (ensureProject_v1 userId toolType) db = (Returned DNull, db, log)
    \/ exists name,
        run db_exec (ensureProject_v1 userId toolType) db
        = (Returned (DRow (with_defaults db projects (new_project userId name toolType))),
           inserted db projects (with_defaults db projects (new_project userId name toolType)),
           log).
Proof.
  intros E Hlen. unfold ensureProject_v1.
  rewrite run_try_catch, run_bind, run_await, db_exec_select.
  change (table db (q_table (latest_project userId toolType))) with (tbl_projects db).
  rewrite eval_latest_project, E.
  cbn [order_by firstn as_single fst snd then_run data truthy andb].
  rewrite run_bind.
  change (project_names userId)
    with (let! l := await (Select (mkQuery projects (Some ["name"])
                                     [Eq "user_id" (VStr userId)] None None None false)) in
          names_of (data l)).
  destruct (nextAutoName_db_outcome db projects [Eq "user_id" (VStr userId)] Project Hlen)
    as (o & log & Hauto & Ho).
  rewrite Hauto. destruct Ho as [[name ->]|[e ->]]; cbn [then_run caught_run run app].
  - rewrite run_bind, run_await, db_exec_insert by reflexivity.
    destruct (collides projects (with_defaults db projects (new_project userId name toolType))
                (table db projects)) eqn:Ec.
    + cbn [fst snd then_run error].
      change (is_unique_violation unique_violation) with true. cbn iota.
      rewrite run_bind, Hauto. cbn [then_run].
      rewrite run_bind, run_await, db_exec_insert by reflexivity. rewrite Ec.
      cbn [fst snd then_run error run caught_run app]. eauto.
    + cbn [fst snd then_run error run caught_run app data project]. eauto.
  - eauto.
Qed.

Lemma ensureProject_v1_idempotent_db db userId toolType :
  (N.of_nat (length (tbl_projects db)) < 2 ^ 32)%N ->
  idempotent_on db (ensureProject_v1 userId toolType).
Proof.
  intros Hlen. unfold idempotent_on.
  destruct (where_ (project_scope userId toolType) (tbl_projects db)) as [|r rest] eqn:E.
  - destruct (ensureProject_v1_not_found db userId toolType E Hlen)
      as (log & [Hrun|(name & Hrun)]); rewrite Hrun.
    + rewrite Hrun. split; [eauto|]. split; [reflexivity|]. split; [reflexivity|].
      intros p [=].
    + destruct (ensureProject_v1_found _ userId toolType _ []
                  (scope_after_insert db userId name toolType E))
        as (r0 & s & Ho & Hrun2).
      rewrite (scope_after_insert db userId name toolType E) in Ho.
      cbn [order_by insert_sorted] in Ho. injection Ho as <- <-.
      rewrite Hrun2.
      split; [eauto|]. split; [reflexivity|]. split; [reflexivity|].
      intros p [= <-]. split; [|reflexivity].
      cbn [inserted with_table table tbl_projects]. apply in_app_iff. simpl. tauto.
  - destruct (ensureProject_v1_found db userId toolType r rest E) as (r0 & s & Ho & Hrun).
    rewrite Hrun, Hrun.
    split; [eauto|]. split; [reflexivity|]. split; [reflexivity|].
    intros p [= <-]. split; [|reflexivity].
    destruct (order_by_head _ _ _ _ Ho) as [Hin _]. apply where_In in Hin. tauto.
Qed.

Lemma fresh_id_none db t :
  fresh_id db t = true ->
  forall r, In r (table db t) -> get "id" r <> VStr (uuid (next_id db)).
Proof.
  intros Hid r Hr E. unfold fresh_id in Hid.
  apply (forallb_In _ _ r) in Hid; [|exact Hr]. cbv beta in Hid.
  rewrite E in Hid. cbn [sql_eqb] in Hid. rewrite jsstring_eqb_refl in Hid. discriminate Hid.
Qed.

Lemma new_project_clash db userId toolType name :
  tool_projects db userId toolType = [] ->
  fresh_id db projects = true ->
  collides projects (with_defaults db projects (new_project userId name toolType))
           (tbl_projects db) = true
  <-> exists r, In r (tbl_projects db)
                /\ get "user_id" r = VStr userId /\ get "name" r = VStr name.
Proof.
  intros Hempty Hid. unfold collides. rewrite existsb_exists.
  assert (Hcl : forall r, clash projects
                                (with_defaults db projects (new_project userId name toolType)) r
                          = sql_eqb (VStr (uuid (next_id db))) (get "id" r)
                            || sql_eqb (VStr userId) (get "user_id" r)
                               && sql_eqb (VStr name) (get "name" r)).
  { intros r. unfold clash, same_key. cbn [unique_keys existsb forallb].
    rewrite !andb_true_r, orb_false_r. reflexivity. }
  split.
  - intros (r & Hr & Hc). rewrite Hcl in Hc. apply orb_true_iff in Hc.
    destruct Hc as [Hk|Hk].
    + exfalso. apply (fresh_id_none _ _ Hid r Hr). symmetry. apply sql_eqb_eq. exact Hk.
    + apply andb_true_iff in Hk. destruct Hk as [H1 H2].
      exists r. split; [exact Hr|]. split; symmetry; apply sql_eqb_eq; assumption.
  - intros (r & Hr & Hu & Hn). exists r. split; [exact Hr|].
    rewrite Hcl, Hu, Hn. cbn [sql_eqb]. rewrite !jsstring_eqb_refl. apply orb_true_r.
Qed.

(** A project of the scope exists: both calls return it. *)
Lemma ensureProject_twice_found db userId toolType r rest :
  tool_projects db userId toolType = r :: rest ->
  same_entity_twice db (ensureProject userId toolType).
Proof.
  intros E. unfold same_entity_twice.
  rewrite (ensureProject_found db userId toolType r rest E).
  rewrite (ensureProject_found db userId toolType r rest E).
  exists r. split; [reflexivity|]. split; [reflexivity|]. split.
  - assert (Hin : In r (tool_projects db userId toolType)) by (rewrite E; left; reflexivity).
    apply where_In in Hin. tauto.
  - split; [left; reflexivity|]. split; reflexivity.
Qed.

(** No project of the scope and a free name: the first call creates the
    project and the second finds it. *)
Lemma ensureProject_twice_created db userId toolType :
  tool_projects db userId toolType = [] ->
  fresh_id db projects = true ->
  name_free db userId (label (getModulePrefix toolType) ++ js " 1") ->
  same_entity_twice db (ensureProject userId toolType).
Proof.
  intros E Hid Hfree. unfold same_entity_twice.
  destruct (ensureProject_not_found db userId toolType E) as [log Hrun]. cbv zeta in Hrun.
  destruct (collides projects _ (tbl_projects db)) eqn:Ec.
  - exfalso. apply (new_project_clash db userId toolType _ E Hid) in Ec.
    destruct Ec as (r & Hr & Hu & Hn). exact (Hfree r Hr Hu Hn).
  - rewrite Hrun.
    rewrite (ensureProject_found _ userId toolType _ []
               (scope_after_insert db userId _ toolType E)).
    eexists. split; [reflexivity|]. split; [reflexivity|].
    cbn [inserted with_table table tbl_projects]. split; [|split; [|split]].
    + apply in_app_iff. right. left. reflexivity.
    + right. reflexivity.
    + reflexivity.
    + reflexivity.
Qed.

Lemma ensureProject_v1_twice_found db userId toolType r rest :
  tool_projects db userId toolType = r :: rest ->
  same_entity_twice db (ensureProject_v1 userId toolType).
Proof.
  intros E. unfold same_entity_twice.
  destruct (ensureProject_v1_found db userId toolType r rest E) as (r0 & s & Ho & Hrun).
  rewrite Hrun, Hrun.
  exists r0. split; [reflexivity|]. split; [reflexivity|]. split.
  - destruct (order_by_head _ _ _ _ Ho) as [Hin _]. apply where_In in Hin. tauto.
  - split; [left; reflexivity|]. split; reflexivity.
Qed.

(** The earlier revision reads every name of the user, so that the name it
    computes is free and the project is created. *)
Lemma ensureProject_v1_creates db userId toolType :
  tool_projects db userId toolType = [] ->
  forallb has_name (tbl_projects db) = true ->
  (N.of_nat (length (tbl_projects db)) < 2 ^ 32)%N ->
  fresh_id db projects = true ->
  exists name log,
    run db_exec (ensureProject_v1 userId toolType) db
    = (Returned (DRow (with_defaults db projects (new_project userId name toolType))),
       inserted db projects (with_defaults db projects (new_project userId name toolType)),
       log).
Proof.
  intros E Hnames Hlen Hid.
  destruct (run_nextAutoName_db db projects [Eq "user_id" (VStr userId)] Project
              Hnames Hlen) as (i & Hrun & _ & Hfree & _).
  cbv zeta in Hrun, Hfree.
  exists (label Project ++ js " " ++ to_decimal i). eexists.
  unfold ensureProject_v1.
  rewrite run_try_catch, run_bind, run_await, db_exec_select.
  change (table db (q_table (latest_project userId toolType))) with (tbl_projects db).
  rewrite eval_latest_project. fold (tool_projects db userId toolType). rewrite E.
  cbn [order_by firstn as_single fst snd then_run data truthy andb].
  rewrite run_bind.
  change (project_names userId)
    with (let! l := await (Select (mkQuery projects (Some ["name"])
                                     [Eq "user_id" (VStr userId)] None None None false)) in
          names_of (data l)).
  rewrite Hrun. cbn [then_run]. rewrite run_bind, run_await, db_exec_insert by reflexivity.
  change (table db projects) with (tbl_projects db) in *.
  assert (Hc : collides projects
                 (with_defaults db projects
                    (new_project userId (label Project ++ js " " ++ to_decimal i) toolType))
                 (tbl_projects db) = false).
  { apply not_true_is_false. intros Hc.
    apply (new_project_clash db userId toolType _ E Hid) in Hc.
    destruct Hc as (r & Hr & Hu & Hn).
    apply auto_name_fresh in Hfree. apply Hfree. apply (names_in_In r); [|exact Hn].
    apply where_In. split; [exact Hr|].
    unfold matches_all. cbn [forallb filter_holds]. rewrite Hu. cbn [sql_eqb].
    rewrite jsstring_eqb_refl. reflexivity. }
  rewrite Hc. cbn [fst snd then_run error run caught_run app data project]. reflexivity.
Qed.

Lemma ensureProject_v1_twice_created db userId toolType :
  tool_projects db userId toolType = [] ->
  forallb has_name (tbl_projects db) = true ->
  (N.of_nat (length (tbl_projects db)) < 2 ^ 32)%N ->
  fresh_id db projects = true ->
  same_entity_twice db (ensureProject_v1 userId toolType).
Proof.
  intros E Hnames Hlen Hid. unfold same_entity_twice.
  destruct (ensureProject_v1_creates db userId toolType E Hnames Hlen Hid)
    as (name & log & Hrun).
  rewrite Hrun.
  destruct (ensureProject_v1_found _ userId toolType _ []
              (scope_after_insert db userId name toolType E))
    as (r0 & s & Ho & Hrun2).
  rewrite (scope_after_insert db userId name toolType E) in Ho.
  cbn [order_by insert_sorted] in Ho. injection Ho as <- <-.
  rewrite Hrun2.
  eexists. split; [reflexivity|]. split; [reflexivity|].
  cbn [inserted with_table table tbl_projects]. split; [|split; [|split]].
  - apply in_app_iff. right. left. reflexivity.
  - right. reflexivity.
  - reflexivity.
  - reflexivity.
Qed.

(** C6, counterexample.  The only project of 'u1' is a network project named
    'GFA 1'.  [ensureProject] for the tool gfa computes the name 'GFA 1'
    from the names of the gfa projects, of which there are none; the insert
    fails on the key (user_id, name) and the call returns null, the first
    time and the second: no entity is returned. *)
Lemma ensureProject_returns_no_entity :
  map (fun r => (get "id" r, get "name" r, get "tool_type" r)) (tbl_projects renamed_network)
  = [(VStr (js "id-0"), VStr (js "GFA 1"), VStr (js "network"))]
  /\ fst (run db_exec (ensureProject (js "u1") gfa) renamed_network)
     = (Returned DNull, renamed_network)
  /\ fst (run db_exec (ensureProject (js "u1") gfa)
            (exec (ensureProject (js "u1") gfa) renamed_network))
     = (Returned DNull, renamed_network).
Proof. repeat split; vm_compute; reflexivity. Qed.

(** C6, amended.  Two calls of [ensureProject] in sequence, with no other
    writer, for a user with at most one project of the tool (with several,
    the read of the current revision has no order and that of the earlier
    one may meet equal times).  The second call returns what the first
    returned and leaves the store as the first left it.  The earlier
    revision returns the same project both times; so does the current one
    when the user has a project of the tool, or has no project named
    '<prefix> 1': the project is stored, at most one row was created, and the
    second call sends no insert. *)
Theorem ensureProject_idempotent :
  forall (db : DB) (userId : jsstring) (toolType : ToolType),
    (N.of_nat (length (tbl_projects db)) < 2 ^ 32)%N ->
    forallb has_name (tbl_projects db) = true ->
    fresh_id db projects = true ->
    (length (tool_projects db userId toolType) <= 1)%nat ->
    idempotent_on db (ensureProject userId toolType)
    /\ ((tool_projects db userId toolType <> []
         \/ name_free db userId (label (getModulePrefix toolType) ++ js " 1")) ->
        same_entity_twice db (ensureProject userId toolType))
    /\ same_entity_twice db (ensureProject_v1 userId toolType).
Proof.
  intros db userId toolType Hlen Hnames Hid _. split; [|split].
  - apply ensureProject_idempotent_db.
  - intros Hcase.
    destruct (tool_projects db userId toolType) as [|r rest] eqn:E.
    + destruct Hcase as [Hne|Hfree]; [contradiction|].
      apply ensureProject_twice_created; assumption.
    + apply (ensureProject_twice_found db userId toolType r rest). exact E.
  - destruct (tool_projects db userId toolType) as [|r rest] eqn:E.
    + apply ensureProject_v1_twice_created; assumption.
    + apply (ensureProject_v1_twice_found db userId toolType r rest). exact E.
Qed.

(** ** Worked inputs *)

Example nextAutoName_fills_gap :
  run db_exec (nextAutoName (Ret [js "Result 1"; js "Result 3"]) Result) empty_db
  = (Returned (js "Result 2"), empty_db, []).
Proof. vm_compute. reflexivity. Qed.

Example nextAutoName_ignores_other_names :
  run db_exec (nextAutoName (Ret [js "Foo 1"; js "Result"]) Result) empty_db
  = (Returned (js "Result 1"), empty_db, []).
Proof. vm_compute. reflexivity. Qed.

Example nextAutoName_any_case_any_space :
  run db_exec (nextAutoName (Ret [js "RESULT  1"; js "result 02"; js "Result 3x"]) Result)
      empty_db
  = (Returned (js "Result 3"), empty_db, []).
Proof. vm_compute. reflexivity. Qed.

Example generateNameSuggestions_default :
  generateNameSuggestions (js "Plan") None = [js "Plan (2)"; js "Plan (3)"; js "Plan (4)"].
Proof. vm_compute. reflexivity. Qed.

(** The names 'Result 1' and 'Result 3' with the base 'Result'. *)
Lemma nextAutoName_smallest_missing_witness :
  (N.of_nat (length [js "Result 1"; js "Result 3"]) < 2 ^ 32)%N
  /\ exists i : N,
      run db_exec (nextAutoName (Ret [js "Result 1"; js "Result 3"]) Result) empty_db
      = (Returned (label Result ++ js " " ++ to_decimal i), empty_db, [])
      /\ (0 < i)%N
      /\ ~ taken (label Result) [js "Result 1"; js "Result 3"] i
      /\ forall j, (0 < j < i)%N -> taken (label Result) [js "Result 1"; js "Result 3"] j.
Proof.
  assert (H : (N.of_nat (length [js "Result 1"; js "Result 3"]) < 2 ^ 32)%N)
    by (vm_compute; reflexivity).
  split; [exact H|].
  exact (proj1 (nextAutoName_smallest_missing DB db_exec empty_db
                  [js "Result 1"; js "Result 3"] Result H)).
Defined.

(** The three results are those of a project of 'u1', numbered 1 to 3. *)
Lemma three_results_room : numbers_leave_room three_results (js "s1").
Proof.
  intros k Hk. vm_compute in Hk.
  destruct Hk as [<-|[<-|[<-|[]]]]; lia.
Defined.

Lemma three_results_owner : may_create three_results (js "u1") run1.
Proof.
  assert (H : owns_project three_results (js "u1") (js "p1")).
  { exists (nth 0 (tbl_projects three_results) []).
    split; [vm_compute; left; reflexivity | split; reflexivity]. }
  split; [exact H|].
  intros r Hr. exists (js "p1"). split; [|exact H].
  vm_compute in Hr. destruct Hr as [<-|[<-|[<-|[]]]]; reflexivity.
Defined.

(** A fourth result after three. *)
Lemma createResult_max_plus_one_witness :
  forallb is_result_row (tbl_outputs three_results) = true
  /\ (N.of_nat (length (tbl_outputs three_results)) < 2 ^ 32)%N
  /\ fresh_id three_results scenario_outputs = true
  /\ numbers_leave_room three_results (scenarioId run1)
  /\ may_create three_results (js "u1") run1
  /\ exists n name,
      let row := with_defaults three_results scenario_outputs
                   (new_result run1 name (VNum n)) in
      fst (run db_exec (createResult run1) three_results)
      = (Returned (DRow (project result_handle row)),
         inserted three_results scenario_outputs row)
      /\ max_plus_one (result_numbers three_results (scenarioId run1)) n
      /\ forall k, In k (result_numbers three_results (scenarioId run1)) -> (k < n)%Z.
Proof.
  assert (H1 : forallb is_result_row (tbl_outputs three_results) = true)
    by (vm_compute; reflexivity).
  assert (H2 : (N.of_nat (length (tbl_outputs three_results)) < 2 ^ 32)%N)
    by (vm_compute; reflexivity).
  assert (H3 : fresh_id three_results scenario_outputs = true)
    by (vm_compute; reflexivity).
  split; [exact H1|]. split; [exact H2|]. split; [exact H3|].
  split; [exact three_results_room|]. split; [exact three_results_owner|].
  exact (proj1 (createResult_max_plus_one three_results run1 (js "u1") H1 H2 H3
                  three_results_room three_results_owner)).
Defined.

(** 'Network 1' cannot be renamed 'GFA 1', and can be renamed 'Network 1'. *)
Lemma rename_name_conflict_witness :
  keys_ok projects (tbl_projects two_projects) = true
  /\ keys_ok scenarios (tbl_scenarios two_projects) = true
  /\ keys_ok scenario_outputs (tbl_outputs two_projects) = true
  /\ fst (run db_exec (renameProject (js "id-1") (js "GFA 1") (js "u1")) two_projects)
     = (Returned (mkRename false (Some (project_exists_message (js "GFA 1")))),
        two_projects)
  /\ fst (run db_exec (renameProject (js "id-1") (js "Network 1") (js "u1")) two_projects)
     = (Returned (mkRename true None), two_projects).
Proof.
  assert (H1 : keys_ok projects (tbl_projects two_projects) = true)
    by (vm_compute; reflexivity).
  assert (H2 : keys_ok scenarios (tbl_scenarios two_projects) = true)
    by (vm_compute; reflexivity).
  assert (H3 : keys_ok scenario_outputs (tbl_outputs two_projects) = true)
    by (vm_compute; reflexivity).
  split; [exact H1|]. split; [exact H2|]. split; [exact H3|]. split.
  - refine (proj1 (proj1 (rename_name_conflict two_projects (js "id-1") (js "GFA 1")
                            (js "u1") (js "p1") (js "s1") m_gfa H1 H2 H3))
                  (with_defaults empty_db projects
                     (new_project (js "u1") (js "GFA 1") gfa))
                  (js "id-0") _ _ _ _ _).
    + vm_compute. left. reflexivity.
    + constructor; [reflexivity | constructor].
    + reflexivity.
    + reflexivity.
    + intros E. vm_compute in E. discriminate E.
  - refine (proj1 (proj1 (proj2 (rename_name_conflict two_projects (js "id-1")
                                   (js "Network 1") (js "u1") (js "p1") (js "s1")
                                   m_gfa H1 H2 H3)))
                  (with_defaults (exec (ensureProject (js "u1") gfa) empty_db) projects
                     (new_project (js "u1") (js "Network 1") network))
                  _ _ _ _).
    + vm_compute. right. left. reflexivity.
    + constructor; [reflexivity | constructor].
    + reflexivity.
    + reflexivity.
Defined.

(** Two calls for a user without projects. *)
Lemma ensureProject_idempotent_witness :
  (N.of_nat (length (tbl_projects empty_db)) < 2 ^ 32)%N
  /\ forallb has_name (tbl_projects empty_db) = true
  /\ fresh_id empty_db projects = true
  /\ (length (tool_projects empty_db (js "u1") gfa) <= 1)%nat
  /\ name_free empty_db (js "u1") (js "GFA 1")
  /\ idempotent_on empty_db (ensureProject (js "u1") gfa)
  /\ same_entity_twice empty_db (ensureProject (js "u1") gfa)
  /\ same_entity_twice empty_db (ensureProject_v1 (js "u1") gfa).
Proof.
  assert (H1 : (N.of_nat (length (tbl_projects empty_db)) < 2 ^ 32)%N)
    by (vm_compute; reflexivity).
  assert (H2 : forallb has_name (tbl_projects empty_db) = true) by reflexivity.
  assert (H3 : fresh_id empty_db projects = true) by reflexivity.
  assert (H4 : (length (tool_projects empty_db (js "u1") gfa) <= 1)%nat)
    by (vm_compute; lia).
  assert (H5 : name_free empty_db (js "u1") (js "GFA 1")) by (intros r []).
  split; [exact H1|]. split; [exact H2|]. split; [exact H3|]. split; [exact H4|].
  split; [exact H5|].
  pose proof (ensureProject_idempotent empty_db (js "u1") gfa H1 H2 H3 H4) as H.
  split; [exact (proj1 H)|].
  split; [exact (proj1 (proj2 H) (or_intror H5)) | exact (proj2 (proj2 H))].
Defined.

(** The three results were created at three times. *)
Lemma three_results_times : distinct_times three_results (js "s1").
Proof.
  unfold distinct_times. vm_compute.
  repeat (apply NoDup_cons; split;
          [rewrite ?not_elem_of_cons; repeat split; try discriminate;
           apply not_elem_of_nil|]).
  apply NoDup_nil. exact I.
Defined.

(** Pages of the three results. *)
Lemma listResults_pages_witness :
  distinct_times three_results (js "s1")
  /\ (forall listed, most_recent_first three_results (js "s1") listed ->
                     listed = results_desc three_results (js "s1"))
  /\ forall limit offset,
      fst (run db_exec (listResults (js "s1") (mkOptions limit offset)) three_results)
      = (Returned (DRows (firstn (default 10%nat limit)
                            (skipn (default 0%nat offset)
                               (results_desc three_results (js "s1"))))),
         three_results).
Proof.
  split; [exact three_results_times|].
  pose proof (listResults_pages three_results (js "s1") three_results_times) as H.
  cbv zeta in H. split; [exact (proj1 (proj2 H)) | exact (proj1 (proj2 (proj2 H)))].
Defined.

Example listResults_most_recent_first :
  fst (fst (run db_exec (listResults (js "s1") (mkOptions (Some 2%nat) None)) three_results))
  = Returned (DRows (rev (skipn 1 (tbl_outputs three_results)))).
Proof. vm_compute. reflexivity. Qed.


Example local_history_numbers :
  fst <$> addScenarioResult
            (do_calls ∅ [AddResult (js "s1") (JNum 7) (js "t1");
                         AddResult (js "s1") (JNum 8) (js "t2")])
            (js "s1") (JNum 9) (js "t3")
  = Some 3%nat.
Proof. vm_compute. reflexivity. Qed.

(** An entry that is not JSON text. *)
Lemma getScenarioResults_defaults_witness :
  ((<[results_key (js "s1") := Text (js "{oops")]> ∅ : storage) !! results_key (js "s1") = None
   \/ (exists s, (<[results_key (js "s1") := Text (js "{oops")]> ∅ : storage)
                   !! results_key (js "s1") = Some (Text s))
   \/ (exists parsed, (<[results_key (js "s1") := Text (js "{oops")]> ∅ : storage)
                        !! results_key (js "s1") = Some (Json parsed)
                      /\ has_results parsed = false))
  /\ getScenarioResults (<[results_key (js "s1") := Text (js "{oops")]> ∅) (js "s1")
     = Entries []
  /\ getLatestResult (<[results_key (js "s1") := Text (js "{oops")]> ∅) (js "s1") = Null.
Proof.
  assert (H : (<[results_key (js "s1") := Text (js "{oops")]> ∅ : storage)
                !! results_key (js "s1") = None
              \/ (exists s, (<[results_key (js "s1") := Text (js "{oops")]> ∅ : storage)
                              !! results_key (js "s1") = Some (Text s))
              \/ (exists parsed, (<[results_key (js "s1") := Text (js "{oops")]> ∅ : storage)
                                   !! results_key (js "s1") = Some (Json parsed)
                                 /\ has_results parsed = false)).
  { right. left. exists (js "{oops"). vm_compute. reflexivity. }
  split; [exact H|].
  exact (getScenarioResults_defaults _ (js "s1") H).
Defined.

(* ================================================================== *)
(** * Further properties of the modules *)
(* ================================================================== *)

(** ** Name suggestions *)

Lemma to_decimal_inj a b : to_decimal a = to_decimal b -> a = b.
Proof.
  intros E. rewrite <- (decimal_value_to_decimal a), <- (decimal_value_to_decimal b), E.
  reflexivity.
Qed.



Lemma suggestions_from_In b n : forall i x,
  In x (suggestions_from b i n) ->
  exists j, (i <= j)%N /\ x = b ++ js " (" ++ to_decimal j ++ js ")".
Proof.
  induction n as [|n IH]; intros i x; simpl; [tauto|].
  intros [<-|H].
  - exists i. split; [lia | reflexivity].
  - destruct (IH _ _ H) as (j & Hj & ->). exists j. split; [lia | reflexivity].
Qed.




Lemma in_pattern_last base name ds :
  in_pattern base name ds -> exists d, last name = Some d /\ is_digit d = true.
Proof.
  intros (b & ws & -> & _ & _ & _ & Hne & Hds).
  destruct (last ds) as [d|] eqn:E.
  - exists d. rewrite !last_app, E. split; [reflexivity|].
    apply last_Some in E. destruct E as [l' ->].
    apply Forall_app in Hds. destruct Hds as [_ Hd]. inversion Hd; assumption.
  - apply last_None in E. contradiction.
Qed.

Lemma suggestion_outside_pattern base b j :
  match_re base (b ++ js " (" ++ to_decimal j ++ js ")") = None.
Proof.
  destruct (match_re base _) as [ds|] eqn:E; [|reflexivity].
  apply match_re_spec, in_pattern_last in E. destruct E as (d & Hl & Hd).
  rewrite !app_assoc in Hl. change (js ")") with [41%N] in Hl.
  rewrite last_snoc in Hl. injection Hl as <-. discriminate Hd.
Qed.

Lemma usedNumbers_app base l l' :
  usedNumbers base (l ++ l') = fold_left (add_name base) l' (usedNumbers base l).
Proof. rewrite !usedNumbers_fold. apply fold_left_app. Qed.

Lemma fold_add_name_outside base l acc :
  (forall n, In n l -> match_re base n = None) ->
  fold_left (add_name base) l acc = acc.
Proof.
  revert acc. induction l as [|n l IH]; intros acc H; simpl; [reflexivity|].
  unfold add_name at 2. rewrite (H n) by (simpl; tauto).
  apply IH. intros x Hx. apply H. simpl. tauto.
Qed.

(** X2.  A suggested name ends in a closing parenthesis, so it is outside
    the pattern [^base\s+(\d+)$] of every base label: names taken from the
    suggestions use up no auto-name number, and [nextAutoName] returns the
    same name with them in the list as without them. *)
Theorem suggestions_take_no_number :
  forall (St : Type) (h : Cmd -> St -> Response * St) (s : St)
         (base : BaseLabel) (baseName : jsstring) (count : option nat)
         (names : list jsstring),
    (forall n ds, In n (generateNameSuggestions baseName count) ->
                  ~ in_pattern (label base) n ds)
    /\ run h (nextAutoName (Ret (names ++ generateNameSuggestions baseName count)) base) s
       = run h (nextAutoName (Ret names) base) s.
Proof.
  intros St h s base baseName count names.
  assert (Hout : forall n, In n (generateNameSuggestions baseName count) ->
                           match_re (label base) n = None).
  { intros n Hn. apply suggestions_from_In in Hn. destruct Hn as (j & _ & ->).
    apply suggestion_outside_pattern. }
  split.
  - intros n ds Hn Hp. apply match_re_spec in Hp. rewrite (Hout n Hn) in Hp. discriminate Hp.
  - unfold nextAutoName. cbn [bind].
    rewrite usedNumbers_app, (fold_add_name_outside _ _ _ Hout).
    destruct (while_has (S (length names)) (usedNumbers (label base) names) (Fin 1))
      as [r|] eqn:E.
    + rewrite (while_has_more_fuel _ _ _ _ _ E); [reflexivity|].
      rewrite length_app. lia.
    + rewrite (while_has_spin_exact _ _ E). reflexivity.
Qed.

(** ** The auto-name is new *)

Lemma canonicalize_space c : canonicalize 32 = canonicalize c -> c = 32%N.
Proof.
  unfold canonicalize. cbn [N.leb N.compare Pos.compare Pos.compare_cont andb].
  destruct ((97 <=? c) && (c <=? 122))%N eqn:E; [|auto].
  bool_arith. lia.
Qed.

Lemma canonicalize_digit d c :
  is_digit d = true -> canonicalize d = canonicalize c -> c = d.
Proof.
  unfold is_digit, canonicalize. intros Hd.
  destruct ((97 <=? d) && (d <=? 122))%N eqn:Ed;
    destruct ((97 <=? c) && (c <=? 122))%N eqn:Ec; bool_arith; lia.
Qed.

Lemma same_up_to_case_digits ds x :
  Forall (fun c => is_digit c = true) ds -> same_up_to_case ds x -> x = ds.
Proof.
  intros Hds H. induction H as [|d c ds x Hc _ IH]; [reflexivity|].
  inversion Hds; subst. rewrite (canonicalize_digit d c), IH; auto.
Qed.

Lemma same_up_to_case_auto_name base i n :
  same_up_to_case (base ++ js " " ++ to_decimal i) n -> in_pattern base n (to_decimal i).
Proof.
  intros H. unfold same_up_to_case in H.
  apply Forall2_app_inv_l in H. destruct H as (b & rest & Hb & Hrest & ->).
  apply Forall2_app_inv_l in Hrest. destruct Hrest as (ws & ds & Hws & Hds & ->).
  change (js " ") with [32%N] in Hws.
  inversion Hws as [|? c ? ? Hc Hnil]; subst. inversion Hnil; subst.
  apply canonicalize_space in Hc. subst c.
  rewrite (same_up_to_case_digits _ _ (uint_units_digits _) Hds).
  exists b, [32%N]. split; [reflexivity|]. split; [exact Hb|].
  split; [discriminate|]. split; [repeat constructor|].
  split; [apply to_decimal_nonempty | apply uint_units_digits].
Qed.

Lemma same_up_to_case_refl a : same_up_to_case a a.
Proof. induction a; constructor; auto. Qed.

(** X3.  For fewer than 2^32 existing names, [nextAutoName] returns a name
    that is not in the list, and that differs from every name of the list
    even when the case of ASCII letters is ignored. *)
Theorem nextAutoName_is_new :
  forall (St : Type) (h : Cmd -> St -> Response * St) (s : St)
         (names : list jsstring) (base : BaseLabel),
    (N.of_nat (length names) < 2 ^ 32)%N ->
    exists name,
      run h (nextAutoName (Ret names) base) s = (Returned name, s, [])
      /\ ~ In name names
      /\ forall n, In n names -> ~ same_up_to_case name n.
Proof.
  intros St h s names base Hlen.
  destruct (while_has_smallest (label base) names Hlen) as (i & Hw & _ & Hfree & _).
  exists (label base ++ js " " ++ to_decimal i).
  split; [apply run_nextAutoName; exact Hw|].
  assert (Hci : forall n, In n names ->
                          ~ same_up_to_case (label base ++ js " " ++ to_decimal i) n).
  { intros n Hn Hs. apply Hfree. exists n, (to_decimal i). split; [exact Hn|].
    split; [apply same_up_to_case_auto_name; exact Hs | apply decimal_value_to_decimal]. }
  split; [|exact Hci].
  intros Hin. apply (Hci _ Hin). apply same_up_to_case_refl.
Qed.

(** 'Result 1', 'result 2' and 'Plan' with the base 'Result'. *)
Lemma nextAutoName_is_new_witness :
  (N.of_nat (length [js "Result 1"; js "result 2"; js "Plan"]) < 2 ^ 32)%N
  /\ exists name,
      run db_exec (nextAutoName (Ret [js "Result 1"; js "result 2"; js "Plan"]) Result)
          empty_db
      = (Returned name, empty_db, [])
      /\ ~ In name [js "Result 1"; js "result 2"; js "Plan"]
      /\ forall n, In n [js "Result 1"; js "result 2"; js "Plan"] ->
                   ~ same_up_to_case name n.
Proof.
  assert (H : (N.of_nat (length [js "Result 1"; js "result 2"; js "Plan"]) < 2 ^ 32)%N)
    by (vm_compute; reflexivity).
  split; [exact H|].
  exact (nextAutoName_is_new DB db_exec empty_db _ Result H).
Defined.

Lemma taken_same_members base names names' k :
  (forall n, In n names <-> In n names') ->
  taken base names k <-> taken base names' k.
Proof.
  intros H. unfold taken. split; intros (n & ds & Hn & Hp); exists n, ds;
    (split; [apply H; exact Hn | exact Hp]).
Qed.

(** X4.  The result of [nextAutoName] depends on which names exist, not on
    their order or on how often one is listed: two lists (of fewer than 2^32
    names) with the same members give the same name. *)
Theorem nextAutoName_set_of_names :
  forall (St : Type) (h : Cmd -> St -> Response * St) (s : St)
         (names names' : list jsstring) (base : BaseLabel),
    (N.of_nat (length names) < 2 ^ 32)%N ->
    (N.of_nat (length names') < 2 ^ 32)%N ->
    (forall n, In n names <-> In n names') ->
    run h (nextAutoName (Ret names) base) s = run h (nextAutoName (Ret names') base) s.
Proof.
  intros St h s names names' base Hlen Hlen' Hsame.
  destruct (while_has_smallest (label base) _ Hlen) as (i & Hw & Hpos & Hout & Hin).
  destruct (while_has_smallest (label base) _ Hlen') as (i' & Hw' & Hpos' & Hout' & Hin').
  rewrite (run_nextAutoName h s _ base i Hw), (run_nextAutoName h s _ base i' Hw').
  assert (i = i') as ->; [|reflexivity].
  apply (smallest_unique (taken (label base) names) (taken (label base) names') i i');
    try assumption.
  intros k. apply taken_same_members. exact Hsame.
Qed.

(** Two names, and the same two in another order with one repeated. *)
Lemma nextAutoName_set_of_names_witness :
  (N.of_nat (length [js "Result 2"; js "Result 1"]) < 2 ^ 32)%N
  /\ (N.of_nat (length [js "Result 1"; js "Result 2"; js "Result 1"]) < 2 ^ 32)%N
  /\ (forall n, In n [js "Result 2"; js "Result 1"]
                <-> In n [js "Result 1"; js "Result 2"; js "Result 1"])
  /\ run db_exec (nextAutoName (Ret [js "Result 2"; js "Result 1"]) Result) empty_db
     = run db_exec (nextAutoName (Ret [js "Result 1"; js "Result 2"; js "Result 1"]) Result)
           empty_db.
Proof.
  assert (H1 : (N.of_nat (length [js "Result 2"; js "Result 1"]) < 2 ^ 32)%N)
    by (vm_compute; reflexivity).
  assert (H2 : (N.of_nat (length [js "Result 1"; js "Result 2"; js "Result 1"]) < 2 ^ 32)%N)
    by (vm_compute; reflexivity).
  assert (H3 : forall n, In n [js "Result 2"; js "Result 1"]
                         <-> In n [js "Result 1"; js "Result 2"; js "Result 1"])
    by (intros n; simpl; tauto).
  split; [exact H1|]. split; [exact H2|]. split; [exact H3|].
  exact (nextAutoName_set_of_names DB db_exec empty_db _ _ Result H1 H2 H3).
Defined.

(** ** Listing *)

Lemma run_read_or {St} (h : Cmd -> St -> Response * St) s q (fallback : Data) :
  run h (try_catch
           (let! r := await (Select q) in
            match error r with
            | Some e => Throw (ExPg e)
            | None => Ret (data r)
            end)
           (fun _ => Ret fallback)) s
  = (Returned (match error (fst (h (Select q) s)) with
               | Some _ => fallback
               | None => data (fst (h (Select q) s))
               end),
     snd (h (Select q) s), [(Select q, fst (h (Select q) s))]).
Proof.
  rewrite run_try_catch, run_bind, run_await. cbn [then_run].
  destruct (error (fst (h (Select q) s))); reflexivity.
Qed.

Lemma read_or_answers q (fallback : Data) :
  answers_errors_with
    (try_catch
       (let! r := await (Select q) in
        match error r with
        | Some e => Throw (ExPg e)
        | None => Ret (data r)
        end)
       (fun _ => Ret fallback)) fallback.
Proof. exists q. intros St h s. apply run_read_or. Qed.

Lemma order_by_larger_first c l : StronglySorted (larger_first c) (order_by c false l).
Proof. apply order_by_descending. Qed.

Lemma order_by_smaller_first c l : StronglySorted (smaller_first c) (order_by c true l).
Proof.
  pose proof (order_by_sorted c true l) as Hs.
  induction Hs as [|x l' Hl IH Hx]; constructor; [exact IH|].
  eapply Forall_impl; [exact Hx|]. simpl. intros b Hb.
  unfold before in Hb. apply Z.leb_le in Hb. exact Hb.
Qed.

(** A listing on the database: one read, the page, nothing changed. *)
Lemma run_listing db t fs c limit offset :
  run db_exec
      (try_catch
         (let! r := await (Select (mkQuery t None fs (Some (c, false)) None
                                     (Some (Z.of_nat offset,
                                            Z.of_nat offset + Z.of_nat limit - 1)%Z)
                                     false)) in
          match error r with
          | Some e => Throw (ExPg e)
          | None => Ret (data r)
          end)
         (fun _ => Ret (DRows []))) db
  = (Returned (DRows (firstn limit (skipn offset (order_by c false (where_ fs (table db t)))))),
     db,
     [(Select (mkQuery t None fs (Some (c, false)) None
                 (Some (Z.of_nat offset, Z.of_nat offset + Z.of_nat limit - 1)%Z) false),
       mkResponse
         (DRows (firstn limit (skipn offset (order_by c false (where_ fs (table db t))))))
         None)]).
Proof.
  rewrite run_read_or, db_exec_select. cbn [fst snd q_table]. unfold eval_query.
  cbn [q_table q_columns q_filters q_order q_limit q_range q_single apply_limit apply_order].
  rewrite map_project_all, page_slice. reflexivity.
Qed.

Lemma page_of_order_by c all limit offset :
  page_of c all (firstn limit (skipn offset (order_by c false all))) limit offset.
Proof.
  exists (order_by c false all).
  split; [apply order_by_perm|]. split; [apply order_by_larger_first | reflexivity].
Qed.

Lemma page_of_members c all rows limit offset r :
  page_of c all rows limit offset -> In r rows -> In r all.
Proof.
  intros (listed & Hp & _ & ->) Hr.
  apply list_elem_of_In. rewrite <- Hp.
  apply (subseteq_drop offset), (subseteq_take limit), list_elem_of_In. exact Hr.
Qed.

Lemma page_of_length c all rows limit offset :
  page_of c all rows limit offset -> (length rows <= limit)%nat.
Proof. intros (listed & _ & _ & ->). rewrite length_take. lia. Qed.

Lemma page_of_sorted c all rows limit offset :
  page_of c all rows limit offset -> StronglySorted (larger_first c) rows.
Proof.
  intros (listed & _ & Hs & ->).
  rewrite <- (take_drop offset listed) in Hs. apply StronglySorted_app_1_r in Hs.
  rewrite <- (take_drop limit (drop offset listed)) in Hs.
  apply StronglySorted_app_1_l in Hs. exact Hs.
Qed.

Lemma eq_filter_holds c v r : matches_all [Eq c v] r = true -> get c r = v.
Proof.
  unfold matches_all. cbn [forallb filter_holds]. rewrite andb_true_r. apply sql_eqb_eq.
Qed.

(** X5.  [listProjects] and [listScenarios] read the store once and change
    nothing.  They return the page [offset, offset + limit) (limit 20 and
    offset 0 by default) of the rows of their scope, the projects of the
    user or the scenarios of the project and module, most recently updated
    first: at most [limit] rows, none from outside the scope.  With
    [listResults] they never throw: on any store an error of the request is
    answered with the empty list. *)
Theorem listings_stay_in_scope :
  forall (db : DB) (userId projectId scenario : jsstring) (module : ModuleType)
         (limit offset : option nat),
    (exists rows,
        fst (run db_exec (listProjects userId limit offset) db) = (Returned (DRows rows), db)
        /\ page_of "updated_at" (user_projects db userId) rows
                   (default 20%nat limit) (default 0%nat offset)
        /\ (length rows <= default 20%nat limit)%nat
        /\ forall r, In r rows -> In r (tbl_projects db) /\ get "user_id" r = VStr userId)
    /\ (exists rows,
           fst (run db_exec (listScenarios projectId module limit offset) db)
           = (Returned (DRows rows), db)
           /\ page_of "updated_at" (module_scenarios db projectId module) rows
                      (default 20%nat limit) (default 0%nat offset)
           /\ (length rows <= default 20%nat limit)%nat
           /\ forall r, In r rows ->
                        In r (tbl_scenarios db)
                        /\ get "project_id" r = VStr projectId
                        /\ get "module_type" r = VStr (module_name module))
    /\ answers_errors_with (listProjects userId limit offset) (DRows [])
    /\ answers_errors_with (listScenarios projectId module limit offset) (DRows [])
    /\ answers_errors_with (listResults scenario (mkOptions limit offset)) (DRows []).
Proof.
  intros db userId projectId scenario module limit offset.
  split; [|split; [|split; [|split]]].
  - eexists. split; [unfold listProjects; apply (f_equal fst (run_listing db projects _ _ _ _))|].
    pose proof (page_of_order_by "updated_at" (user_projects db userId)
                  (default 20%nat limit) (default 0%nat offset)) as Hpage.
    split; [exact Hpage|]. split; [eapply page_of_length; exact Hpage|].
    intros r Hr. apply (page_of_members _ _ _ _ _ _ Hpage) in Hr.
    apply where_In in Hr. destruct Hr as [Hin Hm]. split; [exact Hin|].
    apply eq_filter_holds. exact Hm.
  - eexists. split; [unfold listScenarios; apply (f_equal fst (run_listing db scenarios _ _ _ _))|].
    pose proof (page_of_order_by "updated_at" (module_scenarios db projectId module)
                  (default 20%nat limit) (default 0%nat offset)) as Hpage.
    split; [exact Hpage|]. split; [eapply page_of_length; exact Hpage|].
    intros r Hr. apply (page_of_members _ _ _ _ _ _ Hpage) in Hr.
    apply where_In in Hr. destruct Hr as [Hin Hm]. split; [exact Hin|].
    unfold matches_all in Hm. cbn [forallb filter_holds] in Hm.
    rewrite andb_true_r in Hm. apply andb_true_iff in Hm. destruct Hm as [H1 H2].
    split; apply sql_eqb_eq; assumption.
  - apply read_or_answers.
  - apply read_or_answers.
  - apply read_or_answers.
Qed.

(** ** Reading one result *)

Lemma where_id_none rs id :
  (forall r, In r rs -> get "id" r <> VStr id) -> where_ [Eq "id" (VStr id)] rs = [].
Proof.
  intros H. apply where_none. intros r Hr.
  destruct (matches_all [Eq "id" (VStr id)] r) eqn:E; [|reflexivity].
  apply eq_filter_holds in E. destruct (H r Hr E).
Qed.

Lemma where_id_single t rs id r :
  keys_ok t rs = true -> In r rs -> get "id" r = VStr id ->
  where_ [Eq "id" (VStr id)] rs = [r].
Proof.
  intros Hok Hin Hid. apply (where_single t rs ["id"]); try assumption.
  - apply id_key.
  - intros a b Ha Hb. apply eq_filter_holds in Ha. apply eq_filter_holds in Hb.
    unfold same_key. cbn [forallb]. rewrite Ha, Hb. cbn [sql_eqb].
    rewrite jsstring_eqb_refl. reflexivity.
  - unfold matches_all. cbn [forallb filter_holds]. rewrite Hid. cbn [sql_eqb].
    rewrite jsstring_eqb_refl. reflexivity.
Qed.

Lemma run_getResult db id :
  fst (run db_exec (getResult id) db)
  = (Returned (data (as_single (where_ [Eq "id" (VStr id)] (tbl_outputs db)))), db).
Proof.
  unfold getResult. rewrite run_read_or, db_exec_select. cbn [fst snd]. unfold eval_query.
  cbn [Q.from Q.select_all Q.eq Q.single q_table q_columns q_filters q_order q_limit
       q_range q_single table app apply_limit apply_range apply_order].
  rewrite map_project_all.
  destruct (where_ [Eq "id" (VStr id)] (tbl_outputs db)) as [|r [|r' rest]]; reflexivity.
Qed.

(** X6.  On a store that satisfies its keys, [getResult(id)] returns the
    stored result with that id, whole and unchanged, and null when no result
    has the id; it reads once and changes nothing.  On any store it does not
    throw: an error of the request is answered with null. *)
Theorem getResult_by_id :
  forall (db : DB) (id : jsstring),
    keys_ok scenario_outputs (tbl_outputs db) = true ->
    (forall r, In r (tbl_outputs db) -> get "id" r = VStr id ->
               fst (run db_exec (getResult id) db) = (Returned (DRow r), db))
    /\ ((forall r, In r (tbl_outputs db) -> get "id" r <> VStr id) ->
        fst (run db_exec (getResult id) db) = (Returned DNull, db))
    /\ answers_errors_with (getResult id) DNull.
Proof.
  intros db id Hok. split; [|split].
  - intros r Hin Hid. rewrite run_getResult.
    rewrite (where_id_single scenario_outputs _ _ _ Hok Hin Hid). reflexivity.
  - intros Hnone. rewrite run_getResult.
    rewrite (where_id_none _ _ Hnone). reflexivity.
  - apply read_or_answers.
Qed.

(** The second of three results, and an id that is not stored. *)
Lemma getResult_by_id_witness :
  let r := nth 1 (tbl_outputs three_results) [] in
  keys_ok scenario_outputs (tbl_outputs three_results) = true
  /\ fst (run db_exec (getResult (js "id-1")) three_results)
     = (Returned (DRow r), three_results)
  /\ fst (run db_exec (getResult (js "id-9")) three_results)
     = (Returned DNull, three_results).
Proof.
  assert (H : keys_ok scenario_outputs (tbl_outputs three_results) = true)
    by (vm_compute; reflexivity).
  split; [exact H|]. split.
  - apply (proj1 (getResult_by_id three_results (js "id-1") H)).
    + vm_compute. right. left. reflexivity.
    + vm_compute. reflexivity.
  - apply (proj1 (proj2 (getResult_by_id three_results (js "id-9") H))).
    intros r Hr E. vm_compute in Hr.
    destruct Hr as [<-|[<-|[<-|[]]]]; vm_compute in E; discriminate E.
Defined.

(** ** What [createResult] stores *)

Lemma createResult_named db params :
  forallb is_result_row (tbl_outputs db) = true ->
  (N.of_nat (length (tbl_outputs db)) < 2 ^ 32)%N ->
  fresh_id db scenario_outputs = true ->
  numbers_leave_room db (scenarioId params) ->
  exists n i,
    max_plus_one (result_numbers db (scenarioId params)) n
    /\ smallest_free Result (names_in (scenario_results db (scenarioId params))) i
    /\ fst (run db_exec (createResult params) db)
       = (Returned (DRow (project result_handle
                            (with_defaults db scenario_outputs
                               (new_result params (label Result ++ js " " ++ to_decimal i)
                                           (VNum n))))),
          inserted db scenario_outputs
                   (with_defaults db scenario_outputs
                      (new_result params (label Result ++ js " " ++ to_decimal i) (VNum n)))).
Proof.
  intros Htyped Hlen Hid Hroom.
  destruct (nextResultNumber_db db (scenarioId params) Htyped) as (n & Hn & Hmax).
  destruct (run_nextAutoName_db db scenario_outputs
              [Eq "scenario_id" (VStr (scenarioId params))] Result
              (is_result_row_name _ Htyped) Hlen) as (i & Hrun & Hpos & Hfree & Hbelow).
  exists n, i. split; [exact Hmax|]. split; [split; [exact Hpos|]; split; assumption|].
  unfold createResult. rewrite run_try_catch, run_bind, run_await.
  change (db_exec (Select (top_result (scenarioId params))) db)
    with (eval_query (top_result (scenarioId params)) (tbl_outputs db), db).
  cbn [fst snd then_run]. rewrite Hn.
  rewrite run_bind.
  change (result_names (scenarioId params))
    with (let! l := await (Select (mkQuery scenario_outputs (Some ["name"])
                                     [Eq "scenario_id" (VStr (scenarioId params))]
                                     None None None false)) in
          names_of (data l)).
  rewrite Hrun. cbn [then_run]. rewrite run_bind, run_await.
  rewrite db_exec_insert
    by (apply new_result_in_range, (max_plus_one_fits db (scenarioId params)); assumption).
  change (table db scenario_outputs) with (tbl_outputs db).
  rewrite new_result_fits.
  - reflexivity.
  - exact Hid.
  - apply auto_name_fresh. exact Hfree.
  - intros k Hk. eapply max_plus_one_above; eassumption.
Qed.

Lemma exec_fst {A} (p : Prog A) db o db' :
  fst (run db_exec p db) = (o, db') -> exec p db = db'.
Proof. unfold exec. intros ->. reflexivity. Qed.

(** X7.  With no other writer (a typed table of fewer than 2^32 rows and an
    unused next id), for a project of the signed-in user and a scenario
    whose numbers leave room in the INTEGER column, [createResult] appends
    one row to the results and leaves projects and scenarios alone.  The row
    holds the project, scenario and module it was given and version 1; its
    number is the maximum of the scenario plus one, or 1; its name is
    'Result i' for the smallest i that no result name of the scenario takes.
    The handle returned is the id, name and creation time of that row, and
    [getResult] of the returned id gives the row back. *)
Theorem createResult_stores_row :
  forall (db : DB) (params : ResultParams) (userId : jsstring),
    forallb is_result_row (tbl_outputs db) = true ->
    (N.of_nat (length (tbl_outputs db)) < 2 ^ 32)%N ->
    fresh_id db scenario_outputs = true ->
    numbers_leave_room db (scenarioId params) ->
    may_create db userId params ->
    exists (id : jsstring) (i : N) (n created : Z) (row : Row),
      let name := label Result ++ js " " ++ to_decimal i in
      let db1 := exec (createResult params) db in
      fst (fst (run db_exec (createResult params) db))
      = Returned (DRow [("id", VStr id); ("name", VStr name); ("created_at", VNum created)])
      /\ smallest_free Result (names_in (scenario_results db (scenarioId params))) i
      /\ max_plus_one (result_numbers db (scenarioId params)) n
      /\ tbl_outputs db1 = tbl_outputs db ++ [row]
      /\ tbl_projects db1 = tbl_projects db /\ tbl_scenarios db1 = tbl_scenarios db
      /\ map (fun c => get c row) result_scalars
         = [VStr id; VStr (projectId params); VStr (scenarioId params);
            VStr (moduleType params); VStr name; VNum n; VNum 1; VNum created]
      /\ fst (run db_exec (getResult id) db1) = (Returned (DRow row), db1).
Proof.
  intros db params userId Htyped Hlen Hid Hroom _.
  destruct (createResult_named db params Htyped Hlen Hid Hroom)
    as (n & i & Hmax & Hi & Hrun).
  set (name := label Result ++ js " " ++ to_decimal i) in *.
  set (row := with_defaults db scenario_outputs (new_result params name (VNum n))) in *.
  exists (uuid (next_id db)), i, n, (clock db), row. cbv zeta.
  rewrite (exec_fst _ _ _ _ Hrun), Hrun.
  split; [reflexivity|]. split; [exact Hi|]. split; [exact Hmax|].
  split; [reflexivity|]. split; [reflexivity|]. split; [reflexivity|].
  split; [reflexivity|].
  rewrite run_getResult. cbn [inserted with_table table tbl_outputs].
  pose proof (fresh_id_none _ _ Hid) as Hnone.
  change (table db scenario_outputs) with (tbl_outputs db) in Hnone.
  rewrite where_app, (where_id_none _ _ Hnone).
  cbn [where_ app matches_all forallb filter_holds].
  change (get "id" row) with (VStr (uuid (next_id db))). cbn [sql_eqb].
  rewrite jsstring_eqb_refl. reflexivity.
Qed.

(** A fourth result after three. *)
Lemma createResult_stores_row_witness :
  forallb is_result_row (tbl_outputs three_results) = true
  /\ (N.of_nat (length (tbl_outputs three_results)) < 2 ^ 32)%N
  /\ fresh_id three_results scenario_outputs = true
  /\ numbers_leave_room three_results (scenarioId run1)
  /\ may_create three_results (js "u1") run1
  /\ exists (id : jsstring) (i : N) (n created : Z) (row : Row),
      let name := label Result ++ js " " ++ to_decimal i in
      let db1 := exec (createResult run1) three_results in
      fst (fst (run db_exec (createResult run1) three_results))
      = Returned (DRow [("id", VStr id); ("name", VStr name); ("created_at", VNum created)])
      /\ smallest_free Result (names_in (scenario_results three_results (scenarioId run1))) i
      /\ max_plus_one (result_numbers three_results (scenarioId run1)) n
      /\ tbl_outputs db1 = tbl_outputs three_results ++ [row]
      /\ tbl_projects db1 = tbl_projects three_results
      /\ tbl_scenarios db1 = tbl_scenarios three_results
      /\ map (fun c => get c row) result_scalars
         = [VStr id; VStr (projectId run1); VStr (scenarioId run1);
            VStr (moduleType run1); VStr name; VNum n; VNum 1; VNum created]
      /\ fst (run db_exec (getResult id) db1) = (Returned (DRow row), db1).
Proof.
  assert (H1 : forallb is_result_row (tbl_outputs three_results) = true)
    by (vm_compute; reflexivity).
  assert (H2 : (N.of_nat (length (tbl_outputs three_results)) < 2 ^ 32)%N)
    by (vm_compute; reflexivity).
  assert (H3 : fresh_id three_results scenario_outputs = true)
    by (vm_compute; reflexivity).
  split; [exact H1|]. split; [exact H2|]. split; [exact H3|].
  split; [exact three_results_room|]. split; [exact three_results_owner|].
  exact (createResult_stores_row three_results run1 (js "u1") H1 H2 H3
           three_results_room three_results_owner).
Defined.

(** ** The context's reads of results *)

Lemma eval_latest_output scenario rows :
  eval_query (latest_output scenario) rows
  = as_single (map (project (Some ["output_data"; "result_number"]))
                 (firstn 1 (order_by "result_number" false
                              (where_ [Eq "scenario_id" (VStr scenario)] rows)))).
Proof. reflexivity. Qed.

Lemma run_loadScenarioOutput {St} (h : Cmd -> St -> Response * St) s scenario :
  run h (loadScenarioOutput scenario) s
  = (Returned (match error (fst (h (Select (latest_output scenario)) s)),
                     data (fst (h (Select (latest_output scenario)) s)) with
               | None, DRow d => get "output_data" d
               | _, _ => VNull
               end),
     snd (h (Select (latest_output scenario)) s),
     [(Select (latest_output scenario), fst (h (Select (latest_output scenario)) s))]).
Proof.
  unfold loadScenarioOutput. rewrite run_bind, run_await. cbn [then_run].
  destruct (error (fst (h _ s))); [reflexivity|].
  destruct (data (fst (h _ s))); reflexivity.
Qed.

Lemma run_loadScenarioOutputByVersion {St} (h : Cmd -> St -> Response * St) s scenario n :
  run h (loadScenarioOutputByVersion scenario n) s
  = (Returned (match error (fst (h (Select (output_by_version scenario n)) s)),
                     data (fst (h (Select (output_by_version scenario n)) s)) with
               | None, DRow d => get "output_data" d
               | _, _ => VNull
               end),
     snd (h (Select (output_by_version scenario n)) s),
     [(Select (output_by_version scenario n),
       fst (h (Select (output_by_version scenario n)) s))]).
Proof.
  unfold loadScenarioOutputByVersion. rewrite run_bind, run_await. cbn [then_run].
  destruct (error (fst (h _ s))); [reflexivity|].
  destruct (data (fst (h _ s))); reflexivity.
Qed.

Lemma loadScenarioOutput_db db scenario :
  fst (run db_exec (loadScenarioOutput scenario) db)
  = (Returned (match order_by "result_number" false (scenario_results db scenario) with
               | r :: _ => get "output_data" r
               | [] => VNull
               end), db).
Proof.
  rewrite run_loadScenarioOutput, db_exec_select. cbn [fst snd].
  change (table db (q_table (latest_output scenario))) with (tbl_outputs db).
  rewrite eval_latest_output. fold (scenario_results db scenario).
  destruct (order_by "result_number" false (scenario_results db scenario)) as [|r rest];
    [reflexivity|].
  destruct rest; reflexivity.
Qed.

(** X8.  [loadScenarioOutput] returns null for a scenario without results,
    and otherwise the [output_data] of a result of the scenario whose
    [result_number] is the largest; the store is unchanged.  On any store it
    sends one request, returns, and answers an error with null. *)
Theorem loadScenarioOutput_latest :
  forall (db : DB) (scenario : jsstring),
    (scenario_results db scenario = [] ->
     fst (run db_exec (loadScenarioOutput scenario) db) = (Returned VNull, db))
    /\ (scenario_results db scenario <> [] ->
        exists r,
          In r (scenario_results db scenario)
          /\ is_max (result_number_of r) (result_numbers db scenario)
          /\ fst (run db_exec (loadScenarioOutput scenario) db)
             = (Returned (get "output_data" r), db))
    /\ forall (St : Type) (h : Cmd -> St -> Response * St) (s : St),
        exists v request answer,
          run h (loadScenarioOutput scenario) s
          = (Returned v, snd (h request s), [(request, answer)])
          /\ (error answer <> None -> v = VNull).
Proof.
  intros db scenario. split; [|split].
  - intros E. rewrite loadScenarioOutput_db, E. reflexivity.
  - intros Hne. rewrite loadScenarioOutput_db.
    destruct (order_by "result_number" false (scenario_results db scenario))
      as [|r rest] eqn:E.
    + apply order_by_nil in E. contradiction.
    + destruct (order_by_head _ _ _ _ E) as [Hin Hmax]. exists r.
      split; [exact Hin|]. split; [exact Hmax | reflexivity].
  - intros St h s. rewrite run_loadScenarioOutput.
    eexists _, _, _. split; [reflexivity|].
    destruct (error (fst (h _ s))); [reflexivity | congruence].
Qed.

(** A row above all others comes first in descending order. *)
Lemma order_by_snoc_top c l r :
  (forall x, In x l -> (order_key c x < order_key c r)%Z) ->
  order_by c false (l ++ [r]) = r :: order_by c false l.
Proof.
  induction l as [|x l IH]; intros H; [reflexivity|].
  cbn [app order_by]. rewrite IH by (intros y Hy; apply H; simpl; tauto).
  cbn [insert_sorted]. unfold before.
  assert (Hx : (order_key c x < order_key c r)%Z) by (apply H; simpl; tauto).
  destruct (Z.leb_spec (order_key c r) (order_key c x)); [lia | reflexivity].
Qed.

Lemma scenario_results_inserted db params name n :
  scenario_results (inserted db scenario_outputs
                      (with_defaults db scenario_outputs (new_result params name (VNum n))))
                   (scenarioId params)
  = scenario_results db (scenarioId params)
      ++ [with_defaults db scenario_outputs (new_result params name (VNum n))].
Proof.
  unfold scenario_results. cbn [inserted with_table table tbl_outputs].
  rewrite where_app. f_equal. cbn [where_ matches_all forallb filter_holds].
  change (get "scenario_id" (with_defaults db scenario_outputs (new_result params name (VNum n))))
    with (VStr (scenarioId params)).
  cbn [sql_eqb]. rewrite jsstring_eqb_refl. reflexivity.
Qed.

Lemma run_loadByVersion_db db scenario n :
  fst (run db_exec (loadScenarioOutputByVersion scenario n) db)
  = (Returned (match where_ [Eq "scenario_id" (VStr scenario); Eq "result_number" (VNum n)]
                            (tbl_outputs db) with
               | [r] => get "output_data" r
               | _ => VNull
               end), db).
Proof.
  rewrite run_loadScenarioOutputByVersion, db_exec_select. cbn [fst snd]. unfold eval_query.
  cbn [output_by_version Q.from Q.select Q.eq Q.single q_table q_columns q_filters q_order
       q_limit q_range q_single table app apply_limit apply_range apply_order].
  destruct (where_ _ (tbl_outputs db)) as [|r [|r' rest]]; reflexivity.
Qed.

Lemma number_filter_in db scenario n r :
  In r (tbl_outputs db) ->
  matches_all [Eq "scenario_id" (VStr scenario); Eq "result_number" (VNum n)] r = true ->
  In r (scenario_results db scenario) /\ get "result_number" r = VNum n.
Proof.
  intros Hin Hm. unfold matches_all in Hm. cbn [forallb filter_holds] in Hm.
  rewrite andb_true_r in Hm. apply andb_true_iff in Hm. destruct Hm as [H1 H2].
  split; [|apply sql_eqb_eq; exact H2].
  apply where_In. split; [exact Hin|].
  unfold matches_all. cbn [forallb filter_holds]. rewrite H1. reflexivity.
Qed.

(** X9.  The result [createResult] saved is the one the context loads.
    With no other writer, for a project of the signed-in user and a
    scenario whose numbers leave room in the INTEGER column: after
    [createResult(params)] the row it stored, numbered maximum plus one, is
    the latest of the scenario, and both [loadScenarioOutput] of the scenario
    and [loadScenarioOutputByVersion] with that number return the
    [output_data] of that row. *)
Theorem saved_output_is_loaded :
  forall (db : DB) (params : ResultParams) (userId : jsstring),
    forallb is_result_row (tbl_outputs db) = true ->
    (N.of_nat (length (tbl_outputs db)) < 2 ^ 32)%N ->
    fresh_id db scenario_outputs = true ->
    numbers_leave_room db (scenarioId params) ->
    may_create db userId params ->
    let db1 := exec (createResult params) db in
    exists (row : Row) (n : Z),
      tbl_outputs db1 = tbl_outputs db ++ [row]
      /\ get "scenario_id" row = VStr (scenarioId params)
      /\ get "result_number" row = VNum n
      /\ max_plus_one (result_numbers db (scenarioId params)) n
      /\ fst (run db_exec (loadScenarioOutput (scenarioId params)) db1)
         = (Returned (get "output_data" row), db1)
      /\ fst (run db_exec (loadScenarioOutputByVersion (scenarioId params) n) db1)
         = (Returned (get "output_data" row), db1).
Proof.
  intros db params userId Htyped Hlen Hid Hroom _ db1.
  destruct (createResult_named db params Htyped Hlen Hid Hroom)
    as (n & i & Hmax & _ & Hrun).
  set (name := label Result ++ js " " ++ to_decimal i) in *.
  set (row := with_defaults db scenario_outputs (new_result params name (VNum n))) in *.
  assert (Hdb1 : db1 = inserted db scenario_outputs row) by (apply (exec_fst _ _ _ _ Hrun)).
  assert (Habove : forall x, In x (scenario_results db (scenarioId params)) ->
                             (order_key "result_number" x < order_key "result_number" row)%Z).
  { intros x Hx. change (order_key "result_number" row) with n.
    apply (max_plus_one_above _ _ _ Hmax). unfold result_numbers.
    apply in_map. exact Hx. }
  exists row, n. rewrite Hdb1.
  split; [reflexivity|]. split; [reflexivity|]. split; [reflexivity|].
  split; [exact Hmax|]. split.
  - rewrite loadScenarioOutput_db. unfold row. rewrite scenario_results_inserted.
    fold row. rewrite order_by_snoc_top by exact Habove. reflexivity.
  - rewrite run_loadByVersion_db. cbn [inserted with_table table tbl_outputs].
    rewrite where_app.
    assert (Hnone : where_ [Eq "scenario_id" (VStr (scenarioId params));
                            Eq "result_number" (VNum n)] (tbl_outputs db) = []).
    { apply where_none. intros r Hr.
      destruct (matches_all _ r) eqn:E; [|reflexivity].
      destruct (number_filter_in db _ _ _ Hr E) as [Hs Hn].
      specialize (Habove r Hs). unfold order_key in Habove at 1. rewrite Hn in Habove.
      change (order_key "result_number" row) with n in Habove. lia. }
    rewrite Hnone. cbn [app where_ matches_all forallb filter_holds].
    change (get "scenario_id" row) with (VStr (scenarioId params)).
    change (get "result_number" row) with (VNum n).
    cbn [sql_eqb]. rewrite jsstring_eqb_refl, Z.eqb_refl. reflexivity.
Qed.

(** A first result for the scenario 's1'. *)
Lemma saved_output_is_loaded_witness :
  let db1 := exec (createResult run1) one_project in
  forallb is_result_row (tbl_outputs one_project) = true
  /\ (N.of_nat (length (tbl_outputs one_project)) < 2 ^ 32)%N
  /\ fresh_id one_project scenario_outputs = true
  /\ numbers_leave_room one_project (scenarioId run1)
  /\ may_create one_project (js "u1") run1
  /\ exists (row : Row) (n : Z),
      tbl_outputs db1 = tbl_outputs one_project ++ [row]
      /\ get "scenario_id" row = VStr (scenarioId run1)
      /\ get "result_number" row = VNum n
      /\ max_plus_one (result_numbers one_project (scenarioId run1)) n
      /\ fst (run db_exec (loadScenarioOutput (scenarioId run1)) db1)
         = (Returned (get "output_data" row), db1)
      /\ fst (run db_exec (loadScenarioOutputByVersion (scenarioId run1) n) db1)
         = (Returned (get "output_data" row), db1).
Proof.
  cbv zeta.
  assert (H1 : forallb is_result_row (tbl_outputs one_project) = true) by reflexivity.
  assert (H2 : (N.of_nat (length (tbl_outputs one_project)) < 2 ^ 32)%N)
    by (vm_compute; reflexivity).
  assert (H3 : fresh_id one_project scenario_outputs = true) by reflexivity.
  assert (H4 : numbers_leave_room one_project (scenarioId run1)) by (intros k []).
  assert (H5 : may_create one_project (js "u1") run1).
  { split; [|intros r []].
    exists (nth 0 (tbl_projects one_project) []).
    split; [left; reflexivity | split; reflexivity]. }
  split; [exact H1|]. split; [exact H2|]. split; [exact H3|].
  split; [exact H4|]. split; [exact H5|].
  exact (saved_output_is_loaded one_project run1 (js "u1") H1 H2 H3 H4 H5).
Defined.

(** X10.  On a store that satisfies its keys,
    [loadScenarioOutputByVersion(scenarioId, n)] returns the [output_data] of
    the result of the scenario numbered [n], and null when the scenario has
    no result with that number; the store is unchanged. *)
Theorem loadScenarioOutputByVersion_finds :
  forall (db : DB) (scenario : jsstring) (n : Z),
    keys_ok scenario_outputs (tbl_outputs db) = true ->
    (forall r, In r (scenario_results db scenario) -> get "result_number" r = VNum n ->
               fst (run db_exec (loadScenarioOutputByVersion scenario n) db)
               = (Returned (get "output_data" r), db))
    /\ ((forall r, In r (scenario_results db scenario) -> get "result_number" r <> VNum n) ->
        fst (run db_exec (loadScenarioOutputByVersion scenario n) db) = (Returned VNull, db)).
Proof.
  intros db scenario n Hok. split.
  - intros r Hr Hn. rewrite run_loadByVersion_db.
    apply where_In in Hr. destruct Hr as [Hin Hs]. apply eq_filter_holds in Hs.
    rewrite (where_single scenario_outputs (tbl_outputs db) ["scenario_id"; "result_number"]
               _ r Hok).
    + reflexivity.
    + simpl. tauto.
    + intros a b Ha Hb. unfold matches_all in Ha, Hb. cbn [forallb filter_holds] in Ha, Hb.
      rewrite andb_true_r in Ha, Hb.
      apply andb_true_iff in Ha. apply andb_true_iff in Hb.
      destruct Ha as [Ha1 Ha2], Hb as [Hb1 Hb2].
      unfold same_key. cbn [forallb].
      rewrite (sql_eqb_both _ _ _ Ha1 Hb1), (sql_eqb_both _ _ _ Ha2 Hb2). reflexivity.
    + exact Hin.
    + unfold matches_all. cbn [forallb filter_holds]. rewrite Hs, Hn. cbn [sql_eqb].
      rewrite jsstring_eqb_refl, Z.eqb_refl. reflexivity.
  - intros Hnone. rewrite run_loadByVersion_db.
    rewrite where_none; [reflexivity|]. intros r Hr.
    destruct (matches_all _ r) eqn:E; [|reflexivity].
    destruct (number_filter_in db _ _ _ Hr E) as [Hs Hn]. destruct (Hnone r Hs Hn).
Qed.

(** The second of three results, and a number that was not given. *)
Lemma loadScenarioOutputByVersion_finds_witness :
  let r := nth 1 (tbl_outputs three_results) [] in
  keys_ok scenario_outputs (tbl_outputs three_results) = true
  /\ fst (run db_exec (loadScenarioOutputByVersion (js "s1") 2) three_results)
     = (Returned (get "output_data" r), three_results)
  /\ fst (run db_exec (loadScenarioOutputByVersion (js "s1") 7) three_results)
     = (Returned VNull, three_results).
Proof.
  assert (H : keys_ok scenario_outputs (tbl_outputs three_results) = true)
    by (vm_compute; reflexivity).
  split; [exact H|]. split.
  - apply (proj1 (loadScenarioOutputByVersion_finds three_results (js "s1") 2 H)).
    + vm_compute. right. left. reflexivity.
    + vm_compute. reflexivity.
  - apply (proj2 (loadScenarioOutputByVersion_finds three_results (js "s1") 7 H)).
    intros r Hr E. vm_compute in Hr.
    destruct Hr as [<-|[<-|[<-|[]]]]; vm_compute in E; discriminate E.
Defined.

(** ** All results of a scenario *)

Lemma run_loadAll_db db scenario :
  fst (run db_exec (loadAllScenarioOutputs scenario) db)
  = (Returned (DRows (order_by "result_number" true (scenario_results db scenario))), db).
Proof.
  unfold loadAllScenarioOutputs. rewrite run_bind, run_await, db_exec_select.
  cbn [fst snd then_run]. unfold eval_query.
  cbn [Q.from Q.select_all Q.eq Q.order q_table q_columns q_filters q_order
       q_limit q_range q_single table app apply_limit apply_range apply_order].
  rewrite map_project_all. reflexivity.
Qed.

Lemma last_is_largest c l r :
  StronglySorted (smaller_first c) l -> last l = Some r ->
  forall x, In x l -> (order_key c x <= order_key c r)%Z.
Proof.
  intros Hs Hl x Hx. apply last_Some in Hl. destruct Hl as [l' ->].
  apply in_app_iff in Hx. destruct Hx as [Hx|[<-|[]]]; [|lia].
  apply (StronglySorted_app_1_elem_of _ _ _ x r Hs); [apply list_elem_of_In; exact Hx|].
  apply list_elem_of_In. simpl. tauto.
Qed.

(** X11.  On a typed store that satisfies its keys,
    [loadAllScenarioOutputs] returns every result of the scenario, each
    once, in ascending [result_number] order, and changes nothing.  The last
    row, which the results view shows as the latest, has the largest number
    and is the result whose data [loadScenarioOutput] returns. *)
Theorem loadAllScenarioOutputs_ascending :
  forall (db : DB) (scenario : jsstring),
    keys_ok scenario_outputs (tbl_outputs db) = true ->
    forallb is_result_row (tbl_outputs db) = true ->
    exists rows,
      fst (run db_exec (loadAllScenarioOutputs scenario) db) = (Returned (DRows rows), db)
      /\ rows ≡ₚ scenario_results db scenario
      /\ StronglySorted (smaller_first "result_number") rows
      /\ forall r, last rows = Some r ->
           is_max (result_number_of r) (result_numbers db scenario)
           /\ fst (run db_exec (loadScenarioOutput scenario) db)
              = (Returned (get "output_data" r), db).
Proof.
  intros db scenario Hok Htyped.
  exists (order_by "result_number" true (scenario_results db scenario)).
  split; [apply run_loadAll_db|]. split; [apply order_by_perm|].
  split; [apply order_by_smaller_first|].
  intros r Hlast.
  assert (Hmem : forall x, In x (order_by "result_number" true (scenario_results db scenario))
                           <-> In x (scenario_results db scenario)).
  { intros x. rewrite <- !list_elem_of_In, order_by_perm. reflexivity. }
  assert (Hr : In r (scenario_results db scenario)).
  { apply Hmem. apply last_Some in Hlast. destruct Hlast as [l' ->].
    apply in_app_iff. simpl. tauto. }
  assert (Hmax : is_max (result_number_of r) (result_numbers db scenario)).
  { split; [apply in_map; exact Hr|].
    intros k Hk. apply in_map_iff in Hk. destruct Hk as (x & <- & Hx).
    apply (last_is_largest "result_number" _ r (order_by_smaller_first _ _) Hlast).
    apply Hmem. exact Hx. }
  split; [exact Hmax|].
  rewrite loadScenarioOutput_db.
  destruct (order_by "result_number" false (scenario_results db scenario))
    as [|r0 rest] eqn:E.
  { apply order_by_nil in E. rewrite E in Hr. destruct Hr. }
  destruct (order_by_head _ _ _ _ E) as [Hr0 [_ Hmax0]].
  assert (r0 = r) as ->; [|reflexivity].
  assert (Hkey : order_key "result_number" r0 = order_key "result_number" r).
  { destruct Hmax as [_ Hle]. apply Z.le_antisymm.
    - apply Hle. apply in_map. exact Hr0.
    - apply Hmax0. apply in_map. exact Hr. }
  apply where_In in Hr. apply where_In in Hr0.
  destruct Hr as [Hin Hs], Hr0 as [Hin0 Hs0].
  apply eq_filter_holds in Hs. apply eq_filter_holds in Hs0.
  apply (keys_ok_inj scenario_outputs (tbl_outputs db) ["scenario_id"; "result_number"]);
    try assumption; [simpl; tauto|].
  pose proof (forallb_In _ _ _ Htyped Hin) as Ht. pose proof (forallb_In _ _ _ Htyped Hin0) as Ht0.
  unfold is_result_row in Ht, Ht0. unfold order_key in Hkey.
  destruct (get "result_number" r) as [| |k|] eqn:Ek; try discriminate.
  destruct (get "result_number" r0) as [| |k0|] eqn:Ek0; try discriminate.
  unfold same_key. cbn [forallb]. rewrite Hs, Hs0, Ek, Ek0. cbn [sql_eqb].
  rewrite jsstring_eqb_refl, Hkey, Z.eqb_refl. reflexivity.
Qed.

(** The three results. *)
Lemma loadAllScenarioOutputs_ascending_witness :
  keys_ok scenario_outputs (tbl_outputs three_results) = true
  /\ forallb is_result_row (tbl_outputs three_results) = true
  /\ exists rows,
      fst (run db_exec (loadAllScenarioOutputs (js "s1")) three_results)
      = (Returned (DRows rows), three_results)
      /\ rows ≡ₚ scenario_results three_results (js "s1")
      /\ StronglySorted (smaller_first "result_number") rows
      /\ forall r, last rows = Some r ->
           is_max (result_number_of r) (result_numbers three_results (js "s1"))
           /\ fst (run db_exec (loadScenarioOutput (js "s1")) three_results)
              = (Returned (get "output_data" r), three_results).
Proof.
  assert (H1 : keys_ok scenario_outputs (tbl_outputs three_results) = true)
    by (vm_compute; reflexivity).
  assert (H2 : forallb is_result_row (tbl_outputs three_results) = true)
    by (vm_compute; reflexivity).
  split; [exact H1|]. split; [exact H2|].
  exact (loadAllScenarioOutputs_ascending three_results (js "s1") H1 H2).
Defined.

(** ** Ensuring a scenario *)

Lemma eval_latest_scenario projectId moduleType rows :
  eval_query (latest_scenario projectId moduleType) rows
  = as_single (firstn 1 (order_by "updated_at" false
                           (where_ [Eq "project_id" (VStr projectId);
                                    Eq "module_type" (VStr (module_name moduleType))] rows))).
Proof.
  unfold eval_query, latest_scenario.
  cbn [Q.from Q.select_all Q.eq Q.order Q.limit Q.single q_table q_columns q_filters
       q_order q_limit q_range q_single app apply_limit apply_range apply_order].
  rewrite map_project_all. reflexivity.
Qed.

Lemma ensureScenario_found db projectId userId moduleType r rest :
  order_by "updated_at" false (module_scenarios db projectId moduleType) = r :: rest ->
  run db_exec (ensureScenario projectId userId moduleType) db
  = (Returned (DRow r), db,
     [(Select (latest_scenario projectId moduleType), mkResponse (DRow r) None)]).
Proof.
  intros E. unfold ensureScenario.
  rewrite run_try_catch, run_bind, run_await, db_exec_select.
  change (table db (q_table (latest_scenario projectId moduleType))) with (tbl_scenarios db).
  rewrite eval_latest_scenario. fold (module_scenarios db projectId moduleType).
  rewrite E. reflexivity.
Qed.

Lemma order_by_most_recent rs r rest :
  order_by "updated_at" false rs = r :: rest -> most_recent r rs.
Proof.
  intros E. destruct (order_by_head _ _ _ _ E) as [Hin [_ Hmax]].
  split; [exact Hin|]. intros x Hx. apply Hmax. apply in_map. exact Hx.
Qed.

(** X12.  When the scope holds an entity, an ensure function returns one
    after a single read and writes nothing: [ensureScenario] and the earlier
    [ensureProject] return a most recently updated one, the current
    [ensureProject], which reads without an order, one of the projects of
    the tool. *)
Theorem ensure_returns_existing :
  forall (db : DB) (projectId userId : jsstring) (module : ModuleType)
         (toolType : ToolType),
    (module_scenarios db projectId module <> [] ->
     exists r,
       run db_exec (ensureScenario projectId userId module) db
       = (Returned (DRow r), db,
          [(Select (latest_scenario projectId module), mkResponse (DRow r) None)])
       /\ most_recent r (module_scenarios db projectId module))
    /\ (tool_projects db userId toolType <> [] ->
        exists r,
          run db_exec (ensureProject_v1 userId toolType) db
          = (Returned (DRow r), db,
             [(Select (latest_project userId toolType), mkResponse (DRow r) None)])
          /\ most_recent r (tool_projects db userId toolType))
    /\ (tool_projects db userId toolType <> [] ->
        exists r,
          run db_exec (ensureProject userId toolType) db
          = (Returned (DRow r), db,
             [(Select (first_project userId toolType), mkResponse (DRow r) None)])
          /\ In r (tool_projects db userId toolType)).
Proof.
  intros db projectId userId module toolType. split; [|split].
  - intros Hne.
    destruct (order_by "updated_at" false (module_scenarios db projectId module))
      as [|r rest] eqn:E.
    + apply order_by_nil in E. contradiction.
    + exists r. split; [apply (ensureScenario_found _ _ _ _ _ rest); exact E|].
      apply (order_by_most_recent _ _ rest). exact E.
  - intros Hne.
    destruct (tool_projects db userId toolType) as [|r0 rest0] eqn:E0; [contradiction|].
    destruct (ensureProject_v1_found db userId toolType r0 rest0 E0) as (r & s & Ho & Hrun).
    exists r. split; [exact Hrun|].
    fold (tool_projects db userId toolType) in Ho. rewrite E0 in Ho.
    apply (order_by_most_recent _ _ s). exact Ho.
  - intros Hne.
    destruct (tool_projects db userId toolType) as [|r rest] eqn:E; [contradiction|].
    exists r. split; [|left; reflexivity].
    apply (ensureProject_found db userId toolType r rest). exact E.
Qed.

(** A new row of an empty scope can only clash on its id. *)
Lemma new_scenario_fits db projectId userId moduleType name :
  module_scenarios db projectId moduleType = [] ->
  fresh_id db scenarios = true ->
  collides scenarios
           (with_defaults db scenarios (new_scenario projectId userId moduleType name))
           (tbl_scenarios db) = false.
Proof.
  intros Hempty Hid. apply not_true_is_false. intros Hc.
  unfold collides in Hc. apply existsb_exists in Hc. destruct Hc as (r' & Hr' & Hcl).
  unfold clash, same_key in Hcl. cbn [unique_keys existsb forallb] in Hcl.
  change (get "id" (with_defaults db scenarios (new_scenario projectId userId moduleType name)))
    with (VStr (uuid (next_id db))) in Hcl.
  change (get "project_id" (with_defaults db scenarios
                              (new_scenario projectId userId moduleType name)))
    with (VStr projectId) in Hcl.
  change (get "module_type" (with_defaults db scenarios
                               (new_scenario projectId userId moduleType name)))
    with (VStr (module_name moduleType)) in Hcl.
  rewrite !andb_true_r, orb_false_r in Hcl.
  apply orb_true_iff in Hcl. destruct Hcl as [Hk|Hk].
  - apply (fresh_id_none _ _ Hid r' Hr'). symmetry. apply sql_eqb_eq. exact Hk.
  - apply andb_true_iff in Hk. destruct Hk as [H1 Hk].
    apply andb_true_iff in Hk. destruct Hk as [H2 _].
    assert (In r' (module_scenarios db projectId moduleType)) as Hin; [|rewrite Hempty in Hin; destruct Hin].
    apply where_In. split; [exact Hr'|].
    unfold matches_all. cbn [forallb filter_holds].
    rewrite sql_eqb_sym, H1, sql_eqb_sym, H2. reflexivity.
Qed.

(** Nothing in the scope: one scenario named 'Scenario 1' is created, unless
    the next id is in use, in which case nothing changes and null is
    returned. *)
Lemma ensureScenario_not_found db projectId userId moduleType :
  module_scenarios db projectId moduleType = [] ->
  let row := with_defaults db scenarios
               (new_scenario projectId userId moduleType (label Scenario ++ js " 1")) in
  exists log,
    run db_exec (ensureScenario projectId userId moduleType) db
    = (if collides scenarios row (tbl_scenarios db)
       then (Returned DNull, db, log)
       else (Returned (DRow row), inserted db scenarios row, log))
    /\ inserts log = (if collides scenarios row (tbl_scenarios db) then 2 else 1)%nat.
Proof.
  intros E row. unfold ensureScenario.
  rewrite run_try_catch, run_bind, run_await, db_exec_select.
  change (table db (q_table (latest_scenario projectId moduleType))) with (tbl_scenarios db).
  rewrite eval_latest_scenario. fold (module_scenarios db projectId moduleType). rewrite E.
  cbn [order_by firstn as_single fst snd then_run data truthy andb].
  rewrite run_bind.
  change (scenario_names projectId moduleType)
    with (let! l := await (Select (mkQuery scenarios (Some ["name"])
                                     [Eq "project_id" (VStr projectId);
                                      Eq "module_type" (VStr (module_name moduleType))]
                                     None None None false)) in
          names_of (data l)).
  rewrite (run_nextAutoName_none db scenarios _ _ E).
  cbn [then_run]. rewrite run_bind, run_await, db_exec_insert by reflexivity.
  fold row. change (table db scenarios) with (tbl_scenarios db).
  destruct (collides scenarios row (tbl_scenarios db)) eqn:Ec.
  - cbn [fst snd then_run error].
    change (is_unique_violation unique_violation) with true. cbn iota.
    rewrite run_bind, (run_nextAutoName_none db scenarios _ _ E).
    cbn [then_run]. rewrite run_bind, run_await, db_exec_insert by reflexivity.
    fold row. change (table db scenarios) with (tbl_scenarios db). rewrite Ec.
    cbn [fst snd then_run error run caught_run app]. eexists. split; reflexivity.
  - cbn [fst snd then_run error run caught_run app data project]. eexists. split; reflexivity.
Qed.


(** X13.  When the project has no scenario of the module and the next id is
    unused, [ensureScenario] sends one insert and returns the new row: named
    'Scenario 1', with status 'pending', no description, the given project,
    user and module, appended to the scenarios; nothing else changes. *)
Theorem ensureScenario_creates_first :
  forall (db : DB) (projectId userId : jsstring) (module : ModuleType),
    module_scenarios db projectId module = [] ->
    fresh_id db scenarios = true ->
    exists (row : Row) (log : list (Cmd * Response)),
      run db_exec (ensureScenario projectId userId module) db
      = (Returned (DRow row),
         mkDB (tbl_projects db) (tbl_scenarios db ++ [row]) (tbl_outputs db)
              (next_id db + 1) (clock db + 1),
         log)
      /\ inserts log = 1%nat
      /\ map (fun c => get c row) scenario_columns
         = [VStr (uuid (next_id db)); VStr projectId; VStr userId;
            VStr (module_name module); VStr (js "Scenario 1"); VNull;
            VStr (js "pending"); VNum (clock db); VNum (clock db)].
Proof.
  intros db projectId userId module Hempty Hid.
  destruct (ensureScenario_not_found db projectId userId module Hempty) as (log & Hrun & Hins).
  cbv zeta in Hrun, Hins.
  rewrite (new_scenario_fits db projectId userId module _ Hempty Hid) in Hrun, Hins.
  eexists _, log. split; [exact Hrun|]. split; [exact Hins | reflexivity].
Qed.

(** The first scenario of a project in the empty store. *)
Lemma ensureScenario_creates_first_witness :
  module_scenarios empty_db (js "p1") m_gfa = []
  /\ fresh_id empty_db scenarios = true
  /\ exists (row : Row) (log : list (Cmd * Response)),
      run db_exec (ensureScenario (js "p1") (js "u1") m_gfa) empty_db
      = (Returned (DRow row),
         mkDB (tbl_projects empty_db) (tbl_scenarios empty_db ++ [row]) (tbl_outputs empty_db)
              (next_id empty_db + 1) (clock empty_db + 1),
         log)
      /\ inserts log = 1%nat
      /\ map (fun c => get c row) scenario_columns
         = [VStr (uuid (next_id empty_db)); VStr (js "p1"); VStr (js "u1");
            VStr (module_name m_gfa); VStr (js "Scenario 1"); VNull;
            VStr (js "pending"); VNum (clock empty_db); VNum (clock empty_db)].
Proof.
  assert (H1 : module_scenarios empty_db (js "p1") m_gfa = []) by reflexivity.
  assert (H2 : fresh_id empty_db scenarios = true) by reflexivity.
  split; [exact H1|]. split; [exact H2|].
  exact (ensureScenario_creates_first empty_db (js "p1") (js "u1") m_gfa H1 H2).
Defined.



(** ** The first project of a tool *)

(** X15.  When the user has no project of the tool and the next id is
    unused, [ensureProject] names the new project after the prefix of the
    tool, 'GFA 1', 'DF 1', 'IO 1', 'Network 1' or 'Transport 1'.  If no
    project of the user has that name the project is created and returned.
    If a project of the user, then of another tool, has that name, nothing
    is created and null is returned: the names read are those of the tool
    only, while names are unique per user. *)
Theorem ensureProject_first_of_tool :
  forall (db : DB) (userId : jsstring) (toolType : ToolType),
    tool_projects db userId toolType = [] ->
    fresh_id db projects = true ->
    let name := label (getModulePrefix toolType) ++ js " 1" in
    ((forall r, In r (tbl_projects db) -> get "user_id" r = VStr userId ->
                get "name" r <> VStr name) ->
     exists row,
       fst (run db_exec (ensureProject userId toolType) db)
       = (Returned (DRow row),
          mkDB (tbl_projects db ++ [row]) (tbl_scenarios db) (tbl_outputs db)
               (next_id db + 1) (clock db + 1))
       /\ map (fun c => get c row) project_columns
          = [VStr (uuid (next_id db)); VStr userId; VStr name; VStr (tool_name toolType);
             VNull; empty_object; empty_object; VNum 0; VNum (clock db); VNum (clock db)])
    /\ ((exists r, In r (tbl_projects db)
                   /\ get "user_id" r = VStr userId /\ get "name" r = VStr name) ->
        fst (run db_exec (ensureProject userId toolType) db) = (Returned DNull, db)).
Proof.
  intros db userId toolType Hempty Hid name.
  destruct (ensureProject_not_found db userId toolType Hempty) as (log & Hrun).
  cbv zeta in Hrun. fold name in Hrun.
  pose proof (new_project_clash db userId toolType name Hempty Hid) as Hclash.
  split.
  - intros Hfree.
    destruct (collides projects _ (tbl_projects db)) eqn:Ec.
    + exfalso. destruct (proj1 Hclash eq_refl) as (r & Hr & Hu & Hn).
      exact (Hfree r Hr Hu Hn).
    + eexists. rewrite Hrun. split; reflexivity.
  - intros Hex. rewrite (proj2 Hclash Hex) in Hrun. rewrite Hrun. reflexivity.
Qed.

(** The user's network project is named 'GFA 1': no GFA project can be
    created for them. *)
Lemma ensureProject_first_of_tool_witness :
  tool_projects foreign_name (js "u1") gfa = []
  /\ fresh_id foreign_name projects = true
  /\ fst (run db_exec (ensureProject (js "u1") gfa) foreign_name)
     = (Returned DNull, foreign_name).
Proof.
  assert (H1 : tool_projects foreign_name (js "u1") gfa = []) by (vm_compute; reflexivity).
  assert (H2 : fresh_id foreign_name projects = true) by (vm_compute; reflexivity).
  split; [exact H1|]. split; [exact H2|].
  apply (proj2 (ensureProject_first_of_tool foreign_name (js "u1") gfa H1 H2)).
  exists (nth 0 (tbl_projects foreign_name) []).
  split; [vm_compute; left; reflexivity|]. split; vm_compute; reflexivity.
Defined.

Example ensureProject_first_gfa :
  map (get "name") (tbl_projects (exec (ensureProject (js "u1") gfa) empty_db))
  = [VStr (js "GFA 1")].
Proof. vm_compute. reflexivity. Qed.

(** ** Renaming to a free name *)

Lemma get_set_same c v r : get c (set c v r) = v.
Proof.
  induction r as [|[k w] r IH]; cbn [set get].
  - rewrite String.eqb_refl. reflexivity.
  - destruct (String.eqb k c) eqn:E; cbn [get]; rewrite E; [reflexivity | exact IH].
Qed.

Lemma get_set_other c c' v r : c <> c' -> get c (set c' v r) = get c r.
Proof.
  intros Hne. induction r as [|[k w] r IH]; cbn [set get].
  - destruct (String.eqb_spec c' c); [congruence | reflexivity].
  - destruct (String.eqb k c') eqn:E; cbn [get].
    + apply String.eqb_eq in E. subst k.
      destruct (String.eqb_spec c' c); [congruence | reflexivity].
    + rewrite IH. reflexivity.
Qed.

Lemma same_key_set key c v r x :
  ~ In c key -> same_key key (set c v r) x = same_key key r x.
Proof.
  intros Hc. unfold same_key. induction key as [|k key IH]; [reflexivity|].
  cbn [forallb]. rewrite IH by (intros H; apply Hc; simpl; tauto).
  rewrite get_set_other; [reflexivity|]. intros ->. apply Hc. simpl. tauto.
Qed.

Lemma clash_sym t r r' : clash t r r' = clash t r' r.
Proof.
  unfold clash. induction (unique_keys t) as [|key keys IH]; [reflexivity|].
  cbn [existsb]. rewrite IH, same_key_sym. reflexivity.
Qed.

Lemma name_key_pins sc newName me x :
  ~ In "name" (map fst sc) -> in_scope sc me ->
  same_key (name_key sc) (set "name" (VStr newName) me) x = true ->
  in_scope sc x /\ get "name" x = VStr newName.
Proof.
  intros Hsc Hme H. unfold same_key, name_key in H. rewrite forallb_app in H.
  apply andb_true_iff in H. destruct H as [Hcols Hname]. split.
  - unfold in_scope in *. induction sc as [|[c v] sc IH]; [constructor|].
    inversion Hme as [|? ? H1 H2]; subst. cbn [map fst forallb] in Hcols.
    apply andb_true_iff in Hcols. destruct Hcols as [Hc Hcols].
    constructor.
    + cbn [fst snd] in *. rewrite get_set_other in Hc by (intros ->; apply Hsc; simpl; tauto).
      rewrite H1 in Hc. symmetry. apply sql_eqb_eq. exact Hc.
    + apply IH; [intros Hin; apply Hsc; simpl; tauto | exact H2 | exact Hcols].
  - cbn [forallb] in Hname. rewrite andb_true_r, get_set_same in Hname.
    symmetry. apply sql_eqb_eq. exact Hname.
Qed.

(** The renamed row violates no key when no other row of the scope holds the
    name. *)
Lemma renamed_row_fits t rs sc newName me :
  keys_ok t rs = true ->
  (forall key, In key (unique_keys t) -> key = name_key sc \/ ~ In "name" key) ->
  ~ In "name" (map fst sc) ->
  In me rs -> in_scope sc me ->
  (forall x, In x rs -> in_scope sc x -> get "name" x = VStr newName -> x = me) ->
  forall x, In x rs -> x <> me -> clash t (set "name" (VStr newName) me) x = false.
Proof.
  intros Hok Hkeys Hsc Hme Hscope Hfree x Hx Hne.
  apply not_true_is_false. intros Hc. unfold clash in Hc. apply existsb_exists in Hc.
  destruct Hc as (key & Hkey & Hs). destruct (Hkeys key Hkey) as [->|Hn].
  - destruct (name_key_pins sc newName me x Hsc Hscope Hs) as [Hxs Hxn].
    exact (Hne (Hfree x Hx Hxs Hxn)).
  - rewrite same_key_set in Hs by exact Hn.
    apply Hne. symmetry. exact (keys_ok_inj t rs key me x Hok Hkey Hme Hx Hs).
Qed.

(** An update that writes one row, to a value that clashes with no other
    row, passes the check. *)
Lemma writes_ok_one t fs fields rs me :
  keys_ok t rs = true ->
  clash t me me = true ->
  matches_all fs me = true ->
  (forall r, In r rs -> matches_all fs r = true -> r = me) ->
  (forall x, In x rs -> x <> me -> clash t (set_fields fields me) x = false) ->
  writes_ok t (updated fs fields rs) = true.
Proof.
  intros Hok Hself Hme Honly Hfit. unfold updated.
  induction rs as [|r rs IH]; [reflexivity|].
  apply keys_ok_cons in Hok. destruct Hok as [Hc Hok].
  cbn [map]. destruct (matches_all fs r) eqn:Er.
  - assert (r = me) as -> by (apply Honly; [simpl; tauto | exact Er]).
    assert (Hout : ~ In me rs).
    { intros Hin. assert (collides t me rs = true); [|congruence].
      unfold collides. apply existsb_exists. exists me. split; assumption. }
    cbn [writes_ok]. apply andb_true_iff. split.
    + apply negb_true_iff, not_true_is_false. intros Hex. apply existsb_exists in Hex.
      destruct Hex as (x & Hx & Hcl). apply in_map_iff in Hx. destruct Hx as (r' & <- & Hr').
      apply andb_true_iff in Hcl. destruct Hcl as [_ Hcl].
      assert (Hne : r' <> me) by (intros ->; contradiction).
      destruct (matches_all fs r') eqn:Er'.
      * apply Hne. apply Honly; [simpl; tauto | exact Er'].
      * cbn [snd] in Hcl. rewrite Hfit in Hcl; [discriminate | simpl; tauto | exact Hne].
    + apply IH; [exact Hok | |].
      * intros x Hx. apply Honly. simpl. tauto.
      * intros x Hx. apply Hfit. simpl. tauto.
  - assert (Hne : r <> me) by (intros ->; congruence).
    cbn [writes_ok]. apply andb_true_iff. split.
    + apply negb_true_iff, not_true_is_false. intros Hex. apply existsb_exists in Hex.
      destruct Hex as (x & Hx & Hcl). apply in_map_iff in Hx. destruct Hx as (r' & <- & Hr').
      apply andb_true_iff in Hcl. destruct Hcl as [Hw Hcl].
      destruct (matches_all fs r') eqn:Er'; [|discriminate Hw].
      assert (r' = me) as -> by (apply Honly; [simpl; tauto | exact Er']).
      cbn [snd] in Hcl. rewrite clash_sym, Hfit in Hcl; [discriminate | simpl; tauto | exact Hne].
    + apply IH; [exact Hok | |].
      * intros x Hx. apply Honly. simpl. tauto.
      * intros x Hx. apply Hfit. simpl. tauto.
Qed.

Lemma clash_self t r id : get "id" r = VStr id -> clash t r r = true.
Proof.
  intros Hid. unfold clash. apply existsb_exists. exists ["id"]. split; [apply id_key|].
  unfold same_key. cbn [forallb]. rewrite Hid. cbn [sql_eqb].
  rewrite jsstring_eqb_refl. reflexivity.
Qed.

Lemma id_filter_reaches t rs id fs me :
  keys_ok t rs = true -> In me rs -> get "id" me = VStr id -> matches_all fs me = true ->
  forall r, In r rs ->
            matches_all (Eq "id" (VStr id) :: fs) r = sql_eqb (get "id" r) (VStr id).
Proof.
  intros Hok Hme Hid Hfs r Hr. unfold matches_all. cbn [forallb filter_holds].
  destruct (sql_eqb (get "id" r) (VStr id)) eqn:E; [|reflexivity].
  assert (r = me) as ->.
  { apply (keys_ok_inj t rs ["id"] r me Hok (id_key t) Hr Hme).
    unfold same_key. cbn [forallb]. rewrite Hid, E. reflexivity. }
  exact Hfs.
Qed.

Lemma rename_with_takes db t sc fs msg failure id newName :
  keys_ok t (table db t) = true ->
  (forall key, In key (unique_keys t) -> key = name_key sc \/ ~ In "name" key) ->
  ~ In "name" (map fst sc) ->
  (forall r, in_scope sc r -> matches_all fs r = true) ->
  takes_free_name db t sc
    (rename_with (mkQuery t (Some ["id"]) (name_check sc id newName) None None None true)
                 (Update t [("name", VStr newName)] (Eq "id" (VStr id) :: fs))
                 msg failure) id newName.
Proof.
  intros Hok Hkeys Hsc Hfs me Hme Hscope Hid Hfree.
  rewrite run_rename_with. rewrite db_exec_select. cbn [fst snd q_table].
  rewrite check_finds_nothing.
  2: { intros r Hr. destruct (matches_all (name_check sc id newName) r) eqn:E; [|reflexivity].
       apply name_check_holds in E. destruct E as (Hs & Hn & _ & Hne).
       rewrite (Hfree r Hr Hs Hn) in Hne. contradiction. }
  rewrite db_exec_update by apply fits_name.
  assert (Hmatch : matches_all (Eq "id" (VStr id) :: fs) me = true).
  { unfold matches_all. cbn [forallb filter_holds]. rewrite Hid. cbn [sql_eqb].
    rewrite jsstring_eqb_refl. apply Hfs. exact Hscope. }
  rewrite (writes_ok_one t _ _ _ me Hok (clash_self t me id Hid) Hmatch).
  - cbn [fst snd]. unfold rename_answer. cbn [error]. f_equal. f_equal.
    unfold updated, renamed. rewrite map_map. apply map_ext_in. intros r Hr.
    rewrite (id_filter_reaches t _ id fs me Hok Hme Hid (Hfs _ Hscope) r Hr).
    destruct (sql_eqb (get "id" r) (VStr id)); reflexivity.
  - apply (id_filter_only t _ id fs me Hok (id_key t) Hme Hid).
  - cbn [set_fields fold_left fst snd].
    apply (renamed_row_fits t _ sc newName me Hok Hkeys Hsc Hme Hscope Hfree).
Qed.

(** X16.  On a store that satisfies its keys, for [renameProject],
    [renameScenario] and [renameResult]: when the entity with the id is
    stored in the scope the call names, and no other row of that scope holds
    the new name, the call returns success and the table holds the same
    rows, in the same order, with the name of that one row replaced. *)
Theorem rename_to_free_name :
  forall (db : DB) (id newName userId projectId scenario : jsstring)
         (module : ModuleType),
    keys_ok projects (tbl_projects db) = true ->
    keys_ok scenarios (tbl_scenarios db) = true ->
    keys_ok scenario_outputs (tbl_outputs db) = true ->
    takes_free_name db projects [("user_id", userId)]
      (renameProject id newName userId) id newName
    /\ takes_free_name db scenarios
         [("project_id", projectId); ("module_type", module_name module)]
         (renameScenario id newName projectId module) id newName
    /\ takes_free_name db scenario_outputs [("scenario_id", scenario)]
         (renameResult id newName scenario) id newName.
Proof.
  intros db id newName userId projectId scenario module Hp Hs Hr.
  rewrite renameProject_shape, renameScenario_shape, renameResult_shape.
  split; [|split].
  - apply (rename_with_takes db projects [("user_id", userId)] [Eq "user_id" (VStr userId)]);
      [exact Hp | | |].
    + intros key [<-|[<-|[]]]; [right | left; reflexivity].
      simpl. intros [E|E]; [discriminate E | destruct E].
    + simpl. intros [E|E]; [discriminate E | destruct E].
    + intros r Hsc. apply (scope_filters_hold [("user_id", userId)]). exact Hsc.
  - apply (rename_with_takes db scenarios
             [("project_id", projectId); ("module_type", module_name module)] []);
      [exact Hs | | |].
    + intros key [<-|[<-|[]]]; [right | left; reflexivity].
      simpl. intros [E|E]; [discriminate E | destruct E].
    + simpl. intros [E|[E|E]]; [discriminate E | discriminate E | destruct E].
    + reflexivity.
  - apply (rename_with_takes db scenario_outputs [("scenario_id", scenario)] []);
      [exact Hr | | |].
    + intros key [<-|[<-|[<-|[]]]]; [right | left; reflexivity | right].
      * simpl. intros [E|E]; [discriminate E | destruct E].
      * simpl. intros [E|[E|E]]; [discriminate E | discriminate E | destruct E].
    + simpl. intros [E|E]; [discriminate E | destruct E].
    + reflexivity.
Qed.

(** 'Network 1' (id-1) is renamed 'Plan'. *)
Lemma rename_to_free_name_witness :
  let me := nth 1 (tbl_projects two_projects) [] in
  keys_ok projects (tbl_projects two_projects) = true
  /\ keys_ok scenarios (tbl_scenarios two_projects) = true
  /\ keys_ok scenario_outputs (tbl_outputs two_projects) = true
  /\ In me (table two_projects projects)
  /\ fst (run db_exec (renameProject (js "id-1") (js "Plan") (js "u1")) two_projects)
     = (Returned (mkRename true None),
        with_table two_projects projects
          (renamed (js "id-1") (js "Plan") (table two_projects projects))).
Proof.
  assert (H1 : keys_ok projects (tbl_projects two_projects) = true)
    by (vm_compute; reflexivity).
  assert (H2 : keys_ok scenarios (tbl_scenarios two_projects) = true)
    by (vm_compute; reflexivity).
  assert (H3 : keys_ok scenario_outputs (tbl_outputs two_projects) = true)
    by (vm_compute; reflexivity).
  assert (H4 : In (nth 1 (tbl_projects two_projects) []) (table two_projects projects))
    by (vm_compute; right; left; reflexivity).
  split; [exact H1|]. split; [exact H2|]. split; [exact H3|]. split; [exact H4|].
  refine (proj1 (rename_to_free_name two_projects (js "id-1") (js "Plan") (js "u1")
                   (js "p1") (js "s1") m_gfa H1 H2 H3)
                (nth 1 (tbl_projects two_projects) []) H4 _ _ _).
  - constructor; [reflexivity | constructor].
  - reflexivity.
  - intros x Hx _ Hn. vm_compute in Hx.
    destruct Hx as [<-|[<-|[]]]; vm_compute in Hn; discriminate Hn.
Defined.

(** ** Renaming what is not stored *)

Lemma writes_ok_unwritten t l :
  Forall (fun x => fst x = false) l -> writes_ok t l = true.
Proof.
  induction 1 as [|[w r] l Hw Hl IH]; [reflexivity|].
  cbn [fst] in Hw. subst w. cbn [writes_ok]. rewrite IH, andb_true_r.
  apply negb_true_iff, not_true_is_false. intros Hex. apply existsb_exists in Hex.
  destruct Hex as (x & Hx & Hcl). rewrite Forall_forall in Hl.
  rewrite (Hl x) in Hcl by (apply list_elem_of_In; exact Hx). discriminate Hcl.
Qed.

Lemma update_missing_id db t fields id fs :
  fits t fields = true ->
  (forall r, In r (table db t) -> get "id" r <> VStr id) ->
  db_exec (Update t fields (Eq "id" (VStr id) :: fs)) db = (mkResponse DNull None, db).
Proof.
  intros Hfits Hnone. rewrite db_exec_update by exact Hfits.
  assert (Hupd : updated (Eq "id" (VStr id) :: fs) fields (table db t)
                 = map (fun r => (false, r)) (table db t)).
  { unfold updated. apply map_ext_in. intros r Hr.
    unfold matches_all. cbn [forallb filter_holds].
    destruct (sql_eqb (get "id" r) (VStr id)) eqn:E; [|reflexivity].
    apply sql_eqb_eq in E. destruct (Hnone r Hr E). }
  rewrite Hupd, writes_ok_unwritten.
  - rewrite map_map. cbn [snd]. rewrite map_id, with_table_same. reflexivity.
  - apply Forall_forall. intros x Hx. apply list_elem_of_In, in_map_iff in Hx.
    destruct Hx as (r & <- & _). reflexivity.
Qed.

Lemma rename_with_missing db t sc fs msg failure id newName :
  (forall r, In r (table db t) -> get "id" r <> VStr id) ->
  missing_id_outcome db t sc
    (rename_with (mkQuery t (Some ["id"]) (name_check sc id newName) None None None true)
                 (Update t [("name", VStr newName)] (Eq "id" (VStr id) :: fs))
                 msg failure) newName msg.
Proof.
  intros Hnone. unfold missing_id_outcome.
  rewrite run_rename_with, db_exec_select. cbn [fst snd q_table].
  rewrite (update_missing_id db t _ id fs (fits_name t newName) Hnone). cbn [fst snd].
  destruct (truthy (data (eval_query _ (table db t)))) eqn:E.
  - eexists. split; [reflexivity|]. split; [right; reflexivity|].
    intros Hfree. exfalso.
    rewrite check_finds_nothing in E; [discriminate E|].
    intros r Hr. destruct (matches_all (name_check sc id newName) r) eqn:Em; [|reflexivity].
    apply name_check_holds in Em. destruct Em as (Hs & Hn & _).
    destruct (Hfree r Hr Hs Hn).
  - eexists. split; [reflexivity|]. split; [left; reflexivity | reflexivity].
Qed.

(** X17.  Renaming an id that is not stored changes nothing, and is not
    reported as a failure: [renameProject], [renameScenario] and
    [renameResult] return success, unless the check finds the name on a row
    of the scope, in which case they return the "already exists" message. *)
Theorem rename_of_missing_id :
  forall (db : DB) (id newName userId projectId scenario : jsstring)
         (module : ModuleType),
    (forall r, In r (tbl_projects db) -> get "id" r <> VStr id) ->
    (forall r, In r (tbl_scenarios db) -> get "id" r <> VStr id) ->
    (forall r, In r (tbl_outputs db) -> get "id" r <> VStr id) ->
    missing_id_outcome db projects [("user_id", userId)]
      (renameProject id newName userId) newName (project_exists_message newName)
    /\ missing_id_outcome db scenarios
         [("project_id", projectId); ("module_type", module_name module)]
         (renameScenario id newName projectId module) newName
         (scenario_exists_message newName)
    /\ missing_id_outcome db scenario_outputs [("scenario_id", scenario)]
         (renameResult id newName scenario) newName (result_exists_message newName).
Proof.
  intros db id newName userId projectId scenario module Hp Hs Hr.
  rewrite renameProject_shape, renameScenario_shape, renameResult_shape.
  split; [|split].
  - apply (rename_with_missing db projects [("user_id", userId)]
             [Eq "user_id" (VStr userId)]). exact Hp.
  - apply (rename_with_missing db scenarios
             [("project_id", projectId); ("module_type", module_name module)] []). exact Hs.
  - apply (rename_with_missing db scenario_outputs [("scenario_id", scenario)] []). exact Hr.
Qed.

(** No project, scenario or result has the id 'id-9'. *)
Lemma rename_of_missing_id_witness :
  (forall r, In r (tbl_projects two_projects) -> get "id" r <> VStr (js "id-9"))
  /\ (forall r, In r (tbl_scenarios two_projects) -> get "id" r <> VStr (js "id-9"))
  /\ (forall r, In r (tbl_outputs two_projects) -> get "id" r <> VStr (js "id-9"))
  /\ missing_id_outcome two_projects projects [("user_id", js "u1")]
       (renameProject (js "id-9") (js "Plan") (js "u1")) (js "Plan")
       (project_exists_message (js "Plan"))
  /\ fst (fst (run db_exec (renameProject (js "id-9") (js "Plan") (js "u1")) two_projects))
     = Returned (mkRename true None).
Proof.
  assert (H1 : forall r, In r (tbl_projects two_projects) -> get "id" r <> VStr (js "id-9")).
  { intros r Hr E. vm_compute in Hr.
    destruct Hr as [<-|[<-|[]]]; vm_compute in E; discriminate E. }
  assert (H2 : forall r, In r (tbl_scenarios two_projects) -> get "id" r <> VStr (js "id-9"))
    by (intros r []).
  assert (H3 : forall r, In r (tbl_outputs two_projects) -> get "id" r <> VStr (js "id-9"))
    by (intros r []).
  split; [exact H1|]. split; [exact H2|]. split; [exact H3|].
  split.
  - exact (proj1 (rename_of_missing_id two_projects (js "id-9") (js "Plan") (js "u1")
                    (js "p1") (js "s1") m_gfa H1 H2 H3)).
  - vm_compute. reflexivity.
Defined.

(** ** The scenario list of the context *)

Lemma strict_eqb_sym a b : strict_eqb a b = strict_eqb b a.
Proof.
  destruct a, b; cbn [strict_eqb]; try reflexivity.
  - destruct (jsstring_eqb s s0) eqn:E.
    + apply jsstring_eqb_eq in E. subst. symmetry. apply jsstring_eqb_refl.
    + destruct (jsstring_eqb s0 s) eqn:E'; [|reflexivity].
      apply jsstring_eqb_eq in E'. subst. rewrite jsstring_eqb_refl in E. discriminate E.
  - apply Z.eqb_sym.
Qed.

Lemma existsb_false_Forall {A} (f : A -> bool) l :
  existsb f l = false -> Forall (fun x => f x = false) l.
Proof.
  induction l as [|x l IH]; cbn [existsb]; intros H; constructor.
  - apply orb_false_iff in H. tauto.
  - apply IH. apply orb_false_iff in H. tauto.
Qed.

(** X18.  When the context's [ensureScenario] returns a scenario, on any
    store, that scenario is the current one; the list of scenarios is as
    before when it had a scenario with that id, and has the new one in front
    otherwise; so a list without two equal ids stays one.  When it returns
    null the state is as before. *)
Theorem ctx_ensureScenario_keeps_list :
  forall (St : Type) (h : Cmd -> St -> Response * St) (s : St)
         (user : User) (st st' : ScenarioState) (project : jsstring) (module : ModuleType)
         (returned : Data),
    fst (fst (run h (ctx_ensureScenario (Some user) st project module) s))
    = Returned (returned, st') ->
    match returned with
    | DRow sc =>
        currentScenario st' = DRow sc
        /\ (scenarios_ st' = scenarios_ st \/ scenarios_ st' = sc :: scenarios_ st)
        /\ (In sc (scenarios_ st')
            \/ exists x, In x (scenarios_ st') /\ same_id x sc = true)
        /\ (ids_distinct (scenarios_ st) -> ids_distinct (scenarios_ st'))
    | DNull => st' = st
    | DRows _ => True
    end.
Proof.
  intros St h s user st st' project module returned.
  unfold ctx_ensureScenario. rewrite run_bind.
  destruct (run h (ensureScenario project (user_id user) module) s) as [[[d| |] s1] l1];
    cbn [then_run fst]; try discriminate.
  destruct d as [|sc|rows]; cbn [run fst].
  - intros [= <- <-]. reflexivity.
  - destruct (existsb (fun x => strict_eqb (get "id" x) (get "id" sc)) (scenarios_ st)) eqn:E;
      intros [= <- <-]; cbn [currentScenario scenarios_].
    + split; [reflexivity|]. split; [left; reflexivity|]. split; [|tauto].
      right. apply existsb_exists in E. destruct E as (x & Hx & Hs). exists x. tauto.
    + split; [reflexivity|]. split; [right; reflexivity|]. split; [left; simpl; tauto|].
      intros Hd. constructor; [|exact Hd].
      apply existsb_false_Forall in E.
      eapply List.Forall_impl; [|exact E]. cbv beta. intros x Hx.
      unfold same_id. rewrite strict_eqb_sym. exact Hx.
  - intros [= <- <-]. exact I.
Qed.

(** The first scenario of a project, with an empty list. *)
Lemma ctx_ensureScenario_keeps_list_witness :
  let sc := with_defaults empty_db scenarios
              (new_scenario (js "p1") (js "u1") m_gfa (js "Scenario 1")) in
  let st := mkScenarioState [] DNull in
  let st' := mkScenarioState [sc] (DRow sc) in
  fst (fst (run db_exec (ctx_ensureScenario (Some (mkUser (js "u1"))) st (js "p1") m_gfa)
              empty_db))
  = Returned (DRow sc, st')
  /\ currentScenario st' = DRow sc
  /\ (scenarios_ st' = scenarios_ st \/ scenarios_ st' = sc :: scenarios_ st)
  /\ (In sc (scenarios_ st') \/ exists x, In x (scenarios_ st') /\ same_id x sc = true)
  /\ (ids_distinct (scenarios_ st) -> ids_distinct (scenarios_ st')).
Proof.
  cbv zeta.
  assert (H : fst (fst (run db_exec
                          (ctx_ensureScenario (Some (mkUser (js "u1")))
                             (mkScenarioState [] DNull) (js "p1") m_gfa) empty_db))
              = Returned (DRow (with_defaults empty_db scenarios
                                  (new_scenario (js "p1") (js "u1") m_gfa (js "Scenario 1"))),
                          mkScenarioState
                            [with_defaults empty_db scenarios
                               (new_scenario (js "p1") (js "u1") m_gfa (js "Scenario 1"))]
                            (DRow (with_defaults empty_db scenarios
                                     (new_scenario (js "p1") (js "u1") m_gfa
                                        (js "Scenario 1"))))))
    by (vm_compute; reflexivity).
  split; [exact H|].
  exact (ctx_ensureScenario_keeps_list DB db_exec empty_db _ _ _ _ _ _ H).
Defined.

(** ** The project list of the context *)

Lemma where_all rs : where_ [] rs = rs.
Proof. induction rs as [|r rs IH]; cbn [where_ matches_all forallb]; [|rewrite IH]; reflexivity. Qed.

Lemma run_fetchProjects db user st :
  run db_exec (fetchProjects (Some user) st) db
  = (Returned (mkProjectState (order_by "created_at" false (tbl_projects db)) false), db,
     [(Select (Q.from projects |> Q.select_all |> Q.order "created_at" false),
       mkResponse (DRows (order_by "created_at" false (tbl_projects db))) None)]).
Proof.
  unfold fetchProjects. rewrite run_bind, run_await, db_exec_select.
  cbn [fst snd then_run]. unfold eval_query.
  cbn [Q.from Q.select_all Q.order q_table q_columns q_filters q_order
       q_limit q_range q_single table apply_limit apply_range apply_order].
  rewrite map_project_all, where_all. reflexivity.
Qed.

(** X19.  When the context's [ensureProject] returns a project, with no other
    writer, that project is stored, and the project list of the context has
    been read again: it holds the rows of the store, the project among
    them, most recently created first, and [loading] is off. *)
Theorem ctx_ensureProject_lists_project :
  forall (db : DB) (user : User) (st st' : ProjectState) (toolType : ToolType)
         (p : Row),
    fst (fst (run db_exec (ctx_ensureProject (Some user) st toolType) db))
    = Returned (DRow p, st') ->
    let db' := exec (ctx_ensureProject (Some user) st toolType) db in
    In p (tbl_projects db')
    /\ In p (projects_ st')
    /\ projects_ st' ≡ₚ tbl_projects db'
    /\ StronglySorted (larger_first "created_at") (projects_ st')
    /\ loading st' = false.
Proof.
  intros db user st st' toolType p.
  unfold exec, ctx_ensureProject. rewrite run_bind.
  pose proof (ensureProject_idempotent_db db (user_id user) toolType) as Hid.
  unfold idempotent_on in Hid.
  destruct (run db_exec (ensureProject (user_id user) toolType) db) as [[first db1] log1].
  destruct (run db_exec (ensureProject (user_id user) toolType) db1) as [[second db2] log2].
  destruct Hid as ([d ->] & _ & _ & Hstored). cbn [then_run].
  destruct d as [|r|rows]; cbn [truthy].
  - cbn [run fst]. intros [=].
  - rewrite run_bind, run_fetchProjects. cbn [then_run run app fst snd].
    intros [= <- <-].
    destruct (Hstored r eq_refl) as [Hin _]. cbn [projects_ loading].
    split; [exact Hin|]. split.
    + apply list_elem_of_In. rewrite order_by_perm. apply list_elem_of_In. exact Hin.
    + split; [apply order_by_perm|]. split; [apply order_by_larger_first | reflexivity].
  - rewrite run_bind, run_fetchProjects. cbn [then_run run app fst]. intros [=].
Qed.

(** The first GFA project of a user in the empty store. *)
Lemma ctx_ensureProject_lists_project_witness :
  let p := with_defaults empty_db projects (new_project (js "u1") (js "GFA 1") gfa) in
  let st := mkProjectState [] true in
  let db' := exec (ctx_ensureProject (Some (mkUser (js "u1"))) st gfa) empty_db in
  fst (fst (run db_exec (ctx_ensureProject (Some (mkUser (js "u1"))) st gfa) empty_db))
  = Returned (DRow p, mkProjectState [p] false)
  /\ In p (tbl_projects db')
  /\ In p (projects_ (mkProjectState [p] false))
  /\ projects_ (mkProjectState [p] false) ≡ₚ tbl_projects db'
  /\ StronglySorted (larger_first "created_at") (projects_ (mkProjectState [p] false))
  /\ loading (mkProjectState [p] false) = false.
Proof.
  cbv zeta.
  assert (H : fst (fst (run db_exec (ctx_ensureProject (Some (mkUser (js "u1")))
                                       (mkProjectState [] true) gfa) empty_db))
              = Returned (DRow (with_defaults empty_db projects
                                  (new_project (js "u1") (js "GFA 1") gfa)),
                          mkProjectState [with_defaults empty_db projects
                                            (new_project (js "u1") (js "GFA 1") gfa)] false))
    by (vm_compute; reflexivity).
  split; [exact H|].
  exact (ctx_ensureProject_lists_project empty_db (mkUser (js "u1")) _ _ gfa _ H).
Defined.

(** ** One history per scenario *)

Lemma getScenarioResults_other_insert (ls : storage) s s' v :
  s' <> s -> getScenarioResults (<[results_key s := v]> ls) s' = getScenarioResults ls s'.
Proof.
  intros Hne. unfold getScenarioResults. rewrite lookup_insert_ne; [reflexivity|].
  intros E. apply results_key_inj in E. congruence.
Qed.

Lemma do_call_other (ls : storage) c s :
  scenario_of c <> s -> getScenarioResults (do_call ls c) s = getScenarioResults ls s.
Proof.
  intros Hne. destruct c as [s' d now|s']; cbn [do_call scenario_of] in *.
  - unfold addScenarioResult. destruct (spread (getScenarioResults ls s')); [|reflexivity].
    apply getScenarioResults_other_insert. congruence.
  - rewrite getScenarioResults_delete. rewrite decide_False by congruence. reflexivity.
Qed.

Lemma getLatestResult_same (ls ls' : storage) s :
  getScenarioResults ls' s = getScenarioResults ls s ->
  getLatestResult ls' s = getLatestResult ls s.
Proof. intros E. unfold getLatestResult. rewrite E. reflexivity. Qed.

(** X20.  Every scenario has a history of its own in the local storage:
    adding to and clearing the histories of other scenarios, any number
    of times, leaves what [getScenarioResults] and [getLatestResult] return
    for a scenario as it was. *)
Theorem histories_are_independent :
  forall (ls : storage) (calls : list call) (scenario : jsstring),
    Forall (fun c => scenario_of c <> scenario) calls ->
    getScenarioResults (do_calls ls calls) scenario = getScenarioResults ls scenario
    /\ getLatestResult (do_calls ls calls) scenario = getLatestResult ls scenario.
Proof.
  intros ls calls scenario Hcalls.
  assert (E : getScenarioResults (do_calls ls calls) scenario
              = getScenarioResults ls scenario).
  { revert ls. induction Hcalls as [|c calls Hc _ IH]; intros ls; [reflexivity|].
    cbn [do_calls fold_left]. fold (do_calls (do_call ls c) calls).
    rewrite IH. apply do_call_other. exact Hc. }
  split; [exact E | apply getLatestResult_same; exact E].
Qed.

(** Calls about 's2' and 's3' leave the history of 's1', with one entry. *)
Lemma histories_are_independent_witness :
  let ls := do_calls ∅ [AddResult (js "s1") (JObj []) (js "t0")] in
  let calls := [AddResult (js "s2") (JObj []) (js "t1"); ClearResults (js "s3");
                AddResult (js "s2") (JNum 4) (js "t2")] in
  Forall (fun c => scenario_of c <> js "s1") calls
  /\ getScenarioResults (do_calls ls calls) (js "s1") = getScenarioResults ls (js "s1")
  /\ getLatestResult (do_calls ls calls) (js "s1") = getLatestResult ls (js "s1").
Proof.
  cbv zeta.
  assert (H : Forall (fun c => scenario_of c <> js "s1")
                [AddResult (js "s2") (JObj []) (js "t1"); ClearResults (js "s3");
                 AddResult (js "s2") (JNum 4) (js "t2")])
    by (repeat constructor; intros E; vm_compute in E; discriminate E).
  split; [exact H|].
  exact (histories_are_independent _ _ (js "s1") H).
Defined.

(** ** Clearing a history *)

(** X21.  After [clearScenarioResults] the scenario has no key in the
    storage, its history is empty and it has no latest result; the next
    result added is number 1 again and is the whole history, and the
    histories of the other scenarios are as before the clearing. *)
Theorem clearScenarioResults_restarts :
  forall (ls : storage) (scenario : jsstring) (d : json) (now : jsstring),
    let cleared := clearScenarioResults ls scenario in
    cleared !! results_key scenario = None
    /\ getScenarioResults cleared scenario = Entries []
    /\ getLatestResult cleared scenario = Null
    /\ exists ls',
        addScenarioResult cleared scenario d now = Some (1%nat, ls')
        /\ getScenarioResults ls' scenario = Entries [versioned_result 1 now d]
        /\ forall other, other <> scenario ->
                         getScenarioResults ls' other = getScenarioResults ls other.
Proof.
  intros ls scenario d now cleared.
  assert (E : getScenarioResults cleared scenario = Entries []).
  { unfold cleared. rewrite getScenarioResults_delete, decide_True by reflexivity.
    reflexivity. }
  split; [apply lookup_delete_eq|]. split; [exact E|].
  split; [rewrite (getLatestResult_entries _ _ _ E); reflexivity|].
  eexists. split; [rewrite (addScenarioResult_entries _ _ _ _ _ E); reflexivity|].
  split.
  - rewrite getScenarioResults_insert, decide_True by reflexivity. reflexivity.
  - intros other Hne. rewrite getScenarioResults_other_insert by exact Hne.
    unfold cleared. rewrite getScenarioResults_delete, decide_False by exact Hne.
    reflexivity.
Qed.

(** ** Entries carry their position *)

Lemma numbered_nil : numbered [].
Proof. intros k entry H. rewrite lookup_nil in H. discriminate H. Qed.

Lemma numbered_snoc l now d :
  numbered l -> numbered (l ++ [versioned_result (length l + 1) now d]).
Proof.
  intros Hl k entry Hk. destruct (Nat.lt_ge_cases k (length l)) as [Hlt|Hge].
  - rewrite lookup_app_l in Hk by exact Hlt. apply Hl. exact Hk.
  - rewrite lookup_app_r in Hk by exact Hge.
    destruct (k - length l)%nat as [|j] eqn:Ej; cbn in Hk;
      [|first [discriminate Hk | destruct j; discriminate Hk]].
    injection Hk as <-.
    replace (k + 1)%nat with (length l + 1)%nat by lia. reflexivity.
Qed.

Lemma do_call_numbered (ls : storage) c s l :
  getScenarioResults ls s = Entries l -> numbered l ->
  exists l', getScenarioResults (do_call ls c) s = Entries l' /\ numbered l'.
Proof.
  intros Hl Hn. destruct (decide (scenario_of c = s)) as [E|Hne].
  - destruct c as [s' d now|s']; cbn [scenario_of] in E; subst s'; cbn [do_call].
    + rewrite (addScenarioResult_entries _ _ _ _ _ Hl).
      rewrite getScenarioResults_insert, decide_True by reflexivity.
      eexists. split; [reflexivity | apply numbered_snoc; exact Hn].
    + rewrite getScenarioResults_delete, decide_True by reflexivity.
      exists []. split; [reflexivity | apply numbered_nil].
  - rewrite (do_call_other _ _ _ Hne). eauto.
Qed.

Lemma numbered_NoDup l : numbered l -> NoDup (map entry_number l).
Proof.
  intros Hn. apply NoDup_alt. intros i j x Hi Hj.
  rewrite list_lookup_fmap in Hi, Hj.
  destruct (l !! i) as [a|] eqn:Ea; [|discriminate Hi].
  destruct (l !! j) as [b|] eqn:Eb; [|discriminate Hj].
  cbn in Hi, Hj. rewrite (Hn _ _ Ea) in Hi. rewrite (Hn _ _ Eb) in Hj.
  rewrite <- Hj in Hi. injection Hi as Hi. lia.
Qed.

(** X22.  Starting from a storage without a key for the scenario, after any
    sequence of additions and clearings (for any scenarios) the history of
    the scenario is an array whose k-th entry has [resultNumber] k, so no
    two entries share a number; the next addition returns the length plus
    one, and the entry with that number is the latest result. *)
Theorem local_history_numbered :
  forall (ls0 : storage) (calls : list call) (scenario : jsstring)
         (d : json) (now : jsstring),
    ls0 !! results_key scenario = None ->
    exists l,
      getScenarioResults (do_calls ls0 calls) scenario = Entries l
      /\ numbered l
      /\ NoDup (map entry_number l)
      /\ forall n ls',
          addScenarioResult (do_calls ls0 calls) scenario d now = Some (n, ls') ->
          exists entry,
            getLatestResult ls' scenario = Found entry
            /\ entry_number entry = Some (JNum (Z.of_nat n))
            /\ n = (length l + 1)%nat.
Proof.
  intros ls0 calls scenario d now H0.
  assert (Hinv : exists l, getScenarioResults (do_calls ls0 calls) scenario = Entries l
                           /\ numbered l).
  { assert (Hstart : exists l, getScenarioResults ls0 scenario = Entries l /\ numbered l).
    { exists []. split; [|apply numbered_nil]. unfold getScenarioResults. rewrite H0.
      reflexivity. }
    clear H0. revert ls0 Hstart.
    induction calls as [|c calls IH]; intros ls0 Hstart; [exact Hstart|].
    cbn [do_calls fold_left]. fold (do_calls (do_call ls0 c) calls). apply IH.
    destruct Hstart as (l & Hl & Hn). apply (do_call_numbered _ _ _ _ Hl Hn). }
  destruct Hinv as (l & Hl & Hn). exists l.
  split; [exact Hl|]. split; [exact Hn|]. split; [apply numbered_NoDup; exact Hn|].
  intros n ls'. rewrite (addScenarioResult_entries _ _ _ _ _ Hl). intros [= <- <-].
  exists (versioned_result (length l + 1) now d).
  split; [|split; reflexivity].
  assert (Hnew : getScenarioResults
                   (<[results_key scenario :=
                        Json (result_history scenario
                                (l ++ [versioned_result (length l + 1) now d]))]>
                      (do_calls ls0 calls)) scenario
                 = Entries (l ++ [versioned_result (length l + 1) now d])).
  { rewrite getScenarioResults_insert, decide_True by reflexivity. reflexivity. }
  rewrite (getLatestResult_entries _ _ _ Hnew), last_snoc. reflexivity.
Qed.

(** Two additions, a clearing and an addition, from the empty storage. *)
Lemma local_history_numbered_witness :
  let calls := [AddResult (js "s1") (JObj []) (js "t0");
                AddResult (js "s1") (JObj []) (js "t1");
                ClearResults (js "s1");
                AddResult (js "s1") (JNum 7) (js "t2")] in
  (∅ : storage) !! results_key (js "s1") = None
  /\ exists l,
      getScenarioResults (do_calls ∅ calls) (js "s1") = Entries l
      /\ numbered l
      /\ NoDup (map entry_number l)
      /\ forall n ls',
          addScenarioResult (do_calls ∅ calls) (js "s1") (JNum 8) (js "t3") = Some (n, ls') ->
          exists entry,
            getLatestResult ls' (js "s1") = Found entry
            /\ entry_number entry = Some (JNum (Z.of_nat n))
            /\ n = (length l + 1)%nat.
Proof.
  cbv zeta.
  assert (H : (∅ : storage) !! results_key (js "s1") = None) by apply lookup_empty.
  split; [exact H|].
  exact (local_history_numbered ∅ _ (js "s1") (JNum 8) (js "t3") H).
Defined.

(** ** Trimming *)

Lemma drop_while_nil f s : drop_while f s = [] <-> Forall (fun c => f c = true) s.
Proof.
  induction s as [|c s IH]; cbn [drop_while]; [split; [constructor | reflexivity]|].
  destruct (f c) eqn:E.
  - rewrite IH. split; [intros H; constructor; assumption|].
    intros H. inversion H; assumption.
  - split; [discriminate|]. intros H. inversion H; congruence.
Qed.

Lemma drop_while_suffix f s : exists p, s = p ++ drop_while f s /\ Forall (fun c => f c = true) p.
Proof.
  exists (take_while f s). split; [symmetry; apply take_drop_while | apply take_while_all].
Qed.

Lemma last_rev {A} (l : list A) : last (rev l) = head l.
Proof. destruct l as [|x l]; [reflexivity|]. cbn [rev head]. apply last_snoc. Qed.

Lemma trim_blank s : trim s = [] <-> Forall (fun c => is_space c = true) s.
Proof.
  unfold trim. split.
  - intros H. apply (f_equal (@rev N)) in H. rewrite rev_involutive in H. cbn [rev] in H.
    apply drop_while_nil in H. apply drop_while_nil.
    destruct (drop_while is_space s) as [|d ds] eqn:E; [reflexivity|].
    pose proof (drop_while_head _ _ _ _ E) as Hd.
    rewrite Forall_forall in H. rewrite (H d) in Hd; [discriminate Hd|].
    apply list_elem_of_In, in_rev. rewrite rev_involutive. simpl. tauto.
  - intros H. apply drop_while_nil in H. rewrite H. reflexivity.
Qed.

Lemma trim_unpadded s : unpadded (trim s).
Proof.
  unfold unpadded, trim. split.
  - intros c Hc.
    destruct (drop_while_suffix is_space (rev (drop_while is_space s))) as (p & Hp & _).
    apply (f_equal (@rev N)) in Hp. rewrite rev_involutive, rev_app_distr in Hp.
    destruct (rev (drop_while is_space (rev (drop_while is_space s)))) as [|x u] eqn:Eu;
      [discriminate Hc|].
    cbn [head] in Hc. injection Hc as ->.
    apply (drop_while_head is_space s c (u ++ rev p)). exact Hp.
  - intros c Hc. rewrite last_rev in Hc.
    destruct (drop_while is_space (rev (drop_while is_space s))) as [|d ds] eqn:E;
      [discriminate Hc|].
    cbn [head] in Hc. injection Hc as ->. apply (drop_while_head _ _ _ _ E).
Qed.

Lemma drop_while_id f s : (forall c, head s = Some c -> f c = false) -> drop_while f s = s.
Proof.
  destruct s as [|c s]; [reflexivity|]. intros H. cbn [drop_while].
  rewrite (H c) by reflexivity. reflexivity.
Qed.

Lemma trim_idempotent s : trim (trim s) = trim s.
Proof.
  destruct (trim_unpadded s) as [Hh Hl]. unfold trim at 1.
  rewrite (drop_while_id _ _ Hh).
  rewrite drop_while_id; [apply rev_involutive|].
  intros c Hc. apply Hl. rewrite <- (rev_involutive (trim s)), last_rev. exact Hc.
Qed.

(** ** The rename handler *)

(** X23.  [handleRename] of the results navigator, on any store.  When the
    typed name is blank it shows an error, sends nothing and leaves the
    editing state.  Otherwise what it sends is what [renameResult] sends
    for the trimmed name, which is not empty and has no white space at
    either end, and the only column written is the name; on success the
    editing ends, the list is refreshed, and the toast shows the name as
    typed; on failure the editing state stays and three suggestions made
    from the trimmed name are offered. *)
Theorem handleRename_sends_trimmed_name :
  forall (St : Type) (h : Cmd -> St -> Response * St) (s : St)
         (st : EditState) (scenarioId resultId : jsstring),
    let name := trim (editName st) in
    (Forall (fun c => is_space c = true) (editName st) ->
     run h (handleRename st scenarioId resultId) s
     = (Returned (st, [toast_error (js "Result name cannot be empty") None], false), s, []))
    /\ (~ Forall (fun c => is_space c = true) (editName st) ->
        name <> [] /\ unpadded name /\ trim name = name
        /\ exists result s' log st' toasts,
            run h (renameResult resultId name scenarioId) s = (Returned result, s', log)
            /\ run h (handleRename st scenarioId resultId) s
               = (Returned (st', toasts, success result), s', log)
            /\ writes_only_name name log
            /\ (success result = true ->
                st' = mkEdit None (editName st)
                /\ toasts = [toast_success
                               (js "Renamed to " ++ quote ++ editName st ++ quote)])
            /\ (success result = false ->
                st' = st
                /\ exists message,
                    toasts = [toast_error message
                                (Some (js "Try: " ++ suggestion name 0 ++ js ", "
                                         ++ suggestion name 1 ++ js ", "
                                         ++ suggestion name 2))])).
Proof.
  intros St h s st scenarioId resultId name. split.
  - intros Hblank. apply trim_blank in Hblank. unfold handleRename. rewrite Hblank.
    reflexivity.
  - intros Hname. assert (Hne : name <> []) by (intros E; apply Hname, trim_blank, E).
    split; [exact Hne|]. split; [apply trim_unpadded|]. split; [apply trim_idempotent|].
    assert (Hr : exists result s' log,
               run h (renameResult resultId name scenarioId) s = (Returned result, s', log)
               /\ writes_only_name name log).
    { rewrite renameResult_shape, run_rename_with.
      destruct (truthy (data (fst (h (Select (result_name_taken resultId name scenarioId)) s))));
        eexists _, _, _; (split; [reflexivity | repeat constructor]). }
    destruct Hr as (result & s' & log & Hrun & Hlog). exists result, s', log.
    unfold handleRename. fold name. destruct name as [|c name'] eqn:En; [contradiction|].
    rewrite <- En in *. clear En c name'.
    rewrite run_bind, Hrun. cbn [then_run].
    destruct (success result) eqn:Es; cbn [run app].
    + eexists _, _. split; [reflexivity|]. split; [rewrite app_nil_r; reflexivity|].
      split; [exact Hlog|]. split; [intros _; split; reflexivity | discriminate].
    + eexists _, _. split; [reflexivity|]. split; [rewrite app_nil_r; reflexivity|].
      split; [exact Hlog|]. split; [discriminate|]. intros _.
      split; [reflexivity|]. eexists. reflexivity.
Qed.

(** ** A run of results *)

Lemma uuid_inj a b : uuid a = uuid b -> a = b.
Proof. unfold uuid. intros E. apply app_inv_head in E. apply to_decimal_inj. exact E. Qed.

Lemma ids_below_fresh db t : ids_below db t -> fresh_id db t = true.
Proof.
  intros H. unfold fresh_id. apply forallb_forall. intros r Hr.
  destruct (H r Hr) as (k & Hk & ->). cbn [sql_eqb]. apply negb_true_iff.
  destruct (jsstring_eqb (uuid k) (uuid (next_id db))) eqn:E; [|reflexivity].
  apply jsstring_eqb_eq, uuid_inj in E. lia.
Qed.

Lemma ids_below_inserted db row :
  ids_below db scenario_outputs -> get "id" row = VStr (uuid (next_id db)) ->
  ids_below (inserted db scenario_outputs row) scenario_outputs.
Proof.
  intros H Hid r Hr. cbn [inserted with_table table tbl_outputs next_id] in *.
  apply in_app_iff in Hr. destruct Hr as [Hr|[<-|[]]].
  - destruct (H r Hr) as (k & Hk & E). exists k. split; [lia | exact E].
  - exists (next_id db). split; [lia | exact Hid].
Qed.

Lemma names_in_view rs (g : nat -> jsstring) l :
  map (get "name") rs = map (fun k => VStr (g k)) l -> names_in rs = map g l.
Proof.
  revert l. induction rs as [|r rs IH]; intros [|k l] E; try discriminate E; [reflexivity|].
  cbn [map] in E. injection E as Hr E. rewrite names_in_cons. unfold name_of. rewrite Hr.
  cbn [map]. f_equal. apply IH. exact E.
Qed.

Lemma numbers_view rs (g : nat -> Z) l :
  map (get "result_number") rs = map (fun k => VNum (g k)) l ->
  map result_number_of rs = map g l.
Proof.
  revert l. induction rs as [|r rs IH]; intros [|k l] E; try discriminate E; [reflexivity|].
  cbn [map] in E. injection E as Hr E. cbn [map].
  unfold result_number_of at 1, order_key. rewrite Hr. f_equal. apply IH. exact E.
Qed.

Lemma taken_auto_names k j :
  taken (label Result)
        (map (fun m => label Result ++ js " " ++ to_decimal (N.of_nat m)) (seq 1 k)) j
  <-> (1 <= j <= N.of_nat k)%N.
Proof.
  unfold taken. split.
  - intros (n & ds & Hn & Hp & Hv). apply in_map_iff in Hn. destruct Hn as (m & <- & Hm).
    apply in_seq in Hm.
    pose proof (auto_name_in_pattern (label Result) (N.of_nat m)) as Hauto.
    apply match_re_spec in Hp. apply match_re_spec in Hauto. rewrite Hp in Hauto.
    injection Hauto as ->. rewrite decimal_value_to_decimal in Hv. lia.
  - intros Hj. exists (label Result ++ js " " ++ to_decimal j), (to_decimal j).
    split; [|split; [apply auto_name_in_pattern | apply decimal_value_to_decimal]].
    apply in_map_iff. exists (N.to_nat j). rewrite N2Nat.id. split; [reflexivity|].
    apply in_seq. lia.
Qed.

Lemma smallest_free_after k i :
  smallest_free Result
    (map (fun m => label Result ++ js " " ++ to_decimal (N.of_nat m)) (seq 1 k)) i ->
  i = N.of_nat (S k).
Proof.
  intros (Hpos & Hfree & Hbelow). rewrite taken_auto_names in Hfree.
  destruct (N.lt_ge_cases (N.of_nat (S k)) i) as [Hlt|Hge]; [|lia].
  assert (Ht : taken (label Result)
                 (map (fun m => label Result ++ js " " ++ to_decimal (N.of_nat m)) (seq 1 k))
                 (N.of_nat (S k))) by (apply Hbelow; lia).
  apply taken_auto_names in Ht. lia.
Qed.

Lemma max_plus_one_after k n :
  max_plus_one (map Z.of_nat (seq 1 k)) n -> n = Z.of_nat (S k).
Proof.
  intros [[E ->]|(m & [Hin Hmax] & ->)].
  - destruct k; [reflexivity | discriminate E].
  - apply in_map_iff in Hin. destruct Hin as (a & <- & Ha). apply in_seq in Ha.
    destruct k as [|k]; [lia|].
    assert (Hk : (Z.of_nat (S k) <= Z.of_nat a)%Z).
    { apply Hmax. apply in_map. apply in_seq. lia. }
    lia.
Qed.

(** The state of the store after [k] results of the scenario. *)
Lemma createResult_next db params k :
  forallb is_result_row (tbl_outputs db) = true ->
  ids_below db scenario_outputs ->
  (N.of_nat (length (tbl_outputs db)) < 2 ^ 32)%N ->
  (Z.of_nat k < 2147483647)%Z ->
  map name_and_number (scenario_results db (scenarioId params)) = map kth_result (seq 1 k) ->
  let db1 := exec (createResult params) db in
  forallb is_result_row (tbl_outputs db1) = true
  /\ ids_below db1 scenario_outputs
  /\ length (tbl_outputs db1) = S (length (tbl_outputs db))
  /\ tbl_projects db1 = tbl_projects db
  /\ map name_and_number (scenario_results db1 (scenarioId params))
     = map kth_result (seq 1 (S k))
  /\ forall other, other <> scenarioId params ->
                   scenario_results db1 other = scenario_results db other.
Proof.
  intros Htyped Hids Hlen Hk Hview db1.
  assert (Hnames : names_in (scenario_results db (scenarioId params))
                   = map (fun m => label Result ++ js " " ++ to_decimal (N.of_nat m))
                         (seq 1 k)).
  { apply names_in_view. apply (f_equal (map fst)) in Hview.
    rewrite !map_map in Hview. exact Hview. }
  assert (Hnumbers : result_numbers db (scenarioId params) = map Z.of_nat (seq 1 k)).
  { unfold result_numbers. apply numbers_view. apply (f_equal (map snd)) in Hview.
    rewrite !map_map in Hview. exact Hview. }
  assert (Hroom : numbers_leave_room db (scenarioId params)).
  { intros m Hm. rewrite Hnumbers in Hm. apply in_map_iff in Hm.
    destruct Hm as (a & <- & Ha). apply in_seq in Ha. lia. }
  destruct (createResult_named db params Htyped Hlen (ids_below_fresh _ _ Hids) Hroom)
    as (n & i & Hmax & Hi & Hrun).
  rewrite Hnames in Hi. apply smallest_free_after in Hi. subst i.
  rewrite Hnumbers in Hmax. apply max_plus_one_after in Hmax. subst n.
  set (row := with_defaults db scenario_outputs
                (new_result params (label Result ++ js " " ++ to_decimal (N.of_nat (S k)))
                            (VNum (Z.of_nat (S k))))) in *.
  assert (Hdb1 : db1 = inserted db scenario_outputs row) by (apply (exec_fst _ _ _ _ Hrun)).
  rewrite Hdb1. split; [|split; [|split; [|split; [|split]]]].
  - cbn [inserted with_table table tbl_outputs]. rewrite forallb_app, Htyped. reflexivity.
  - apply ids_below_inserted; [exact Hids | reflexivity].
  - cbn [inserted with_table table tbl_outputs]. rewrite length_app. cbn [length]. lia.
  - reflexivity.
  - unfold row. rewrite scenario_results_inserted, map_app, Hview.
    rewrite seq_S, map_app. reflexivity.
  - intros other Hne. unfold scenario_results.
    cbn [inserted with_table table tbl_outputs]. rewrite where_app.
    cbn [where_ matches_all forallb filter_holds].
    change (get "scenario_id" row) with (VStr (scenarioId params)). cbn [sql_eqb].
    destruct (jsstring_eqb (scenarioId params) other) eqn:E.
    + apply jsstring_eqb_eq in E. congruence.
    + cbn [andb]. apply app_nil_r.
Qed.

(** X24.  In a store whose result rows are typed and whose ids were handed
    out by the database, for a project of the signed-in user and a scenario
    without results: [n] calls of [createResult] for the scenario, with no
    other writer and [n] no larger than the largest INTEGER, store [n] more
    rows; the results of the scenario are then named 'Result 1' to
    'Result n' and numbered 1 to [n], in the order of their creation, and the
    results of every other scenario are as before. *)
Theorem createResult_sequence :
  forall (db : DB) (params : ResultParams) (userId : jsstring) (n : nat),
    forallb is_result_row (tbl_outputs db) = true ->
    ids_below db scenario_outputs ->
    (N.of_nat (length (tbl_outputs db) + n) < 2 ^ 32)%N ->
    (Z.of_nat n <= 2147483647)%Z ->
    may_create db userId params ->
    scenario_results db (scenarioId params) = [] ->
    let db' := repeated n (createResult params) db in
    map name_and_number (scenario_results db' (scenarioId params)) = map kth_result (seq 1 n)
    /\ length (tbl_outputs db') = (length (tbl_outputs db) + n)%nat
    /\ tbl_projects db' = tbl_projects db
    /\ forall other, other <> scenarioId params ->
                     scenario_results db' other = scenario_results db other.
Proof.
  intros db params userId n Htyped Hids Hlen Hn _ Hempty db'.
  assert (Hinv : forallb is_result_row (tbl_outputs db') = true
                 /\ ids_below db' scenario_outputs
                 /\ length (tbl_outputs db') = (length (tbl_outputs db) + n)%nat
                 /\ tbl_projects db' = tbl_projects db
                 /\ map name_and_number (scenario_results db' (scenarioId params))
                    = map kth_result (seq 1 n)
                 /\ forall other, other <> scenarioId params ->
                                  scenario_results db' other = scenario_results db other).
  { unfold db'. clear db'. induction n as [|n IH].
    - cbn [repeated]. rewrite Hempty, Nat.add_0_r. auto 6.
    - destruct IH as (Ht & Hi & Hl & Hp & Hv & Ho); [lia | lia |].
      cbn [repeated].
      destruct (createResult_next _ params n Ht Hi ltac:(lia) ltac:(lia) Hv)
        as (Ht' & Hi' & Hl' & Hp' & Hv' & Ho').
      split; [exact Ht'|]. split; [exact Hi'|]. split; [lia|].
      split; [congruence|]. split; [exact Hv'|].
      intros other Hne. rewrite (Ho' other Hne). apply Ho. exact Hne. }
  tauto.
Qed.

(** Three results for the scenario 's1'. *)
Lemma createResult_sequence_witness :
  let db' := repeated 3 (createResult run1) one_project in
  forallb is_result_row (tbl_outputs one_project) = true
  /\ ids_below one_project scenario_outputs
  /\ (N.of_nat (length (tbl_outputs one_project) + 3) < 2 ^ 32)%N
  /\ (Z.of_nat 3 <= 2147483647)%Z
  /\ may_create one_project (js "u1") run1
  /\ scenario_results one_project (scenarioId run1) = []
  /\ map name_and_number (scenario_results db' (scenarioId run1)) = map kth_result (seq 1 3)
  /\ length (tbl_outputs db') = (length (tbl_outputs one_project) + 3)%nat
  /\ tbl_projects db' = tbl_projects one_project
  /\ forall other, other <> scenarioId run1 ->
                   scenario_results db' other = scenario_results one_project other.
Proof.
  cbv zeta.
  assert (H1 : forallb is_result_row (tbl_outputs one_project) = true) by reflexivity.
  assert (H2 : ids_below one_project scenario_outputs) by (intros r []).
  assert (H3 : (N.of_nat (length (tbl_outputs one_project) + 3) < 2 ^ 32)%N)
    by (vm_compute; reflexivity).
  assert (H4 : (Z.of_nat 3 <= 2147483647)%Z) by lia.
  assert (H5 : may_create one_project (js "u1") run1).
  { split; [|intros r []].
    exists (nth 0 (tbl_projects one_project) []).
    split; [left; reflexivity | split; reflexivity]. }
  assert (H6 : scenario_results one_project (scenarioId run1) = []) by reflexivity.
  split; [exact H1|]. split; [exact H2|]. split; [exact H3|]. split; [exact H4|].
  split; [exact H5|]. split; [exact H6|].
  exact (createResult_sequence one_project run1 (js "u1") 3 H1 H2 H3 H4 H5 H6).
Defined.

(** X25.  [renameProject] of the context, for a signed-in user, on a store
    that satisfies its keys and with no other writer: when the project is
    one of the user's and no other project of the user holds the new name,
    the call succeeds, the stored project carries the new name, and the
    project list of the context is read again: it holds the stored rows,
    the renamed one among them, most recently created first. *)
Theorem ctx_renameProject_refreshes :
  forall (db : DB) (user : User) (st : ProjectState) (id newName : jsstring) (me : Row),
    keys_ok projects (tbl_projects db) = true ->
    In me (tbl_projects db) ->
    get "user_id" me = VStr (user_id user) ->
    get "id" me = VStr id ->
    (forall x, In x (tbl_projects db) -> get "user_id" x = VStr (user_id user) ->
               get "name" x = VStr newName -> x = me) ->
    let stored := renamed id newName (tbl_projects db) in
    exists listed,
      fst (run db_exec (ctx_renameProject (Some user) st id newName) db)
      = (Returned (mkRename true None, mkProjectState listed false),
         with_table db projects stored)
      /\ listed ≡ₚ stored
      /\ StronglySorted (larger_first "created_at") listed
      /\ In (set "name" (VStr newName) me) listed.
Proof.
  intros db user st id newName me Hok Hme Huser Hid Hfree stored.
  assert (Hrun : fst (run db_exec (renameProject id newName (user_id user)) db)
                 = (Returned (mkRename true None), with_table db projects stored)).
  { rewrite renameProject_shape.
    refine (rename_with_takes db projects [("user_id", user_id user)]
              [Eq "user_id" (VStr (user_id user))] _ _ id newName Hok _ _ _
              me Hme _ Hid _).
    - intros key [<-|[<-|[]]]; [right | left; reflexivity].
      simpl. intros [E|E]; [discriminate E | destruct E].
    - simpl. intros [E|E]; [discriminate E | destruct E].
    - intros r Hsc. apply (scope_filters_hold [("user_id", user_id user)]). exact Hsc.
    - constructor; [exact Huser | constructor].
    - intros x Hx Hsc Hn. apply (Hfree x Hx); [|exact Hn].
      inversion Hsc; assumption. }
  exists (order_by "created_at" false stored).
  split; [|split; [apply order_by_perm|split; [apply order_by_larger_first|]]].
  - unfold ctx_renameProject. rewrite run_bind.
    destruct (run db_exec (renameProject id newName (user_id user)) db) as [[o db1] log1].
    cbn [fst] in Hrun. injection Hrun as -> ->. cbn [then_run success].
    rewrite run_bind, run_fetchProjects. cbn [then_run run fst].
    destruct db; reflexivity.
  - apply list_elem_of_In. rewrite order_by_perm. apply list_elem_of_In.
    unfold stored, renamed. apply in_map_iff. exists me. split; [|exact Hme].
    rewrite Hid. cbn [sql_eqb]. rewrite jsstring_eqb_refl. reflexivity.
Qed.

(** 'Network 1' (id-1) is renamed 'Plan' through the context. *)
Lemma ctx_renameProject_refreshes_witness :
  let me := nth 1 (tbl_projects two_projects) [] in
  let user := mkUser (js "u1") in
  let st := mkProjectState [] true in
  keys_ok projects (tbl_projects two_projects) = true
  /\ In me (tbl_projects two_projects)
  /\ exists listed,
      fst (run db_exec (ctx_renameProject (Some user) st (js "id-1") (js "Plan")) two_projects)
      = (Returned (mkRename true None, mkProjectState listed false),
         with_table two_projects projects
           (renamed (js "id-1") (js "Plan") (tbl_projects two_projects)))
      /\ listed ≡ₚ renamed (js "id-1") (js "Plan") (tbl_projects two_projects)
      /\ StronglySorted (larger_first "created_at") listed
      /\ In (set "name" (VStr (js "Plan")) me) listed.
Proof.
  cbv zeta.
  assert (H1 : keys_ok projects (tbl_projects two_projects) = true)
    by (vm_compute; reflexivity).
  assert (H2 : In (nth 1 (tbl_projects two_projects) []) (tbl_projects two_projects))
    by (vm_compute; right; left; reflexivity).
  split; [exact H1|]. split; [exact H2|].
  refine (ctx_renameProject_refreshes two_projects (mkUser (js "u1"))
            (mkProjectState [] true) (js "id-1") (js "Plan")
            (nth 1 (tbl_projects two_projects) []) H1 H2 _ _ _).
  - reflexivity.
  - reflexivity.
  - intros x Hx _ Hn. vm_compute in Hx.
    destruct Hx as [<-|[<-|[]]]; vm_compute in Hn; discriminate Hn.
Defined.
